(** * The offline cache manager of the Daily Reminder app (sw.js)

    A shallow embedding of the service worker: its install, activate and
    fetch listeners and the two resolution policies
    [handleDocumentRequest] and [handleAssetRequest].

    The worker talks to three capabilities of the hosting platform: the
    Cache Storage, the network and the console.  They are modelled by an
    explicit state (the cache storage and a chronological trace of every
    call made) and by an environment [Env] that decides which network
    fetches resolve and which storage calls reject.  An [async] function
    is a state-and-error computation [Promise]; [await] is its bind and
    [try]/[catch] its handler. *)

From Stdlib Require Import String Ascii List ZArith Bool Lia.
Import ListNotations.

Local Open Scope string_scope.
Local Open Scope Z_scope.

(** ** Strings *)

(** [s.includes(t)] of JavaScript: [t] occurs in [s] as a substring. *)
Fixpoint includes (s t : string) : bool :=
  if String.prefix t s then true
  else match s with
       | EmptyString => false
       | String _ s' => includes s' t
       end.


(** The double quote and the line feed, which string literals here do
    not spell out. *)
Definition dq : string := String (ascii_of_nat 34) EmptyString.
Definition nl : string := String (ascii_of_nat 10) EmptyString.

(** Header names compare without case. *)
Definition lower_ascii (c : ascii) : ascii :=
  let n := nat_of_ascii c in
  if andb (Nat.leb 65 n) (Nat.leb n 90) then ascii_of_nat (n + 32) else c.

Fixpoint lower (s : string) : string :=
  match s with
  | EmptyString => EmptyString
  | String c s' => String (lower_ascii c) (lower s')
  end.

(** ** Requests and responses *)

Record Request := mkRequest {
  method : string;
  url : string;
  destination : string
}.

(** [new Request(u)], which is what [caches.match("./index.html")] and
    [cache.addAll] build from a URL string. *)
Definition Request_of (u : string) : Request :=
  {| method := "GET"; url := u; destination := "" |}.

Definition Headers := list (string * string).

Definition headers_get (h : Headers) (name : string) : option string :=
  match find (fun kv => String.eqb (lower (fst kv)) (lower name)) h with
  | Some kv => Some (snd kv)
  | None => None
  end.

Record Response := mkResponse {
  status : Z;
  statusText : string;
  headers : Headers;
  body : string
}.

(** [response.ok]. *)
Definition ok (r : Response) : bool :=
  andb (200 <=? status r) (status r <=? 299).

Record ResponseInit := mkInit {
  init_status : option Z;
  init_statusText : option string;
  init_headers : Headers
}.

(** [new Response(body, init)]: the status defaults to 200, the status
    text to the empty string, and a string body without a declared
    content type is typed as plain text. *)
Definition new_Response (b : string) (init : ResponseInit) : Response :=
  {| status := match init_status init with Some s => s | None => 200 end;
     statusText := match init_statusText init with Some t => t | None => "" end;
     headers := match headers_get (init_headers init) "Content-Type" with
                | Some _ => init_headers init
                | None => (init_headers init
                           ++ [("content-type", "text/plain;charset=UTF-8")])%list
                end;
     body := b |}.

(** ** The Cache Storage

    A namespace is a list of entries in insertion order; the storage is
    the list of namespaces in creation order, which is the order
    [caches.keys()] reports and [caches.match] searches. *)

Definition Cache := list (Request * Response).
Definition CacheStorage := list (string * Cache).

(** [cache.match(request)]: the first entry stored under the URL. *)
Definition cache_lookup (c : Cache) (r : Request) : option Response :=
  match find (fun e => String.eqb (url (fst e)) (url r)) c with
  | Some e => Some (snd e)
  | None => None
  end.

(** [caches.match(request)]: every namespace, oldest first. *)
Fixpoint storage_match (cs : CacheStorage) (r : Request) : option Response :=
  match cs with
  | [] => None
  | (_, c) :: cs' =>
      match cache_lookup c r with
      | Some resp => Some resp
      | None => storage_match cs' r
      end
  end.

Definition storage_has (cs : CacheStorage) (name : string) : bool :=
  existsb (fun nc => String.eqb (fst nc) name) cs.

Definition storage_get (cs : CacheStorage) (name : string) : option Cache :=
  match find (fun nc => String.eqb (fst nc) name) cs with
  | Some nc => Some (snd nc)
  | None => None
  end.

(** The lookup of one namespace only. *)
Definition namespace_match (cs : CacheStorage) (name : string) (r : Request)
  : option Response :=
  match storage_get cs name with
  | Some c => cache_lookup c r
  | None => None
  end.

(** [caches.open(name)] creates the namespace when it is absent. *)
Definition storage_open (cs : CacheStorage) (name : string) : CacheStorage :=
  if storage_has cs name then cs else (cs ++ [(name, [])])%list.

(** [cache.put(request, response)]: replaces the entry of the URL, or
    appends a new one. *)
Fixpoint cache_store (c : Cache) (r : Request) (resp : Response) : Cache :=
  match c with
  | [] => [(r, resp)]
  | e :: c' =>
      if String.eqb (url (fst e)) (url r) then (r, resp) :: c'
      else e :: cache_store c' r resp
  end.

Definition storage_put (cs : CacheStorage) (name : string)
  (r : Request) (resp : Response) : CacheStorage :=
  map (fun nc => if String.eqb (fst nc) name
                 then (fst nc, cache_store (snd nc) r resp) else nc) cs.

Definition storage_keys (cs : CacheStorage) : list string := map fst cs.

Definition storage_delete (cs : CacheStorage) (name : string) : CacheStorage :=
  filter (fun nc => negb (String.eqb (fst nc) name)) cs.

(** The GET-only invariant of the data model: every stored key is a GET
    request. *)
Definition cache_get_only (c : Cache) : bool :=
  forallb (fun e => String.eqb (method (fst e)) "GET") c.

Definition get_only (cs : CacheStorage) : bool :=
  forallb (fun nc => cache_get_only (snd nc)) cs.

(** ** Promises: state, trace and rejection *)

Inductive Error :=
| NetworkError     (* [fetch] rejected *)
| StorageError     (* a Cache Storage call rejected *)
| TypeError.       (* [addAll] did not get an ok response for some URL *)

(** Every call the worker makes on the platform, in the order made. *)
Inductive Event :=
| Log (args : list string)
| LogError (msg : string) (e : Error)
| NetFetch (r : Request)
| CachesMatch (r : Request)
| CachesOpen (name : string)
| CachePut (name : string) (r : Request) (resp : Response)
| CacheAddAll (name : string) (urls : list string)
| CachesKeys
| CachesDelete (name : string)
| SkipWaiting
| ClientsClaim.

Record State := mkState {
  caches : CacheStorage;
  trace : list Event
}.

(** A worker that has not run yet, over a given storage. *)
Definition init (cs : CacheStorage) : State :=
  {| caches := cs; trace := [] |}.

Inductive Settled (A : Type) :=
| Fulfilled (a : A)
| Rejected (e : Error).

Arguments Fulfilled {A} a.
Arguments Rejected {A} e.

Definition Promise (A : Type) := State -> Settled A * State.

Definition ret {A} (a : A) : Promise A := fun st => (Fulfilled a, st).

Definition throw {A} (e : Error) : Promise A := fun st => (Rejected e, st).

(** [const x = await m; k x]. *)
Definition bind {A B} (m : Promise A) (k : A -> Promise B) : Promise B :=
  fun st =>
    match m st with
    | (Fulfilled a, st') => k a st'
    | (Rejected e, st') => (Rejected e, st')
    end.

(** [try { m } catch (error) { h error }], and [m.catch(h)]. *)
Definition try_catch {A} (m : Promise A) (h : Error -> Promise A) : Promise A :=
  fun st =>
    match m st with
    | (Fulfilled a, st') => (Fulfilled a, st')
    | (Rejected e, st') => h e st'
    end.

(** A call whose promise is dropped: it takes effect, its rejection
    reaches nobody. *)
Definition detach {A} (m : Promise A) : Promise unit :=
  fun st => (Fulfilled tt, snd (m st)).

(** [Promise.all(ps)] over promises that were all started already: each
    one runs, and the first rejection, if any, is the result. *)
Fixpoint promise_all {A} (ps : list (Promise A)) : Promise (list A) :=
  match ps with
  | [] => ret []
  | p :: ps' =>
      fun st =>
        match p st with
        | (Fulfilled a, st1) =>
            match promise_all ps' st1 with
            | (Fulfilled l, st2) => (Fulfilled (a :: l), st2)
            | (Rejected e, st2) => (Rejected e, st2)
            end
        | (Rejected e, st1) => (Rejected e, snd (promise_all ps' st1))
        end
  end.

Declare Scope promise_scope.
Delimit Scope promise_scope with promise.
Notation "x <- m ;; k" := (bind m (fun x => k))
  (at level 61, m at next level, right associativity) : promise_scope.
Notation "m ;; k" := (bind m (fun _ => k))
  (at level 61, right associativity) : promise_scope.
Local Open Scope promise_scope.

Definition emit (e : Event) (st : State) : State :=
  {| caches := caches st; trace := (trace st ++ [e])%list |}.

Definition set_caches (cs : CacheStorage) (st : State) : State :=
  {| caches := cs; trace := trace st |}.

(** How many times the network was asked. *)
Definition is_fetch (e : Event) : bool :=
  match e with NetFetch _ => true | _ => false end.

Definition fetch_count (t : list Event) : nat :=
  List.length (filter is_fetch t).

(** ** The platform, as the worker sees it *)

Record Env := mkEnv {
  (** the network: [None] when [fetch] rejects *)
  net : Request -> option Response;
  (** storage calls that reject *)
  match_fails : Request -> bool;
  open_fails : string -> bool;
  put_fails : string -> Request -> Response -> bool;
  keys_fails : bool;
  delete_fails : string -> bool
}.

Section Worker.

Variable env : Env.

Definition console_log (args : list string) : Promise unit :=
  fun st => (Fulfilled tt, emit (Log args) st).

Definition console_error (msg : string) (e : Error) : Promise unit :=
  fun st => (Fulfilled tt, emit (LogError msg e) st).

Definition fetch (r : Request) : Promise Response :=
  fun st =>
    let st' := emit (NetFetch r) st in
    match net env r with
    | Some resp => (Fulfilled resp, st')
    | None => (Rejected NetworkError, st')
    end.

Definition caches_match (r : Request) : Promise (option Response) :=
  fun st =>
    let st' := emit (CachesMatch r) st in
    if match_fails env r then (Rejected StorageError, st')
    else (Fulfilled (storage_match (caches st) r), st').

(** The handle [caches.open] resolves with is the namespace's name. *)
Definition caches_open (name : string) : Promise string :=
  fun st =>
    let st' := emit (CachesOpen name) st in
    if open_fails env name then (Rejected StorageError, st')
    else (Fulfilled name, set_caches (storage_open (caches st) name) st').

Definition cache_put (cache : string) (r : Request) (resp : Response)
  : Promise unit :=
  fun st =>
    let st' := emit (CachePut cache r resp) st in
    if put_fails env cache r resp then (Rejected StorageError, st')
    else (Fulfilled tt, set_caches (storage_put (caches st) cache r resp) st').

Definition caches_keys : Promise (list string) :=
  fun st =>
    let st' := emit CachesKeys st in
    if keys_fails env then (Rejected StorageError, st')
    else (Fulfilled (storage_keys (caches st)), st').

Definition caches_delete (name : string) : Promise bool :=
  fun st =>
    let st' := emit (CachesDelete name) st in
    if delete_fails env name then (Rejected StorageError, st')
    else (Fulfilled (storage_has (caches st) name),
          set_caches (storage_delete (caches st) name) st').

(** [cache.addAll(urls)]: every URL is fetched; the batch is stored only
    when every response is ok (and not partial content) and every write
    goes through; otherwise nothing is stored and the call rejects. *)
Fixpoint fetch_all (urls : list string)
  : option (list (Request * Response)) :=
  match urls with
  | [] => Some []
  | u :: urls' =>
      match net env (Request_of u) with
      | Some resp =>
          if andb (ok resp) (negb (status resp =? 206)) then
            match fetch_all urls' with
            | Some l => Some ((Request_of u, resp) :: l)
            | None => None
            end
          else None
      | None => None
      end
  end.

Definition put_all (cs : CacheStorage) (cache : string)
  (l : list (Request * Response)) : CacheStorage :=
  fold_left (fun acc e => storage_put acc cache (fst e) (snd e)) l cs.

Definition cache_addAll (cache : string) (urls : list string) : Promise unit :=
  fun st =>
    let st' := fold_left (fun s u => emit (NetFetch (Request_of u)) s) urls
                 (emit (CacheAddAll cache urls) st) in
    match fetch_all urls with
    | Some l =>
        if existsb (fun e => put_fails env cache (fst e) (snd e)) l
        then (Rejected StorageError, st')
        else (Fulfilled tt, set_caches (put_all (caches st) cache l) st')
    | None => (Rejected TypeError, st')
    end.

Definition skipWaiting : Promise unit :=
  fun st => (Fulfilled tt, emit SkipWaiting st).

Definition clients_claim : Promise unit :=
  fun st => (Fulfilled tt, emit ClientsClaim st).

(** ** sw.js *)

Definition CACHE_NAME : string := "daily-reminder-v1".

Definition STATIC_CACHE_URLS : list string :=
  [ "./";
    "./index.html";
    "./styles.css";
    "./script.js";
    "./manifest.json" ].

(** The install listener: the promise it hands to [event.waitUntil]. *)
Definition install : Promise unit :=
  console_log ["Service Worker: Installing..."] ;;
  try_catch
    (cache <- caches_open CACHE_NAME ;;
     console_log ["Service Worker: Caching static assets"] ;;
     cache_addAll cache STATIC_CACHE_URLS ;;
     console_log ["Service Worker: Installation complete"] ;;
     skipWaiting)
    (fun error =>
       console_error "Service Worker: Installation failed" error).

(** The callback mapped over the namespaces by the activate listener;
    for the current namespace it returns [undefined]. *)
Definition purge_one (cacheName : string) : Promise (option bool) :=
  if negb (String.eqb cacheName CACHE_NAME) then
    console_log ["Service Worker: Deleting old cache"; cacheName] ;;
    deleted <- caches_delete cacheName ;;
    ret (Some deleted)
  else ret None.

(** The activate listener: the promise it hands to [event.waitUntil]. *)
Definition activate : Promise unit :=
  console_log ["Service Worker: Activating..."] ;;
  cacheNames <- caches_keys ;;
  promise_all (map purge_one cacheNames) ;;
  console_log ["Service Worker: Activation complete"] ;;
  clients_claim.

(** The markup of the last-resort page of [handleDocumentRequest], line
    by line. *)
Definition OFFLINE_PAGE : string :=
  String.concat nl
    [ "<!DOCTYPE html>";
      "            <html>";
      "            <head>";
      "                <title>Daily Reminder - Offline</title>";
      "                <meta charset=" ++ dq ++ "UTF-8" ++ dq ++ ">";
      "                <meta name=" ++ dq ++ "viewport" ++ dq ++ " content=" ++ dq ++ "width=device-width, initial-scale=1.0" ++ dq ++ ">";
      "                <style>";
      "                    body {";
      "                        font-family: -apple-system, BlinkMacSystemFont, 'Segoe UI', sans-serif;";
      "                        margin: 0;";
      "                        padding: 2rem;";
      "                        background: #f8f9fa;";
      "                        color: #2c3e50;";
      "                        text-align: center;";
      "                    }";
      "                    .offline-message {";
      "                        max-width: 400px;";
      "                        margin: 4rem auto;";
      "                        padding: 2rem;";
      "                        background: white;";
      "                        border-radius: 8px;";
      "                        box-shadow: 0 2px 10px rgba(0,0,0,0.1);";
      "                    }";
      "                    h1 { color: #dc3545; margin-bottom: 1rem; }";
      "                    p { line-height: 1.6; margin-bottom: 1rem; }";
      "                    button {";
      "                        background: #007bff;";
      "                        color: white;";
      "                        border: none;";
      "                        padding: 0.75rem 1.5rem;";
      "                        border-radius: 4px;";
      "                        cursor: pointer;";
      "                        font-size: 1rem;";
      "                    }";
      "                    button:hover { background: #0056b3; }";
      "                </style>";
      "            </head>";
      "            <body>";
      "                <div class=" ++ dq ++ "offline-message" ++ dq ++ ">";
      "                    <h1>📝 Daily Reminder</h1>";
      "                    <h2>You're Offline</h2>";
      "                    <p>The app couldn't load properly. Please check your internet connection and try again.</p>";
      "                    <button onclick=" ++ dq ++ "window.location.reload()" ++ dq ++ ">Retry</button>";
      "                </div>";
      "            </body>";
      "            </html>" ].

Definition OFFLINE_RESPONSE : Response :=
  new_Response OFFLINE_PAGE
    {| init_status := None; init_statusText := None;
       init_headers := [("Content-Type", "text/html")] |}.

(** Handle document requests (HTML). *)
Definition handleDocumentRequest (request : Request) : Promise Response :=
  try_catch
    (cachedResponse <- caches_match request ;;
     match cachedResponse with
     | Some cached =>
         console_log ["Service Worker: Serving document from cache"] ;;
         ret cached
     | None =>
         networkResponse <- fetch request ;;
         cache <- caches_open CACHE_NAME ;;
         detach (cache_put cache request networkResponse) ;;
         console_log
           ["Service Worker: Serving document from network and caching"] ;;
         ret networkResponse
     end)
    (fun error =>
       console_error "Service Worker: Document request failed" error ;;
       offlineResponse <- caches_match (Request_of "./index.html") ;;
       match offlineResponse with
       | Some offline => ret offline
       | None => ret OFFLINE_RESPONSE
       end).

Definition CSS_FALLBACK : Response :=
  new_Response "/* Offline fallback styles */"
    {| init_status := None; init_statusText := None;
       init_headers := [("Content-Type", "text/css")] |}.

Definition JS_FALLBACK : Response :=
  new_Response
    ("// Offline fallback script" ++ nl
     ++ "console.log(" ++ dq ++ "App running in offline mode" ++ dq ++ ");")
    {| init_status := None; init_statusText := None;
       init_headers := [("Content-Type", "application/javascript")] |}.

Definition NOT_AVAILABLE : Response :=
  new_Response "Asset not available offline"
    {| init_status := Some 404; init_statusText := Some "Not Found";
       init_headers := [] |}.

(** Handle asset requests (CSS, JS, etc.). *)
Definition handleAssetRequest (request : Request) : Promise Response :=
  try_catch
    (cachedResponse <- caches_match request ;;
     match cachedResponse with
     | Some cached =>
         console_log ["Service Worker: Serving asset from cache"] ;;
         ret cached
     | None =>
         networkResponse <- fetch request ;;
         cache <- caches_open CACHE_NAME ;;
         detach (cache_put cache request networkResponse) ;;
         console_log
           ["Service Worker: Serving asset from network and caching"] ;;
         ret networkResponse
     end)
    (fun error =>
       console_error "Service Worker: Asset request failed" error ;;
       if includes (url request) ".css" then ret CSS_FALLBACK
       else if includes (url request) ".js" then ret JS_FALLBACK
       else ret NOT_AVAILABLE).

(** The fetch listener.  It either returns without calling
    [event.respondWith], which leaves the request to the platform, or
    answers with the promise of one of the two handlers. *)
Inductive Dispatch :=
| PassThrough
| RespondWith (p : Promise Response).

Definition on_fetch (request : Request) : Dispatch :=
  if negb (String.eqb (method request) "GET") then PassThrough
  else if String.eqb (destination request) "document"
       then RespondWith (handleDocumentRequest request)
       else RespondWith (handleAssetRequest request).

(** A fetch event run to its end: [None] when the request was not
    intercepted, the settled answer otherwise. *)
Definition fetch_event (request : Request) (st : State)
  : option (Settled Response) * State :=
  match on_fetch request with
  | PassThrough => (None, st)
  | RespondWith p => let (r, st') := p st in (Some r, st')
  end.

(** The message listener: the Control Channel. *)
Definition on_message (data : option string) : Promise unit :=
  match data with
  | Some type => if String.eqb type "SKIP_WAITING" then skipWaiting else ret tt
  | None => ret tt
  end.

End Worker.

(** ** The lifecycle around the listeners

    The hosting platform settles the worker's state from the promise
    the install listener handed to [event.waitUntil]: a rejected promise
    makes the install fail and discards the new instance; a fulfilled
    one moves it to [Waiting].  A waiting instance is promoted when it
    asked to skip the waiting phase or when no client is left on the
    previous version. *)
Inductive LifecycleState := Installing | Waiting | Active | Redundant.

Definition after_install (outcome : Settled unit) : LifecycleState :=
  match outcome with
  | Fulfilled _ => Waiting
  | Rejected _ => Redundant
  end.

Definition skip_requested (t : list Event) : bool :=
  existsb (fun e => match e with SkipWaiting => true | _ => false end) t.

Definition promote (skip : bool) (old_clients : nat) (s : LifecycleState)
  : LifecycleState :=
  match s with
  | Waiting => if orb skip (Nat.eqb old_clients 0) then Active else Waiting
  | _ => s
  end.

(** An install event from the listener to the state the platform leaves
    the new instance in. *)
Definition install_cycle (env : Env) (old_clients : nat) (st : State)
  : LifecycleState * State :=
  let (outcome, st') := install env st in
  (promote (skip_requested (trace st')) old_clients (after_install outcome),
   st').

(** The two resolution policies. *)
Definition policies : list (Env -> Request -> Promise Response) :=
  [handleDocumentRequest; handleAssetRequest].

(** Total failure of a resolution: the cache lookup rejects, or it
    misses and the network fetch rejects. *)
Definition total_failure (env : Env) (cs : CacheStorage) (request : Request)
  : bool :=
  orb (match_fails env request)
      (andb (match storage_match cs request with Some _ => false | None => true end)
            (match net env request with Some _ => false | None => true end)).

(** The install listener reached its last step. *)
Definition install_completed (t : list Event) : bool :=
  existsb (fun e => match e with
                    | Log [msg] =>
                        String.eqb msg "Service Worker: Installation complete"
                    | _ => false
                    end) t.

(** The calls of an install up to the settling of [addAll]. *)
Definition install_prefix : list Event :=
  [ Log ["Service Worker: Installing..."];
    CachesOpen CACHE_NAME;
    Log ["Service Worker: Caching static assets"];
    CacheAddAll CACHE_NAME STATIC_CACHE_URLS ]
  ++ map (fun u => NetFetch (Request_of u)) STATIC_CACHE_URLS.

(** A namespace is stale when it is not the current one; the activate
    listener purges a stale namespace when its deletion goes through and
    is blocked on it when the deletion rejects. *)
Definition stale (name : string) : bool :=
  negb (String.eqb name CACHE_NAME).

Definition purged (env : Env) (name : string) : bool :=
  andb (stale name) (negb (delete_fails env name)).

Definition purge_blocked (env : Env) (name : string) : bool :=
  andb (stale name) (delete_fails env name).

Definition is_error_log (e : Event) : bool :=
  match e with LogError _ _ => true | _ => false end.

(** The calls the activate listener makes for one namespace. *)
Definition purge_events (name : string) : list Event :=
  if stale name
  then [Log ["Service Worker: Deleting old cache"; name]; CachesDelete name]
  else [].

(** ** Scenarios

    Concrete platforms, storages and requests on which the properties
    below are exercised. *)

Definition PAGE : Response :=
  {| status := 200; statusText := "OK";
     headers := [("Content-Type", "text/html")];
     body := "<!DOCTYPE html><title>Daily Reminder</title>" |}.

Definition NOT_FOUND : Response :=
  {| status := 404; statusText := "Not Found";
     headers := [("Content-Type", "text/html")];
     body := "<h1>Not Found</h1>" |}.

(** The network answers every request; the storage never rejects. *)
Definition online : Env :=
  {| net := fun _ => Some PAGE;
     match_fails := fun _ => false; open_fails := fun _ => false;
     put_fails := fun _ _ _ => false; keys_fails := false;
     delete_fails := fun _ => false |}.

(** Every fetch rejects; the storage never rejects. *)
Definition offline : Env :=
  {| net := fun _ => None;
     match_fails := fun _ => false; open_fails := fun _ => false;
     put_fails := fun _ _ _ => false; keys_fails := false;
     delete_fails := fun _ => false |}.

(** The server answers every request with a 404 page. *)
Definition online_404 : Env :=
  {| net := fun _ => Some NOT_FOUND;
     match_fails := fun _ => false; open_fails := fun _ => false;
     put_fails := fun _ _ _ => false; keys_fails := false;
     delete_fails := fun _ => false |}.

(** Offline, and every lookup in the Cache Storage rejects. *)
Definition storage_down : Env :=
  {| net := fun _ => None;
     match_fails := fun _ => true; open_fails := fun _ => false;
     put_fails := fun _ _ _ => false; keys_fails := false;
     delete_fails := fun _ => false |}.

(** Online, except that the style sheet cannot be fetched. *)
Definition styles_unreachable : Env :=
  {| net := fun r => if String.eqb (url r) "./styles.css" then None
                     else Some PAGE;
     match_fails := fun _ => false; open_fails := fun _ => false;
     put_fails := fun _ _ _ => false; keys_fails := false;
     delete_fails := fun _ => false |}.

(** The namespace of the previous version cannot be deleted. *)
Definition delete_refused : Env :=
  {| net := fun _ => Some PAGE;
     match_fails := fun _ => false; open_fails := fun _ => false;
     put_fails := fun _ _ _ => false; keys_fails := false;
     delete_fails := fun name => String.eqb name "daily-reminder-v0" |}.

(** The storage right after a version bump from v0 to v1. *)
Definition two_versions : CacheStorage :=
  [ ("daily-reminder-v0", [(Request_of "./", PAGE)]);
    ("daily-reminder-v1", [(Request_of "./", PAGE)]) ].

(** Three generations of namespaces, the oldest one undeletable under
    [delete_refused]. *)
Definition three_versions : CacheStorage :=
  [ ("daily-reminder-v0", [(Request_of "./", PAGE)]);
    ("daily-reminder-beta", []);
    ("daily-reminder-v1", [(Request_of "./", PAGE)]) ].

Definition document_request : Request :=
  {| method := "GET"; url := "./"; destination := "document" |}.

Definition stylesheet_request : Request :=
  {| method := "GET"; url := "./missing.css"; destination := "style" |}.

Definition image_request : Request :=
  {| method := "GET"; url := "./missing.png"; destination := "image" |}.


Definition post_request : Request :=
  {| method := "POST"; url := "./notes"; destination := "" |}.

(** ** More of sw.js: lookups across namespaces, push messages *)

(** Every namespace answers a request alike: the ones called [name]
    with [acc], the others not at all. *)
Definition answers_alike (name : string) (r : Request)
  (acc : option Response) (cs : CacheStorage) : Prop :=
  Forall (fun nc => cache_lookup (snd nc) r
                    = if String.eqb (fst nc) name then acc else None) cs.

(** The response a batch of writes leaves under the URL of [r]. *)
Definition last_response (l : list (Request * Response)) (r : Request)
  (acc : option Response) : option Response :=
  fold_left (fun acc e => if String.eqb (url (fst e)) (url r)
                          then Some (snd e) else acc) l acc.

(** The conditions under which [cache.addAll] takes a manifest entry. *)
Definition fetchable (env : Env) (u : string) : bool :=
  match net env (Request_of u) with
  | Some resp => andb (ok resp) (negb (status resp =? 206))
  | None => false
  end.


(** Online, but every write into a namespace rejects. *)
Definition write_refused : Env :=
  {| net := fun _ => Some PAGE;
     match_fails := fun _ => false; open_fails := fun _ => false;
     put_fails := fun _ _ _ => true; keys_fails := false;
     delete_fails := fun _ => false |}.

(** A storage left by an older version only. *)
Definition old_version_only : CacheStorage :=
  [ ("daily-reminder-v0", [(Request_of "./old.css", PAGE)]) ].

(** ** Push messages and notification clicks (sw.js) *)

Section Push.

(** The numbers of a parsed payload, and which of them are falsy (zero
    and NaN). *)
Variable number : Type.
Variable falsy_number : number -> bool.

(** What [event.data.json()] gives. *)
#[warnings="-register-all"]
Inductive JSON :=
| JNull
| JBool (b : bool)
| JNumber (n : number)
| JString (s : string)
| JArray (items : list JSON)
| JObject (members : list (string * JSON)).

(** A value read from a payload; [None] is [undefined]. *)
Definition truthy (v : option JSON) : bool :=
  match v with
  | None | Some JNull => false
  | Some (JBool b) => b
  | Some (JNumber n) => negb (falsy_number n)
  | Some (JString s) => negb (String.eqb s "")
  | Some (JArray _) | Some (JObject _) => true
  end.

(** [data.title] and [data.body]: reading a member of [null] throws;
    strings, arrays and the other primitives have no member of these
    names.  The outer [None] is the TypeError. *)
Definition member (data : JSON) (name : string) : option (option JSON) :=
  match data with
  | JNull => None
  | JObject members =>
      Some (match find (fun kv => String.eqb (fst kv) name) members with
            | Some kv => Some (snd kv)
            | None => None
            end)
  | _ => Some None
  end.

(** [v || d]. *)
Definition or_default (v : option JSON) (d : string) : JSON :=
  match v with
  | Some j => if truthy v then j else JString d
  | None => JString d
  end.

Record NotificationOptions := mkOptions {
  opt_body : JSON;
  opt_icon : string;
  opt_badge : string;
  opt_tag : string;
  opt_requireInteraction : bool;
  opt_actions : list (string * string)   (* action, title *)
}.

Inductive PushOutcome :=
| PushIgnored                       (* no data: nothing is done *)
| PushSyntaxError                   (* [json()] threw *)
| PushTypeError                     (* reading a member of [null] threw *)
| PushShown (title : JSON) (options : NotificationOptions).

(** The push listener.  [data] is [event.data], and inside it the
    result of [json()], [None] when the text is not JSON. *)
Definition on_push (data : option (option JSON)) : PushOutcome :=
  match data with
  | None => PushIgnored
  | Some None => PushSyntaxError
  | Some (Some payload) =>
      match member payload "body" with
      | None => PushTypeError
      | Some b =>
          match member payload "title" with
          | None => PushTypeError
          | Some t =>
              PushShown (or_default t "Daily Reminder")
                {| opt_body :=
                     or_default b
                       "Don't forget to update your daily reminder!";
                   opt_icon := "./icon-192.png";
                   opt_badge := "./icon-72.png";
                   opt_tag := "reminder-notification";
                   opt_requireInteraction := true;
                   opt_actions := [("open", "Open App");
                                   ("dismiss", "Dismiss")] |}
          end
      end
  end.

End Push.

Arguments JNull {number}.
Arguments JBool {number} b.
Arguments JNumber {number} n.
Arguments JString {number} s.
Arguments JArray {number} items.
Arguments JObject {number} members.

Inductive ClickEffect :=
| CloseNotification
| OpenWindow (target : string).

(** The notificationclick listener, on [event.action]. *)
Definition on_notificationclick (action : string) : list ClickEffect :=
  CloseNotification
  :: (if orb (String.eqb action "open") (String.eqb action "")
      then [OpenWindow "./"] else []).

(** A push payload with an empty title, and the notification shown for
    it. *)
Definition reminder_payload : JSON nat :=
  JObject [("title", JString ""); ("body", JString "Water the plants")].

Definition reminder_options : NotificationOptions nat :=
  {| opt_body := JString "Water the plants";
     opt_icon := "./icon-192.png";
     opt_badge := "./icon-72.png";
     opt_tag := "reminder-notification";
     opt_requireInteraction := true;
     opt_actions := [("open", "Open App"); ("dismiss", "Dismiss")] |}.

(** * script.js: the note pad

    The application keeps its state in the page (the textarea, the
    status line, the confirmation dialog, the theme attributes), in
    [localStorage] and in one pending timer.  A method of
    [DailyReminderApp] is a function on that state; what the browser
    decides (whether [localStorage] throws, the system colour scheme,
    the number format of the locale) is a [Host]. *)

Module App.

Local Open Scope list_scope.

(** A JavaScript string: a sequence of UTF-16 code units. *)
Definition Text := list N.

(** An ASCII literal as a JavaScript string. *)
Definition text (s : string) : Text :=
  map N_of_ascii (list_ascii_of_string s).

Definition text_eqb (a b : Text) : bool :=
  if list_eq_dec N.eq_dec a b then true else false.

(** The code units [\s] matches and [trim] strips: the white space and
    the line terminators of ECMAScript. *)
Definition is_space (c : N) : bool :=
  orb (existsb (N.eqb c)
         [9; 10; 11; 12; 13; 32; 160; 5760; 8232; 8233; 8239; 8287; 12288;
          65279]%N)
      (andb (8192 <=? c)%N (c <=? 8202)%N).

Fixpoint trimStart (s : Text) : Text :=
  match s with
  | c :: s' => if is_space c then trimStart s' else s
  | [] => []
  end.

Definition trimEnd (s : Text) : Text := rev (trimStart (rev s)).

(** [s.trim()]. *)
Definition trim (s : Text) : Text := trimEnd (trimStart s).

(** [s.trim()] as a condition. *)
Definition blank (s : Text) : bool :=
  match trim s with [] => true | _ :: _ => false end.

(** [s.split(/\s+/)]: the pieces between the runs of white space; a
    run at either end leaves an empty piece there, and the empty string
    gives one empty piece. *)
Fixpoint split_spaces_from (in_run : bool) (piece : Text) (s : Text)
  : list Text :=
  match s with
  | [] => [piece]
  | c :: s' =>
      if is_space c then
        if in_run then split_spaces_from true [] s'
        else piece :: split_spaces_from true [] s'
      else split_spaces_from false (piece ++ [c]) s'
  end.

Definition split_spaces (s : Text) : list Text :=
  split_spaces_from false [] s.

(** [s.trim().split(/\s+/).filter((word) => word.length > 0).length]. *)
Definition count_words (s : Text) : nat :=
  List.length
    (filter (fun word => Nat.ltb 0 (List.length word))
       (split_spaces (trim s))).

(** [s.split("\n")]. *)
Fixpoint split_lines_from (piece : Text) (s : Text) : list Text :=
  match s with
  | [] => [piece]
  | c :: s' =>
      if N.eqb c 10 then piece :: split_lines_from [] s'
      else split_lines_from (piece ++ [c]) s'
  end.

Definition split_lines (s : Text) : list Text := split_lines_from [] s.

(** [s.substring(a, b)] and [s.substring(a)]: indices beyond the end
    are the end, and a start after the end swaps the two. *)
Definition substring (s : Text) (a b : nat) : Text :=
  let a' := Nat.min a (List.length s) in
  let b' := Nat.min b (List.length s) in
  firstn (Nat.max a' b' - Nat.min a' b') (skipn (Nat.min a' b') s).

Definition substring_from (s : Text) (a : nat) : Text :=
  skipn (Nat.min a (List.length s)) s.

(** The value a textarea reports has its line breaks normalised: a
    carriage return, alone or before a line feed, reads as a line
    feed. *)
Fixpoint normalize_newlines (s : Text) : Text :=
  match s with
  | [] => []
  | c :: s' =>
      if N.eqb c 13 then
        10%N :: match s' with
                | d :: s'' => if N.eqb d 10 then normalize_newlines s''
                              else normalize_newlines s'
                | [] => []
                end
      else c :: normalize_newlines s'
  end.

(** ** The page *)

Inductive Focus := NoFocus | OnTextarea | OnConfirmClear.

Record Placeholder := mkPlaceholder {
  opacity : string;
  pointerEvents : string
}.

Record Page := mkPage {
  value : Text;                      (* textarea.value *)
  selectionStart : nat;
  selectionEnd : nat;
  has_content : bool;                (* class 'has-content' of the textarea *)
  placeholder : option Placeholder;  (* #custom-placeholder, when present *)
  status_class : string;             (* saveStatus.className *)
  status_text : string;              (* saveStatus.textContent *)
  count_text : Text;                 (* charCount.textContent *)
  modal_hidden : bool;               (* class 'hidden' of the dialog *)
  focus : Focus;
  data_theme : option Text;          (* attribute of the root element *)
  toggle_text : Text;                (* themeToggle.textContent *)
  toggle_title : string;             (* themeToggle.title *)
  meta_theme_color : option string   (* content of the meta, when present *)
}.

Definition set_value (x : Text) (p : Page) : Page :=
  {| value := x; selectionStart := selectionStart p;
     selectionEnd := selectionEnd p; has_content := has_content p;
     placeholder := placeholder p; status_class := status_class p;
     status_text := status_text p; count_text := count_text p;
     modal_hidden := modal_hidden p; focus := focus p;
     data_theme := data_theme p; toggle_text := toggle_text p;
     toggle_title := toggle_title p;
     meta_theme_color := meta_theme_color p |}.

Definition set_selectionStart (x : nat) (p : Page) : Page :=
  {| value := value p; selectionStart := x; selectionEnd := selectionEnd p;
     has_content := has_content p; placeholder := placeholder p;
     status_class := status_class p; status_text := status_text p;
     count_text := count_text p; modal_hidden := modal_hidden p;
     focus := focus p; data_theme := data_theme p;
     toggle_text := toggle_text p; toggle_title := toggle_title p;
     meta_theme_color := meta_theme_color p |}.

Definition set_selectionEnd (x : nat) (p : Page) : Page :=
  {| value := value p; selectionStart := selectionStart p; selectionEnd := x;
     has_content := has_content p; placeholder := placeholder p;
     status_class := status_class p; status_text := status_text p;
     count_text := count_text p; modal_hidden := modal_hidden p;
     focus := focus p; data_theme := data_theme p;
     toggle_text := toggle_text p; toggle_title := toggle_title p;
     meta_theme_color := meta_theme_color p |}.

Definition set_has_content (x : bool) (p : Page) : Page :=
  {| value := value p; selectionStart := selectionStart p;
     selectionEnd := selectionEnd p; has_content := x;
     placeholder := placeholder p; status_class := status_class p;
     status_text := status_text p; count_text := count_text p;
     modal_hidden := modal_hidden p; focus := focus p;
     data_theme := data_theme p; toggle_text := toggle_text p;
     toggle_title := toggle_title p;
     meta_theme_color := meta_theme_color p |}.

Definition set_placeholder (x : option Placeholder) (p : Page) : Page :=
  {| value := value p; selectionStart := selectionStart p;
     selectionEnd := selectionEnd p; has_content := has_content p;
     placeholder := x; status_class := status_class p;
     status_text := status_text p; count_text := count_text p;
     modal_hidden := modal_hidden p; focus := focus p;
     data_theme := data_theme p; toggle_text := toggle_text p;
     toggle_title := toggle_title p;
     meta_theme_color := meta_theme_color p |}.

Definition set_status_class (x : string) (p : Page) : Page :=
  {| value := value p; selectionStart := selectionStart p;
     selectionEnd := selectionEnd p; has_content := has_content p;
     placeholder := placeholder p; status_class := x;
     status_text := status_text p; count_text := count_text p;
     modal_hidden := modal_hidden p; focus := focus p;
     data_theme := data_theme p; toggle_text := toggle_text p;
     toggle_title := toggle_title p;
     meta_theme_color := meta_theme_color p |}.

Definition set_status_text (x : string) (p : Page) : Page :=
  {| value := value p; selectionStart := selectionStart p;
     selectionEnd := selectionEnd p; has_content := has_content p;
     placeholder := placeholder p; status_class := status_class p;
     status_text := x; count_text := count_text p;
     modal_hidden := modal_hidden p; focus := focus p;
     data_theme := data_theme p; toggle_text := toggle_text p;
     toggle_title := toggle_title p;
     meta_theme_color := meta_theme_color p |}.

Definition set_count_text (x : Text) (p : Page) : Page :=
  {| value := value p; selectionStart := selectionStart p;
     selectionEnd := selectionEnd p; has_content := has_content p;
     placeholder := placeholder p; status_class := status_class p;
     status_text := status_text p; count_text := x;
     modal_hidden := modal_hidden p; focus := focus p;
     data_theme := data_theme p; toggle_text := toggle_text p;
     toggle_title := toggle_title p;
     meta_theme_color := meta_theme_color p |}.

Definition set_modal_hidden (x : bool) (p : Page) : Page :=
  {| value := value p; selectionStart := selectionStart p;
     selectionEnd := selectionEnd p; has_content := has_content p;
     placeholder := placeholder p; status_class := status_class p;
     status_text := status_text p; count_text := count_text p;
     modal_hidden := x; focus := focus p; data_theme := data_theme p;
     toggle_text := toggle_text p; toggle_title := toggle_title p;
     meta_theme_color := meta_theme_color p |}.

Definition set_focus (x : Focus) (p : Page) : Page :=
  {| value := value p; selectionStart := selectionStart p;
     selectionEnd := selectionEnd p; has_content := has_content p;
     placeholder := placeholder p; status_class := status_class p;
     status_text := status_text p; count_text := count_text p;
     modal_hidden := modal_hidden p; focus := x; data_theme := data_theme p;
     toggle_text := toggle_text p; toggle_title := toggle_title p;
     meta_theme_color := meta_theme_color p |}.

Definition set_data_theme (x : option Text) (p : Page) : Page :=
  {| value := value p; selectionStart := selectionStart p;
     selectionEnd := selectionEnd p; has_content := has_content p;
     placeholder := placeholder p; status_class := status_class p;
     status_text := status_text p; count_text := count_text p;
     modal_hidden := modal_hidden p; focus := focus p; data_theme := x;
     toggle_text := toggle_text p; toggle_title := toggle_title p;
     meta_theme_color := meta_theme_color p |}.

Definition set_toggle_text (x : Text) (p : Page) : Page :=
  {| value := value p; selectionStart := selectionStart p;
     selectionEnd := selectionEnd p; has_content := has_content p;
     placeholder := placeholder p; status_class := status_class p;
     status_text := status_text p; count_text := count_text p;
     modal_hidden := modal_hidden p; focus := focus p;
     data_theme := data_theme p; toggle_text := x;
     toggle_title := toggle_title p;
     meta_theme_color := meta_theme_color p |}.

Definition set_toggle_title (x : string) (p : Page) : Page :=
  {| value := value p; selectionStart := selectionStart p;
     selectionEnd := selectionEnd p; has_content := has_content p;
     placeholder := placeholder p; status_class := status_class p;
     status_text := status_text p; count_text := count_text p;
     modal_hidden := modal_hidden p; focus := focus p;
     data_theme := data_theme p; toggle_text := toggle_text p;
     toggle_title := x; meta_theme_color := meta_theme_color p |}.

Definition set_meta_theme_color (x : option string) (p : Page) : Page :=
  {| value := value p; selectionStart := selectionStart p;
     selectionEnd := selectionEnd p; has_content := has_content p;
     placeholder := placeholder p; status_class := status_class p;
     status_text := status_text p; count_text := count_text p;
     modal_hidden := modal_hidden p; focus := focus p;
     data_theme := data_theme p; toggle_text := toggle_text p;
     toggle_title := toggle_title p; meta_theme_color := x |}.

Inductive Callback := SaveLater | FocusLater.

Record Session := mkSession {
  page : Page;
  localStorage : list (string * Text);
  saveTimeout : option positive;          (* this.saveTimeout *)
  timers : list (positive * Callback);    (* timers set and not yet run *)
  next_timer : positive;
  theme_listener : bool;   (* the colour scheme listener is registered *)
  console : list string
}.

Definition set_page (x : Page) (st : Session) : Session :=
  {| page := x; localStorage := localStorage st;
     saveTimeout := saveTimeout st; timers := timers st;
     next_timer := next_timer st; theme_listener := theme_listener st;
     console := console st |}.

Definition set_localStorage (x : list (string * Text)) (st : Session) : Session :=
  {| page := page st; localStorage := x; saveTimeout := saveTimeout st;
     timers := timers st; next_timer := next_timer st;
     theme_listener := theme_listener st; console := console st |}.

Definition set_saveTimeout (x : option positive) (st : Session) : Session :=
  {| page := page st; localStorage := localStorage st; saveTimeout := x;
     timers := timers st; next_timer := next_timer st;
     theme_listener := theme_listener st; console := console st |}.

Definition set_timers (x : list (positive * Callback)) (st : Session) : Session :=
  {| page := page st; localStorage := localStorage st;
     saveTimeout := saveTimeout st; timers := x; next_timer := next_timer st;
     theme_listener := theme_listener st; console := console st |}.

Definition set_next_timer (x : positive) (st : Session) : Session :=
  {| page := page st; localStorage := localStorage st;
     saveTimeout := saveTimeout st; timers := timers st; next_timer := x;
     theme_listener := theme_listener st; console := console st |}.

Definition set_theme_listener (x : bool) (st : Session) : Session :=
  {| page := page st; localStorage := localStorage st;
     saveTimeout := saveTimeout st; timers := timers st;
     next_timer := next_timer st; theme_listener := x;
     console := console st |}.

Definition set_console (x : list string) (st : Session) : Session :=
  {| page := page st; localStorage := localStorage st;
     saveTimeout := saveTimeout st; timers := timers st;
     next_timer := next_timer st; theme_listener := theme_listener st;
     console := x |}.

Record Host := mkHost {
  getItem_throws : bool;
  setItem_throws : string -> Text -> bool;
  prefers_dark : bool;               (* (prefers-color-scheme: dark) *)
  toLocaleString : nat -> Text;
  sw_registration : option bool      (* [None]: no service worker support *)
}.

Definition STORAGE_KEY : string := "daily-reminder-content".
Definition THEME_KEY : string := "daily-reminder-theme".

(** ** The platform calls *)

Definition lookup (key : string) (l : list (string * Text)) : option Text :=
  match find (fun kv => String.eqb (fst kv) key) l with
  | Some kv => Some (snd kv)
  | None => None
  end.

Fixpoint store (key : string) (v : Text) (l : list (string * Text))
  : list (string * Text) :=
  match l with
  | [] => [(key, v)]
  | kv :: l' =>
      if String.eqb (fst kv) key then (key, v) :: l'
      else kv :: store key v l'
  end.

(** [textarea.setSelectionRange(s, e)]. *)
Definition setSelectionRange (s e : nat) (p : Page) : Page :=
  let s' := Nat.min s (List.length (value p)) in
  let e' := Nat.min e (List.length (value p)) in
  if Nat.leb e' s' then set_selectionStart e' (set_selectionEnd e' p)
  else set_selectionStart s' (set_selectionEnd e' p).

(** [textarea.value = v]: the line breaks are normalised, and a value
    that differs from the old one moves the caret to its end. *)
Definition assign_value (v : Text) (p : Page) : Page :=
  let v' := normalize_newlines v in
  if text_eqb v' (value p) then p
  else set_selectionStart (List.length v')
         (set_selectionEnd (List.length v') (set_value v' p)).

Definition log (msg : string) (st : Session) : Session :=
  set_console (console st ++ [msg])%list st.

Definition on_page (f : Page -> Page) (st : Session) : Session :=
  set_page (f (page st)) st.

(** [clearTimeout(id)]. *)
Definition clearTimeout (id : positive) (st : Session) : Session :=
  set_timers (filter (fun t => negb (Pos.eqb (fst t) id)) (timers st)) st.

(** [setTimeout(callback, delay)]: a fresh handle. *)
Definition setTimeout (cb : Callback) (st : Session) : positive * Session :=
  (next_timer st,
   set_next_timer (Pos.succ (next_timer st))
     (set_timers (timers st ++ [(next_timer st, cb)])%list st)).

Section Methods.

Variable host : Host.

(** [localStorage.getItem(key)]; the outer [None] is an exception. *)
Definition getItem (key : string) (st : Session) : option (option Text) :=
  if getItem_throws host then None
  else Some (lookup key (localStorage st)).

(** [localStorage.setItem(key, v)]; [None] is an exception. *)
Definition setItem (key : string) (v : Text) (st : Session) : option Session :=
  if setItem_throws host key v then None
  else Some (set_localStorage (store key v (localStorage st)) st).

(** ** DailyReminderApp *)

Definition setSaveStatus (status : string) (st : Session) : Session :=
  on_page
    (fun p =>
       set_status_text
         (if String.eqb status "saving" then "Saving..."
          else if String.eqb status "saved" then "Saved"
          else if String.eqb status "error" then "Error saving"
          else "Ready")
         (set_status_class ("save-status " ++ status)%string p)) st.

Definition plural (n : nat) : Text :=
  if Nat.eqb n 1 then [] else text "s".

Definition updateCharCount (st : Session) : Session :=
  let count := List.length (value (page st)) in
  let characters :=
    (toLocaleString host count ++ text " character" ++ plural count)%list in
  let words := count_words (value (page st)) in
  on_page
    (set_count_text
       (if Nat.ltb 0 count
        then (characters ++ text " " ++ [8226%N] ++ text " "
              ++ toLocaleString host words ++ text " word"
              ++ plural words)%list
        else characters)) st.

Definition updatePlaceholderVisibility (st : Session) : Session :=
  match placeholder (page st) with
  | Some _ =>
      if blank (value (page st)) then
        on_page
          (fun p =>
             set_has_content false
               (set_placeholder
                  (Some {| opacity := "0.6"; pointerEvents := "none" |}) p))
          st
      else
        on_page
          (fun p =>
             set_has_content true
               (set_placeholder
                  (Some {| opacity := "0"; pointerEvents := "none" |}) p))
          st
  | None => st
  end.

Definition loadContent (st : Session) : Session :=
  match getItem STORAGE_KEY st with
  | Some (Some savedContent) =>
      setSaveStatus "saved"
        (updatePlaceholderVisibility
           (updateCharCount (on_page (assign_value savedContent) st)))
  | Some None => st
  | None =>
      setSaveStatus "error"
        (log "Failed to load content from localStorage:" st)
  end.

Definition saveContent (st : Session) : Session :=
  match setItem STORAGE_KEY (value (page st)) st with
  | Some st' => setSaveStatus "saved" st'
  | None =>
      setSaveStatus "error"
        (log "Failed to save content to localStorage:" st)
  end.

Definition isContentSaved (st : Session) : bool :=
  match getItem STORAGE_KEY st with
  | Some (Some savedContent) => text_eqb (value (page st)) savedContent
  | Some None => text_eqb (value (page st)) []
  | None => false
  end.

Definition showClearConfirmation (st : Session) : Session :=
  if blank (value (page st)) then st
  else on_page (fun p => set_focus OnConfirmClear (set_modal_hidden false p))
         st.

Definition hideClearConfirmation (st : Session) : Session :=
  on_page (fun p => set_focus OnTextarea (set_modal_hidden true p)) st.

Definition clearContent (st : Session) : Session :=
  on_page (set_focus OnTextarea)
    (hideClearConfirmation
       (updatePlaceholderVisibility
          (updateCharCount
             (saveContent (on_page (assign_value []) st))))).

Definition handleInput (st : Session) : Session :=
  let st1 :=
    setSaveStatus "saving" (updatePlaceholderVisibility (updateCharCount st))
  in
  let st2 :=
    match saveTimeout st1 with
    | Some id => clearTimeout id st1
    | None => st1
    end in
  let (id, st3) := setTimeout SaveLater st2 in
  set_saveTimeout (Some id) st3.

(** The keydown listener of the textarea; the flag is
    [e.preventDefault()]. *)
Definition handleKeydown (key : string) (st : Session) : Session * bool :=
  if String.eqb key "Tab" then
    let start := selectionStart (page st) in
    let end_ := selectionEnd (page st) in
    let v := value (page st) in
    let st1 :=
      on_page
        (fun p =>
           setSelectionRange (start + 4) (start + 4)
             (assign_value
                (substring v 0 start ++ text "    " ++ substring_from v end_)
                p)) st in
    (handleInput st1, true)
  else (st, false).

Definition applyTheme (theme : Text) (st : Session) : Session :=
  let dark := text_eqb theme (text "dark") in
  on_page
    (fun p =>
       (match meta_theme_color p with
        | Some _ =>
            set_meta_theme_color
              (Some (if dark then "#1a1a1a" else "#ffffff"))
        | None => fun p' => p'
        end)
         (set_toggle_title
            ("Switch to " ++ (if dark then "light" else "dark")
             ++ " theme")%string
            (set_toggle_text
               (if dark then [9728; 65039]%N else [55356; 57113]%N)
               (set_data_theme (Some theme) p)))) st.

Definition toggleTheme (st : Session) : Session :=
  let newTheme :=
    match data_theme (page st) with
    | Some currentTheme =>
        if text_eqb currentTheme (text "dark") then text "light"
        else text "dark"
    | None => text "dark"
    end in
  let st1 := applyTheme newTheme st in
  match setItem THEME_KEY newTheme st1 with
  | Some st2 => st2
  | None => log "Failed to save theme preference:" st1
  end.

Definition system_theme (dark : bool) : Text :=
  if dark then text "dark" else text "light".

Definition loadTheme (st : Session) : Session :=
  match getItem THEME_KEY st with
  | Some savedTheme =>
      let theme :=
        match savedTheme with
        | Some (c :: t) => c :: t
        | _ => system_theme (prefers_dark host)
        end in
      set_theme_listener true (applyTheme theme st)
  | None => applyTheme (text "light") (log "Failed to load theme:" st)
  end.

(** The listener [loadTheme] registers for changes of the system colour
    scheme; an exception of [getItem] escapes it and nothing is done. *)
Definition on_scheme_change (dark : bool) (st : Session) : Session :=
  if theme_listener st then
    match getItem THEME_KEY st with
    | Some (Some (_ :: _)) => st
    | Some _ => applyTheme (system_theme dark) st
    | None => st
    end
  else st.

(** The keydown listener of the document; the flag is
    [e.preventDefault()]. *)
Definition handleGlobalKeydown (ctrlKey metaKey : bool) (key : string)
  (st : Session) : Session * bool :=
  let st1 :=
    if andb (orb ctrlKey metaKey) (String.eqb key "k")
    then showClearConfirmation st else st in
  let st2 :=
    if andb (orb ctrlKey metaKey) (String.eqb key "t")
    then toggleTheme st1 else st1 in
  let st3 :=
    if andb (String.eqb key "Escape") (negb (modal_hidden (page st2)))
    then hideClearConfirmation st2 else st2 in
  (st3,
   andb (orb ctrlKey metaKey)
     (orb (String.eqb key "k") (String.eqb key "t"))).

Definition handleModalClick (on_backdrop : bool) (st : Session) : Session :=
  if on_backdrop then hideClearConfirmation st else st.

Definition handleWindowFocus (st : Session) : Session := loadContent st.

Definition handleBeforeUnload (st : Session) : Session :=
  match saveTimeout st with
  | Some id => saveContent (clearTimeout id st)
  | None => st
  end.

(** The second beforeunload listener: whether leaving is held back. *)
Definition unload_warning (st : Session) : bool :=
  andb (negb (blank (value (page st)))) (negb (isContentSaved st)).

Definition registerServiceWorker (st : Session) : Session :=
  match sw_registration host with
  | Some true => log "Service Worker registered successfully:" st
  | Some false => log "Service Worker registration failed:" st
  | None => st
  end.

(** [init()], the timer of its last step included. *)
Definition init_app (st : Session) : Session :=
  snd (setTimeout FocusLater
         (registerServiceWorker
            (updatePlaceholderVisibility
               (updateCharCount (loadTheme (loadContent st)))))).

(** [new DailyReminderApp()] over the page and the storage found. *)
Definition start (p : Page) (storage : list (string * Text)) : Session :=
  init_app {| page := p; localStorage := storage; saveTimeout := None;
          timers := []; next_timer := 1; theme_listener := false;
          console := [] |}.

(** A timer runs out. *)
Definition fire (id : positive) (st : Session) : Session :=
  match find (fun t => Pos.eqb (fst t) id) (timers st) with
  | Some (_, SaveLater) => saveContent (clearTimeout id st)
  | Some (_, FocusLater) =>
      on_page
        (fun p =>
           setSelectionRange (List.length (value p)) (List.length (value p))
             (set_focus OnTextarea p))
        (clearTimeout id st)
  | None => st
  end.

Record Stats := mkStats {
  lines : nat;
  words : nat;
  characters : nat;
  charactersNoSpaces : nat
}.

Definition getStats (st : Session) : Stats :=
  let content := value (page st) in
  {| lines := List.length (split_lines content);
     words := count_words content;
     characters := List.length content;
     charactersNoSpaces :=
       List.length (filter (fun c => negb (is_space c)) content) |}.

(** ** What happens to the page *)

Inductive PageEvent :=
| UserInput (v : Text) (s e : nat)    (* the user edits the text *)
| Keydown (in_textarea ctrlKey metaKey : bool) (key : string)
| TimerFires (id : positive)
| WindowFocus
| BeforeUnload
| ClickClear
| ClickConfirm
| ClickCancel
| ClickModal (on_backdrop : bool)
| ClickThemeToggle
| SchemeChange (dark : bool).

(** One event, through the listeners [bindEvents] registered.  A key
    pressed in the textarea reaches its listener first and the
    document's next. *)
Definition step (st : Session) (ev : PageEvent) : Session :=
  match ev with
  | UserInput v s e =>
      handleInput
        (on_page
           (fun p => setSelectionRange s e (set_value (normalize_newlines v) p))
           st)
  | Keydown in_textarea ctrlKey metaKey key =>
      let st1 := if in_textarea then fst (handleKeydown key st) else st in
      fst (handleGlobalKeydown ctrlKey metaKey key st1)
  | TimerFires id => fire id st
  | WindowFocus => handleWindowFocus st
  | BeforeUnload => handleBeforeUnload st
  | ClickClear => showClearConfirmation st
  | ClickConfirm => clearContent st
  | ClickCancel => hideClearConfirmation st
  | ClickModal on_backdrop => handleModalClick on_backdrop st
  | ClickThemeToggle => toggleTheme st
  | SchemeChange dark => on_scheme_change dark st
  end.

Definition run (st : Session) (evs : list PageEvent) : Session :=
  fold_left step evs st.

End Methods.

(** A host whose storage never throws. *)
Definition reliable (host : Host) : Prop :=
  getItem_throws host = false
  /\ forall key v, setItem_throws host key v = false.

(** A text without carriage returns, as a textarea reports its value. *)
Definition no_cr (s : Text) : Prop := ~ In 13%N s.

(** Two states with the same timers and the same handle in
    [saveTimeout]. *)
Definition same_timers (st st' : Session) : Prop :=
  timers st' = timers st
  /\ next_timer st' = next_timer st
  /\ saveTimeout st' = saveTimeout st.

(** The save timers that have not run. *)
Definition pending_saves (st : Session) : list positive :=
  map fst (filter (fun t => match snd t with
                            | SaveLater => true
                            | FocusLater => false
                            end) (timers st)).

(** Debouncing: at most one save is pending, and it is the one whose
    handle [saveTimeout] keeps; handles are never reused. *)
Definition timers_ok (st : Session) : Prop :=
  (forall t, In t (timers st) -> (fst t < next_timer st)%positive)
  /\ (pending_saves st = []
      \/ exists id, pending_saves st = [id] /\ saveTimeout st = Some id).

(** The content the storage holds. *)
Definition stored_content (st : Session) : option Text :=
  lookup STORAGE_KEY (localStorage st).

(** Two states with the same text and the same stored content. *)
Definition same_content (st st' : Session) : Prop :=
  value (page st') = value (page st)
  /\ stored_content st' = stored_content st.

(** What holds of every state the page can reach when the storage
    works: debouncing is in order, neither the textarea nor the stored
    content has a carriage return, and a text that is neither blank nor
    stored has had its save scheduled. *)
Definition tidy (st : Session) : Prop :=
  timers_ok st
  /\ no_cr (value (page st))
  /\ (forall s, stored_content st = Some s -> no_cr s)
  /\ (saveTimeout st <> None
      \/ blank (value (page st)) = true
      \/ stored_content st = Some (value (page st))).

(** The words of a text, counted where they begin: at a code unit that
    is not white space and has none before it or white space. *)
Fixpoint word_starts (after_space : bool) (s : Text) : nat :=
  match s with
  | [] => 0
  | c :: s' =>
      if is_space c then word_starts true s'
      else if after_space then S (word_starts false s')
           else word_starts false s'
  end.

(** Scenarios: decimal digits without grouping as the number format. *)
Fixpoint digits (d : Decimal.uint) : Text :=
  match d with
  | Decimal.Nil => []
  | Decimal.D0 d' => 48%N :: digits d'
  | Decimal.D1 d' => 49%N :: digits d'
  | Decimal.D2 d' => 50%N :: digits d'
  | Decimal.D3 d' => 51%N :: digits d'
  | Decimal.D4 d' => 52%N :: digits d'
  | Decimal.D5 d' => 53%N :: digits d'
  | Decimal.D6 d' => 54%N :: digits d'
  | Decimal.D7 d' => 55%N :: digits d'
  | Decimal.D8 d' => 56%N :: digits d'
  | Decimal.D9 d' => 57%N :: digits d'
  end.

Definition english : Host :=
  {| getItem_throws := false; setItem_throws := fun _ _ => false;
     prefers_dark := false;
     toLocaleString := fun n => digits (Nat.to_uint n);
     sw_registration := Some true |}.

Definition storage_blocked : Host :=
  {| getItem_throws := true; setItem_throws := fun _ _ => true;
     prefers_dark := true;
     toLocaleString := fun n => digits (Nat.to_uint n);
     sw_registration := None |}.

Definition empty_page : Page :=
  {| value := []; selectionStart := 0; selectionEnd := 0;
     has_content := false;
     placeholder := Some {| opacity := ""; pointerEvents := "" |};
     status_class := "save-status"; status_text := "Ready";
     count_text := text "0 characters";
     modal_hidden := true; focus := NoFocus;
     data_theme := None; toggle_text := []; toggle_title := "";
     meta_theme_color := Some "#ffffff" |}.

(** The storage takes no write. *)
Definition quota_full : Host :=
  {| getItem_throws := false; setItem_throws := fun _ _ => true;
     prefers_dark := false;
     toLocaleString := fun n => digits (Nat.to_uint n);
     sw_registration := Some true |}.

(** A first session with "note" typed and "ot" selected. *)
Definition draft : Session :=
  set_page (setSelectionRange 1 3 (set_value (text "note") empty_page))
    (start english empty_page []).

(** A session that found "old" stored. *)
Definition returning : Session :=
  start english empty_page [(STORAGE_KEY, text "old")].

(** A session whose first edit could not be saved. *)
Definition unsaved : Session :=
  step quota_full (start quota_full empty_page [])
    (UserInput (text "hi") 2 2).

End App.

(** * Properties *)

(** ** Substrings *)

Lemma prefix_true_iff (t s : string) :
  String.prefix t s = true <-> exists b, s = t ++ b.
Proof.
  revert s. induction t as [|c t IH]; intros s; simpl.
  - split; [intros _; exists s; reflexivity | destruct s; reflexivity].
  - destruct s as [|d s]; simpl.
    + split; [discriminate | intros [b Hb]; discriminate].
    + destruct (ascii_dec c d) as [->|Hcd].
      * rewrite IH. split; intros [b Hb]; exists b.
        -- now rewrite Hb.
        -- now inversion Hb.
      * split; [discriminate | intros [b Hb]; inversion Hb; congruence].
Qed.

(** [includes] is the substring relation. *)
Lemma includes_true_iff (s t : string) :
  includes s t = true <-> exists a b, s = a ++ t ++ b.
Proof.
  induction s as [|c s IH]; cbn [includes].
  - destruct (String.prefix t "") eqn:Hp.
    + apply prefix_true_iff in Hp. destruct Hp as [b Hb].
      split; [intros _; exists "", b; exact Hb | reflexivity].
    + split; [discriminate|]. intros (a & b & Hab).
      destruct a; simpl in Hab.
      * assert (String.prefix t "" = true) by (apply prefix_true_iff; eauto).
        congruence.
      * discriminate.
  - destruct (String.prefix t (String c s)) eqn:Hp.
    + apply prefix_true_iff in Hp. destruct Hp as [b Hb].
      split; [intros _; exists "", b; exact Hb | reflexivity].
    + rewrite IH. split.
      * intros (a & b & Hab). exists (String c a), b. simpl. now rewrite Hab.
      * intros (a & b & Hab). destruct a as [|d a]; simpl in Hab.
        -- assert (String.prefix t (String c s) = true)
             by (apply prefix_true_iff; eauto).
           congruence.
        -- inversion Hab. eauto.
Qed.

Lemma includes_false_iff (s t : string) :
  includes s t = false <-> ~ exists a b, s = a ++ t ++ b.
Proof.
  rewrite <- includes_true_iff. destruct (includes s t); split; intros H;
    try discriminate; try reflexivity; try (exfalso; now apply H).
Qed.

(** ** The synthesized responses *)

Lemma OFFLINE_RESPONSE_renderable :
  status OFFLINE_RESPONSE = 200
  /\ ok OFFLINE_RESPONSE = true
  /\ headers_get (headers OFFLINE_RESPONSE) "Content-Type" = Some "text/html"
  /\ body OFFLINE_RESPONSE <> ""
  /\ includes (body OFFLINE_RESPONSE) "You're Offline" = true
  /\ includes (body OFFLINE_RESPONSE) "http" = false.
Proof. repeat split; try (vm_compute; reflexivity). discriminate. Qed.

Lemma CSS_FALLBACK_typed :
  status CSS_FALLBACK = 200
  /\ ok CSS_FALLBACK = true
  /\ headers_get (headers CSS_FALLBACK) "Content-Type" = Some "text/css"
  /\ body CSS_FALLBACK = "/* Offline fallback styles */".
Proof. repeat split. Qed.

Lemma JS_FALLBACK_typed :
  status JS_FALLBACK = 200
  /\ ok JS_FALLBACK = true
  /\ headers_get (headers JS_FALLBACK) "Content-Type"
     = Some "application/javascript"
  /\ includes (body JS_FALLBACK) "console.log(" = true.
Proof. repeat split. Qed.

Lemma NOT_AVAILABLE_typed :
  status NOT_AVAILABLE = 404
  /\ ok NOT_AVAILABLE = false
  /\ statusText NOT_AVAILABLE = "Not Found"
  /\ body NOT_AVAILABLE = "Asset not available offline".
Proof. repeat split. Qed.

(** ** The Cache Storage operations *)

Lemma cache_lookup_store (c : Cache) (r r' : Request) (resp : Response) :
  cache_lookup (cache_store c r resp) r'
  = if String.eqb (url r) (url r') then Some resp else cache_lookup c r'.
Proof.
  unfold cache_lookup.
  induction c as [|e c IH]; simpl.
  - destruct (String.eqb (url r) (url r')); reflexivity.
  - destruct (String.eqb (url (fst e)) (url r)) eqn:He; simpl.
    + apply String.eqb_eq in He. rewrite He.
      destruct (String.eqb (url r) (url r')); reflexivity.
    + destruct (String.eqb (url (fst e)) (url r')) eqn:He'; [|exact IH].
      destruct (String.eqb (url r) (url r')) eqn:Hr; [|reflexivity].
      apply String.eqb_eq in Hr. rewrite <- Hr in He'. congruence.
Qed.

Lemma storage_has_get (cs : CacheStorage) (name : string) :
  storage_has cs name = true <-> exists c, storage_get cs name = Some c.
Proof.
  unfold storage_has, storage_get.
  induction cs as [|nc cs IH]; simpl.
  - split; [discriminate | intros [c Hc]; discriminate].
  - destruct (String.eqb (fst nc) name); simpl; [|exact IH].
    split; eauto.
Qed.

Lemma storage_has_open (cs : CacheStorage) (name : string) :
  storage_has (storage_open cs name) name = true.
Proof.
  unfold storage_open. destruct (storage_has cs name) eqn:H; [exact H|].
  unfold storage_has. rewrite existsb_app. simpl.
  rewrite String.eqb_refl. now rewrite orb_true_r.
Qed.

Lemma storage_get_put (cs : CacheStorage) (name : string)
  (r : Request) (resp : Response) :
  storage_get (storage_put cs name r resp) name
  = match storage_get cs name with
    | Some c => Some (cache_store c r resp)
    | None => None
    end.
Proof.
  unfold storage_get, storage_put.
  induction cs as [|nc cs IH]; simpl; [reflexivity|].
  destruct (String.eqb (fst nc) name) eqn:H; simpl; rewrite H; simpl;
    [reflexivity | exact IH].
Qed.

Lemma storage_has_put (cs : CacheStorage) (name name' : string)
  (r : Request) (resp : Response) :
  storage_has (storage_put cs name' r resp) name = storage_has cs name.
Proof.
  unfold storage_has, storage_put.
  induction cs as [|nc cs IH]; simpl; [reflexivity|].
  rewrite IH. destruct (String.eqb (fst nc) name'); reflexivity.
Qed.

Lemma namespace_match_put (cs : CacheStorage) (name : string)
  (r r' : Request) (resp : Response) :
  storage_has cs name = true ->
  namespace_match (storage_put cs name r resp) name r'
  = if String.eqb (url r) (url r') then Some resp
    else namespace_match cs name r'.
Proof.
  intros H. apply storage_has_get in H. destruct H as [c Hc].
  unfold namespace_match. rewrite storage_get_put, Hc.
  apply cache_lookup_store.
Qed.

(** A hit in the current namespace is a hit of [caches.match], which
    may however answer from an older namespace. *)
Lemma namespace_hit_storage_hit (cs : CacheStorage) (name : string)
  (r : Request) (resp : Response) :
  namespace_match cs name r = Some resp ->
  exists resp', storage_match cs r = Some resp'.
Proof.
  unfold namespace_match, storage_get.
  induction cs as [|[n c] cs IH]; simpl; [discriminate|].
  destruct (cache_lookup c r) eqn:Hc; [eauto|].
  destruct (String.eqb n name); simpl; [congruence | exact IH].
Qed.

(** Namespace names stay distinct: the storage is a map from names to
    namespaces. *)
Lemma storage_keys_put (cs : CacheStorage) (name : string) (r : Request)
  (resp : Response) :
  storage_keys (storage_put cs name r resp) = storage_keys cs.
Proof.
  unfold storage_keys, storage_put. rewrite map_map. apply map_ext.
  intros nc. destruct (String.eqb (fst nc) name); reflexivity.
Qed.

Lemma storage_has_in (cs : CacheStorage) (name : string) :
  storage_has cs name = true <-> In name (storage_keys cs).
Proof.
  unfold storage_has, storage_keys. rewrite existsb_exists, in_map_iff.
  split; intros (nc & H1 & H2).
  - apply String.eqb_eq in H2. eauto.
  - exists nc. split; [exact H2|]. now apply String.eqb_eq.
Qed.

Lemma NoDup_keys_open (cs : CacheStorage) (name : string) :
  NoDup (storage_keys cs) -> NoDup (storage_keys (storage_open cs name)).
Proof.
  intros H. unfold storage_open.
  destruct (storage_has cs name) eqn:Hhas; [exact H|].
  unfold storage_keys. rewrite map_app. simpl.
  apply NoDup_app; [exact H | repeat constructor; intros [] |].
  intros x Hx [<-|[]].
  apply storage_has_in in Hx. congruence.
Qed.

Lemma NoDup_keys_delete (cs : CacheStorage) (name : string) :
  NoDup (storage_keys cs) -> NoDup (storage_keys (storage_delete cs name)).
Proof.
  unfold storage_keys, storage_delete.
  induction cs as [|nc cs IH]; simpl; [auto|].
  intros H. inversion H as [|? ? Hnotin Hnd]; subst.
  destruct (negb (String.eqb (fst nc) name)); simpl; auto.
  constructor; auto.
  intros Hin. apply Hnotin. apply in_map_iff in Hin.
  destruct Hin as (x & Hx & Hf). apply filter_In in Hf.
  apply in_map_iff. exists x. tauto.
Qed.

(** ** The resolution policies *)

Ltac run_policy :=
  unfold handleDocumentRequest, handleAssetRequest, try_catch, bind, detach,
    caches_match, fetch, caches_open, cache_put, console_log, console_error,
    ret, init;
  cbn [fst snd caches trace emit set_caches app].

Lemma in_policies (P : (Env -> Request -> Promise Response) -> Prop) :
  P handleDocumentRequest -> P handleAssetRequest ->
  forall policy, In policy policies -> P policy.
Proof.
  intros Hd Ha policy [<-|[<-|[]]]; assumption.
Qed.

(** C7. A request [caches.match] finds is answered with the cached
    response by both policies: the only calls made are the lookup and a
    console message, the storage is left as it was, and resolving the
    same request a second time gives the same response, again without
    any network fetch. *)
Theorem cached_request_served_from_cache :
  forall env policy cs request cached,
    In policy policies ->
    match_fails env request = false ->
    storage_match cs request = Some cached ->
    exists msg,
      let once := [CachesMatch request; Log [msg]] in
      policy env request (init cs)
      = (Fulfilled cached, {| caches := cs; trace := once |})
      /\ policy env request {| caches := cs; trace := once |}
         = (Fulfilled cached, {| caches := cs; trace := once ++ once |})
      /\ fetch_count (once ++ once) = 0%nat.
Proof.
  intros env policy cs request cached Hin Hok Hhit. revert policy Hin.
  apply in_policies; eexists; run_policy; rewrite Hok; cbn [caches];
    rewrite Hhit; cbn; repeat split.
Qed.

Lemma cached_request_served_from_cache_witness :
  exists msg,
    let once := [CachesMatch document_request; Log [msg]] in
    handleDocumentRequest offline document_request (init two_versions)
    = (Fulfilled PAGE, {| caches := two_versions; trace := once |})
    /\ handleDocumentRequest offline document_request
         {| caches := two_versions; trace := once |}
       = (Fulfilled PAGE, {| caches := two_versions; trace := once ++ once |})
    /\ fetch_count (once ++ once) = 0%nat.
Proof.
  apply (cached_request_served_from_cache offline handleDocumentRequest
           two_versions document_request PAGE);
    [simpl; auto | reflexivity | reflexivity].
Defined.

Ltac step := cbn [fst snd caches trace emit set_caches app].

(** C5, as stated, fails: a 404 answer of the network is written into
    the current namespace and returned, by the document policy and by
    the asset policy alike. *)
Lemma not_ok_response_is_cached :
  handleDocumentRequest online_404 document_request (init [])
  = (Fulfilled NOT_FOUND,
     {| caches := [(CACHE_NAME, [(document_request, NOT_FOUND)])];
        trace :=
          [ CachesMatch document_request;
            NetFetch document_request;
            CachesOpen CACHE_NAME;
            CachePut CACHE_NAME document_request NOT_FOUND;
            Log ["Service Worker: Serving document from network and caching"]
          ] |})
  /\ handleAssetRequest online_404 image_request (init [])
     = (Fulfilled NOT_FOUND,
        {| caches := [(CACHE_NAME, [(image_request, NOT_FOUND)])];
           trace :=
             [ CachesMatch image_request;
               NetFetch image_request;
               CachesOpen CACHE_NAME;
               CachePut CACHE_NAME image_request NOT_FOUND;
               Log ["Service Worker: Serving asset from network and caching"]
             ] |})
  /\ ok NOT_FOUND = false.
Proof. repeat split. Qed.

(** C5, amended. After a cache miss, a response the network resolves
    with, of any status, is handed to [cache.put] on the current
    namespace and returned whenever [caches.open] of that namespace
    succeeds; it is stored unless the write itself rejects, and nothing
    is logged as an error.  The failure path, the [catch] block, is
    taken exactly when the fetch rejects or [caches.open] rejects: a
    response the network did resolve with is then dropped, nothing is
    put and the storage is left as it was. *)
Theorem network_response_written_through :
  forall env policy cs request,
    In policy policies ->
    match_fails env request = false ->
    storage_match cs request = None ->
    let out := policy env request (init cs) in
    let failure_path :=
      existsb is_error_log (trace (snd out)) = true
      /\ (forall name r resp, ~ In (CachePut name r resp) (trace (snd out)))
      /\ caches (snd out) = cs in
    match net env request with
    | Some resp =>
        if open_fails env CACHE_NAME
        then failure_path
        else
          fst out = Fulfilled resp
          /\ In (CachePut CACHE_NAME request resp) (trace (snd out))
          /\ existsb is_error_log (trace (snd out)) = false
          /\ caches (snd out)
             = (if put_fails env CACHE_NAME request resp
                then storage_open cs CACHE_NAME
                else storage_put (storage_open cs CACHE_NAME)
                       CACHE_NAME request resp)
          /\ (put_fails env CACHE_NAME request resp = false ->
              namespace_match (caches (snd out)) CACHE_NAME request
              = Some resp)
    | None => failure_path
    end.
Proof.
  intros env policy cs request Hin Hm Hmiss. revert policy Hin.
  apply in_policies; cbv zeta; run_policy; rewrite Hm; step; rewrite Hmiss;
    destruct (net env request) as [resp|]; step;
    try (destruct (open_fails env CACHE_NAME); step).
  all: repeat match goal with
    | |- context [match_fails ?e (Request_of ?u)] =>
        destruct (match_fails e (Request_of u)); step
    | |- context [storage_match ?c (Request_of ?u)] =>
        destruct (storage_match c (Request_of u)); step
    | |- context [includes (url ?r) ?x] =>
        destruct (includes (url r) x); step
    | |- context [put_fails ?e ?n ?r ?p] =>
        destruct (put_fails e n r p); step
    end.
  all: try (split; [reflexivity|]; split; [|reflexivity];
            intros ? ? ? H; simpl in H;
            repeat (destruct H as [H|H]; [discriminate H|]); exact H).
  all: (split; [reflexivity|]); (split; [simpl; tauto|]);
    (split; [reflexivity|]); (split; [reflexivity|]); intros Hp;
    try discriminate;
    rewrite namespace_match_put by apply storage_has_open;
    now rewrite String.eqb_refl.
Qed.

Lemma network_response_written_through_witness :
  let out := handleAssetRequest online_404 image_request (init []) in
  fst out = Fulfilled NOT_FOUND
  /\ In (CachePut CACHE_NAME image_request NOT_FOUND) (trace (snd out))
  /\ existsb is_error_log (trace (snd out)) = false
  /\ caches (snd out)
     = (if put_fails online_404 CACHE_NAME image_request NOT_FOUND
        then storage_open [] CACHE_NAME
        else storage_put (storage_open [] CACHE_NAME)
               CACHE_NAME image_request NOT_FOUND)
  /\ (put_fails online_404 CACHE_NAME image_request NOT_FOUND = false ->
      namespace_match (caches (snd out)) CACHE_NAME image_request
      = Some NOT_FOUND).
Proof.
  apply (network_response_written_through online_404 handleAssetRequest
           [] image_request); [simpl; auto | reflexivity ..].
Defined.

(** What the [catch] block of the asset policy answers, and that it is
    reached on total failure. *)
Lemma handleAssetRequest_total_failure :
  forall env cs request,
    total_failure env cs request = true ->
    exists st',
      handleAssetRequest env request (init cs)
      = (Fulfilled (if includes (url request) ".css" then CSS_FALLBACK
                    else if includes (url request) ".js" then JS_FALLBACK
                    else NOT_AVAILABLE), st')
      /\ caches st' = cs.
Proof.
  intros env cs request H. unfold total_failure in H.
  run_policy. destruct (match_fails env request); step.
  - destruct (includes (url request) ".css");
      [eexists; split; reflexivity|].
    destruct (includes (url request) ".js"); eexists; split; reflexivity.
  - destruct (storage_match cs request); [discriminate|].
    destruct (net env request); [discriminate|]. step.
    destruct (includes (url request) ".css");
      [eexists; split; reflexivity|].
    destruct (includes (url request) ".js"); eexists; split; reflexivity.
Qed.




(** The two total-failure scenarios of the asset route. *)
Example missing_stylesheet :
  fst (fetch_event offline stylesheet_request (init []))
  = Some (Fulfilled CSS_FALLBACK).
Proof. reflexivity. Qed.

Example missing_image :
  fst (fetch_event offline image_request (init []))
  = Some (Fulfilled NOT_AVAILABLE).
Proof. reflexivity. Qed.

(** ** The router *)

Lemma fetch_event_asset (env : Env) (request : Request) (st : State) :
  method request = "GET" ->
  destination request <> "document" ->
  fetch_event env request st
  = (Some (fst (handleAssetRequest env request st)),
     snd (handleAssetRequest env request st)).
Proof.
  intros Hm Hd. unfold fetch_event, on_fetch. rewrite Hm. simpl.
  apply String.eqb_neq in Hd. rewrite Hd.
  destruct (handleAssetRequest env request st); reflexivity.
Qed.

Lemma fetch_event_document (env : Env) (request : Request) (st : State) :
  method request = "GET" ->
  destination request = "document" ->
  fetch_event env request st
  = (Some (fst (handleDocumentRequest env request st)),
     snd (handleDocumentRequest env request st)).
Proof.
  intros Hm Hd. unfold fetch_event, on_fetch. rewrite Hm, Hd. simpl.
  destruct (handleDocumentRequest env request st); reflexivity.
Qed.

(** C10. For a GET request routed to the asset policy that fails
    totally, the fallback is chosen by substring tests on the whole URL,
    the style sheet test first: a URL with ".css" anywhere in it gets
    the text/css fallback, and the script fallback is the answer exactly
    when the URL has ".js" somewhere and ".css" nowhere. *)
Theorem fallback_classification_is_substring_based :
  forall env cs request,
    method request = "GET" ->
    destination request <> "document" ->
    total_failure env cs request = true ->
    ((exists a b, url request = a ++ ".css" ++ b) ->
     fst (fetch_event env request (init cs)) = Some (Fulfilled CSS_FALLBACK)
     /\ headers_get (headers CSS_FALLBACK) "Content-Type" = Some "text/css")
    /\ (fst (fetch_event env request (init cs)) = Some (Fulfilled JS_FALLBACK)
        <-> (exists a b, url request = a ++ ".js" ++ b)
            /\ ~ (exists a b, url request = a ++ ".css" ++ b)).
Proof.
  intros env cs request Hm Hd Hfail.
  rewrite (fetch_event_asset env request (init cs) Hm Hd).
  destruct (handleAssetRequest_total_failure env cs request Hfail)
    as (st' & Hrun & _).
  rewrite Hrun. cbn [fst].
  rewrite <- !includes_true_iff.
  destruct (includes (url request) ".css");
    destruct (includes (url request) ".js");
    repeat split; intros; try discriminate; try reflexivity;
    try tauto; try (destruct H; discriminate).
Qed.

Lemma fallback_classification_is_substring_based_witness :
  ((exists a b, "./logo.css.png" = a ++ ".css" ++ b) ->
   fst (fetch_event offline
          {| method := "GET"; url := "./logo.css.png";
             destination := "image" |} (init []))
   = Some (Fulfilled CSS_FALLBACK)
   /\ headers_get (headers CSS_FALLBACK) "Content-Type" = Some "text/css")
  /\ (fst (fetch_event offline
             {| method := "GET"; url := "./logo.css.png";
                destination := "image" |} (init []))
      = Some (Fulfilled JS_FALLBACK)
      <-> (exists a b, "./logo.css.png" = a ++ ".js" ++ b)
          /\ ~ (exists a b, "./logo.css.png" = a ++ ".css" ++ b)).
Proof.
  apply (fallback_classification_is_substring_based offline []
           {| method := "GET"; url := "./logo.css.png";
              destination := "image" |});
    [reflexivity | discriminate | reflexivity].
Defined.

(** A style sheet extension in the middle of the URL, and a URL with
    both extensions. *)
Example css_in_the_middle :
  fst (fetch_event offline
         {| method := "GET"; url := "./logo.css.png"; destination := "image" |}
         (init []))
  = Some (Fulfilled CSS_FALLBACK)
  /\ fst (fetch_event offline
            {| method := "GET"; url := "./theme.css.js";
               destination := "script" |} (init []))
     = Some (Fulfilled CSS_FALLBACK).
Proof. split; reflexivity. Qed.
(** ** Documents *)

(** On total failure the document policy answers with the cached root
    document or, without one, with the synthesized page, provided the
    lookup of the root document itself does not reject. *)
Lemma handleDocumentRequest_total_failure :
  forall env cs request,
    total_failure env cs request = true ->
    match_fails env (Request_of "./index.html") = false ->
    exists st',
      handleDocumentRequest env request (init cs)
      = (Fulfilled (match storage_match cs (Request_of "./index.html") with
                    | Some offline => offline
                    | None => OFFLINE_RESPONSE
                    end), st')
      /\ caches st' = cs.
Proof.
  intros env cs request H Hidx. unfold total_failure in H.
  run_policy. destruct (match_fails env request); step.
  - rewrite Hidx. step.
    destruct (storage_match cs (Request_of "./index.html"));
      eexists; split; reflexivity.
  - destruct (storage_match cs request); [discriminate|].
    destruct (net env request); [discriminate|]. step.
    rewrite Hidx. step.
    destruct (storage_match cs (Request_of "./index.html"));
      eexists; split; reflexivity.
Qed.

(** The lookup inside the [catch] block is not guarded: when it rejects,
    so does the policy. *)
Lemma handleDocumentRequest_propagates :
  forall env cs request,
    total_failure env cs request = true ->
    match_fails env (Request_of "./index.html") = true ->
    fst (handleDocumentRequest env request (init cs)) = Rejected StorageError.
Proof.
  intros env cs request H Hidx. unfold total_failure in H.
  run_policy. destruct (match_fails env request); step.
  - rewrite Hidx. reflexivity.
  - destruct (storage_match cs request); [discriminate|].
    destruct (net env request); [discriminate|]. step.
    rewrite Hidx. reflexivity.
Qed.

(** The asset policy, in contrast, settles with a response whatever the
    platform does. *)
Lemma handleAssetRequest_never_rejects :
  forall env request st,
    exists r, fst (handleAssetRequest env request st) = Fulfilled r.
Proof.
  intros env request st. run_policy.
  repeat match goal with
    | |- context [if ?b then _ else _] => destruct b; step
    | |- context [match ?o with Some _ => _ | None => _ end] =>
        destruct o; step
    end; eexists; reflexivity.
Qed.

(** C1. With the network unreachable and the Cache Storage rejecting
    its lookups, a document request is a total failure, and the promise
    handed to [respondWith] rejects: the storage error raised by the
    lookup of "./index.html" inside the [catch] block reaches the
    caller, and no page is returned. *)
Theorem document_request_rejects_when_storage_down :
  total_failure storage_down [] document_request = true
  /\ fetch_event storage_down document_request (init [])
     = (Some (Rejected StorageError),
        {| caches := [];
           trace :=
             [ CachesMatch document_request;
               LogError "Service Worker: Document request failed" StorageError;
               CachesMatch (Request_of "./index.html") ] |}).
Proof. split; reflexivity. Qed.

(** The total-failure scenario of the document route with a healthy
    storage. *)
Example offline_document :
  fst (fetch_event offline document_request (init []))
  = Some (Fulfilled OFFLINE_RESPONSE).
Proof. reflexivity. Qed.
(** ** Install *)

Lemma emit_fetches (urls : list string) (st : State) :
  fold_left (fun s u => emit (NetFetch (Request_of u)) s) urls st
  = {| caches := caches st;
       trace := trace st ++ map (fun u => NetFetch (Request_of u)) urls |}.
Proof.
  revert st. induction urls as [|u urls IH]; intros st; simpl.
  - rewrite app_nil_r. destruct st; reflexivity.
  - rewrite IH. simpl. rewrite <- app_assoc. reflexivity.
Qed.

(** The install listener in closed form: the promise it hands to
    [event.waitUntil] is fulfilled on every path. *)
Lemma install_run (env : Env) (st : State) :
  install env st
  = (Fulfilled tt,
     if open_fails env CACHE_NAME then
       {| caches := caches st;
          trace := trace st
                   ++ [ Log ["Service Worker: Installing..."];
                        CachesOpen CACHE_NAME;
                        LogError "Service Worker: Installation failed"
                          StorageError ] |}
     else
       match fetch_all env STATIC_CACHE_URLS with
       | Some l =>
           if existsb (fun e => put_fails env CACHE_NAME (fst e) (snd e)) l
           then {| caches := storage_open (caches st) CACHE_NAME;
                   trace := trace st ++ install_prefix
                            ++ [ LogError "Service Worker: Installation failed"
                                   StorageError ] |}
           else {| caches := put_all (storage_open (caches st) CACHE_NAME)
                               CACHE_NAME l;
                   trace := trace st ++ install_prefix
                            ++ [ Log ["Service Worker: Installation complete"];
                                 SkipWaiting ] |}
       | None =>
           {| caches := storage_open (caches st) CACHE_NAME;
              trace := trace st ++ install_prefix
                       ++ [ LogError "Service Worker: Installation failed"
                              TypeError ] |}
       end).
Proof.
  unfold install, try_catch, bind, console_log, console_error, caches_open,
    cache_addAll, skipWaiting, install_prefix.
  step.
  destruct (open_fails env CACHE_NAME); step.
  - unfold emit; step. rewrite <- !app_assoc. reflexivity.
  - rewrite emit_fetches. unfold emit, set_caches; step.
    destruct (fetch_all env STATIC_CACHE_URLS) as [l|]; step.
    + destruct (existsb _ l); step; rewrite <- !app_assoc; reflexivity.
    + rewrite <- !app_assoc; reflexivity.
Qed.

Lemma fetch_all_entries (env : Env) (urls : list string)
  (l : list (Request * Response)) :
  fetch_all env urls = Some l ->
  map fst l = map Request_of urls
  /\ Forall (fun e => net env (fst e) = Some (snd e) /\ ok (snd e) = true) l.
Proof.
  revert l. induction urls as [|u urls IH]; simpl; intros l H.
  - inversion H. split; constructor.
  - destruct (net env (Request_of u)) as [resp|] eqn:Hnet; [|discriminate].
    destruct (ok resp) eqn:Hok; simpl in H; [|discriminate].
    destruct (negb (status resp =? 206)); [|discriminate].
    destruct (fetch_all env urls) as [l'|]; [|discriminate].
    inversion H; subst. destruct (IH l' eq_refl) as [Hm Hall].
    split; simpl; [now rewrite Hm|]. constructor; auto.
Qed.

Lemma storage_has_put_all (cs : CacheStorage) (name : string)
  (l : list (Request * Response)) :
  storage_has (put_all cs name l) name = storage_has cs name.
Proof.
  unfold put_all. revert cs. induction l as [|e l IH]; intros cs; simpl;
    [reflexivity|].
  rewrite IH. apply storage_has_put.
Qed.

(** After a batch of writes a lookup gives the last response written
    under the URL, or what was there before. *)
Lemma namespace_match_put_all (cs : CacheStorage) (name : string)
  (l : list (Request * Response)) (r : Request) :
  storage_has cs name = true ->
  namespace_match (put_all cs name l) name r
  = fold_left (fun acc e => if String.eqb (url (fst e)) (url r)
                            then Some (snd e) else acc)
      l (namespace_match cs name r).
Proof.
  unfold put_all. revert cs. induction l as [|e l IH]; intros cs H; simpl;
    [reflexivity|].
  rewrite IH by now rewrite storage_has_put.
  now rewrite namespace_match_put.
Qed.

Lemma last_written (l : list (Request * Response)) (r : Request)
  (resp : Response) (acc : option Response) :
  Forall (fun e => url (fst e) = url r -> snd e = resp) l ->
  acc = Some resp \/ In (url r) (map (fun e => url (fst e)) l) ->
  fold_left (fun acc e => if String.eqb (url (fst e)) (url r)
                          then Some (snd e) else acc) l acc
  = Some resp.
Proof.
  revert acc. induction l as [|e l IH]; intros acc Hall Hin; simpl.
  - destruct Hin as [H|[]]. exact H.
  - inversion Hall as [|? ? He Hl]; subst. apply IH; [exact Hl|].
    destruct (String.eqb (url (fst e)) (url r)) eqn:Heq.
    + left. apply String.eqb_eq in Heq. now rewrite (He Heq).
    + destruct Hin as [H|[H|H]]; auto.
      apply String.eqb_neq in Heq. contradiction.
Qed.

Lemma put_all_populates (env : Env) (cs : CacheStorage) (name : string)
  (urls : list string) (l : list (Request * Response)) :
  storage_has cs name = true ->
  fetch_all env urls = Some l ->
  forall A, In A urls ->
    exists resp,
      namespace_match (put_all cs name l) name (Request_of A) = Some resp
      /\ net env (Request_of A) = Some resp
      /\ ok resp = true.
Proof.
  intros Hhas Hf A HA.
  destruct (fetch_all_entries env urls l Hf) as [Hm Hall].
  assert (Hin : In (Request_of A) (map fst l))
    by (rewrite Hm; now apply in_map).
  apply in_map_iff in Hin. destruct Hin as ([r resp] & Hr & Hin).
  simpl in Hr; subst r.
  rewrite Forall_forall in Hall.
  destruct (Hall _ Hin) as [Hnet Hok]. simpl in Hnet, Hok.
  exists resp. split; [|split; assumption].
  rewrite namespace_match_put_all by exact Hhas.
  apply last_written.
  - apply Forall_forall. intros [r' resp'] Hin' Hurl. simpl in *.
    assert (Hr' : In r' (map fst l)) by (apply in_map_iff; exists (r', resp'); auto).
    rewrite Hm in Hr'. apply in_map_iff in Hr'. destruct Hr' as (u & <- & _).
    simpl in Hurl. subst u.
    destruct (Hall _ Hin') as [Hnet' _]. simpl in Hnet'. congruence.
  - right. apply in_map_iff. exists (Request_of A, resp). auto.
Qed.

(** C3. When the install listener reaches its last step, every entry
    of the manifest has a stored response in the current namespace: the
    ok response the network gave for it. *)
Theorem install_populates_manifest :
  forall env cs,
    install_completed (trace (snd (install env (init cs)))) = true ->
    forall A, In A STATIC_CACHE_URLS ->
      exists resp,
        namespace_match (caches (snd (install env (init cs)))) CACHE_NAME
          (Request_of A) = Some resp
        /\ net env (Request_of A) = Some resp
        /\ ok resp = true.
Proof.
  intros env cs Hdone A HA. rewrite install_run in *. cbn [snd] in *.
  destruct (open_fails env CACHE_NAME); [discriminate|].
  destruct (fetch_all env STATIC_CACHE_URLS) as [l|] eqn:Hf; [|discriminate].
  destruct (existsb _ l); [discriminate|]. cbn [caches].
  eapply put_all_populates; eauto using storage_has_open.
Qed.

Lemma install_populates_manifest_witness :
  exists resp,
    namespace_match (caches (snd (install online (init two_versions))))
      CACHE_NAME (Request_of "./styles.css") = Some resp
    /\ net online (Request_of "./styles.css") = Some resp
    /\ ok resp = true.
Proof.
  apply (install_populates_manifest online two_versions);
    [reflexivity | simpl; auto].
Defined.

Lemma fetch_all_none (env : Env) (urls : list string) (A : string) :
  In A urls ->
  match net env (Request_of A) with
  | Some resp => ok resp = false
  | None => True
  end ->
  fetch_all env urls = None.
Proof.
  induction urls as [|u urls IH]; simpl; [intros []|].
  intros [->|Hin] HA.
  - destruct (net env (Request_of A)) as [resp|]; [|reflexivity].
    now rewrite HA.
  - rewrite (IH Hin HA).
    destruct (net env (Request_of u)) as [resp|]; [|reflexivity].
    destruct (andb _ _); reflexivity.
Qed.

(** A manifest entry that cannot be fetched, or whose response is not
    ok, makes the batch fail as a whole: nothing is stored and the skip
    of the waiting phase is not requested.  The listener catches the
    rejection, though, so the promise it handed to [event.waitUntil] is
    fulfilled and the platform moves the new instance to [Waiting]. *)
Lemma install_failure_is_swallowed :
  forall env cs A,
    In A STATIC_CACHE_URLS ->
    match net env (Request_of A) with
    | Some resp => ok resp = false
    | None => True
    end ->
    let outcome := fst (install env (init cs)) in
    let st' := snd (install env (init cs)) in
    skip_requested (trace st') = false
    /\ install_completed (trace st') = false
    /\ (exists e, In (LogError "Service Worker: Installation failed" e)
                    (trace st'))
    /\ (caches st' = cs \/ caches st' = storage_open cs CACHE_NAME)
    /\ outcome = Fulfilled tt
    /\ after_install outcome = Waiting.
Proof.
  intros env cs A HA Hnet. cbv zeta. rewrite install_run. cbn [fst snd].
  rewrite (fetch_all_none env _ A HA Hnet).
  destruct (open_fails env CACHE_NAME); cbn [caches trace init app].
  - repeat split; auto. exists StorageError. simpl. auto.
  - repeat split; auto. exists TypeError. simpl. auto 12.
Qed.

(** C4. With the style sheet unreachable the install listener still
    fulfils the promise it handed to [event.waitUntil]: the rejection of
    [addAll] is caught and logged as "Installation failed", nothing is
    stored and the skip of the waiting phase is not requested, but the
    platform sees a successful install and moves the new instance to
    [Waiting]; with no client left on a previous version it becomes
    [Active] over an empty namespace. *)
Theorem failed_install_reaches_waiting :
  install styles_unreachable (init [])
  = (Fulfilled tt,
     {| caches := [(CACHE_NAME, [])];
        trace := install_prefix
                 ++ [ LogError "Service Worker: Installation failed"
                        TypeError ] |})
  /\ fst (install_cycle styles_unreachable 1 (init [])) = Waiting
  /\ fst (install_cycle styles_unreachable 0 (init [])) = Active.
Proof. repeat split. Qed.
(** ** Activate *)

Lemma promise_all_state {A} (p : Promise A) (ps : list (Promise A))
  (st : State) :
  snd (promise_all (p :: ps) st) = snd (promise_all ps (snd (p st))).
Proof.
  simpl. destruct (p st) as [[a|e] st1]; simpl; [|reflexivity].
  destruct (promise_all ps st1) as [[l|e] st2]; reflexivity.
Qed.

Lemma purge_one_state (env : Env) (name : string) (st : State) :
  snd (purge_one env name st)
  = {| caches := if purged env name then storage_delete (caches st) name
                 else caches st;
       trace := trace st ++ purge_events name |}.
Proof.
  unfold purge_one, purged, purge_events, stale, bind, console_log,
    caches_delete, ret.
  destruct (negb (String.eqb name CACHE_NAME)); simpl.
  - destruct (delete_fails env name); simpl; unfold emit, set_caches; simpl;
      rewrite <- app_assoc; reflexivity.
  - rewrite app_nil_r. destruct st; reflexivity.
Qed.

Lemma purge_one_settled (env : Env) (name : string) (st : State) :
  if purge_blocked env name
  then fst (purge_one env name st) = Rejected StorageError
  else exists b, fst (purge_one env name st) = Fulfilled b.
Proof.
  unfold purge_one, purge_blocked, stale, bind, console_log,
    caches_delete, ret.
  destruct (negb (String.eqb name CACHE_NAME)); simpl.
  - destruct (delete_fails env name); simpl; eauto.
  - eauto.
Qed.

Lemma filter_true {A} (l : list A) : filter (fun _ => true) l = l.
Proof. induction l as [|x l IH]; simpl; congruence. Qed.

Lemma filter_filter {A} (f g : A -> bool) (l : list A) :
  filter f (filter g l) = filter (fun x => andb (g x) (f x)) l.
Proof.
  induction l as [|x l IH]; simpl; [reflexivity|].
  destruct (g x); simpl; [destruct (f x)|]; now rewrite IH.
Qed.

(** Every namespace is visited, whether or not an earlier deletion
    rejected. *)
Lemma purge_all_state (env : Env) (names : list string) (st : State) :
  snd (promise_all (map (purge_one env) names) st)
  = {| caches :=
         filter (fun nc => negb (existsb (fun n => andb (String.eqb n (fst nc))
                                                     (purged env n)) names))
           (caches st);
       trace := trace st ++ flat_map purge_events names |}.
Proof.
  revert st. induction names as [|n names IH]; intros st.
  - simpl. rewrite app_nil_r, filter_true. destruct st; reflexivity.
  - cbn [map]. rewrite promise_all_state, IH, purge_one_state.
    cbn [caches trace flat_map]. rewrite <- app_assoc. f_equal.
    destruct (purged env n) eqn:Hp.
    + unfold storage_delete. rewrite filter_filter.
      apply filter_ext. intros nc. simpl.
      rewrite Hp, andb_true_r, (String.eqb_sym n (fst nc)).
      destruct (String.eqb (fst nc) n); reflexivity.
    + apply filter_ext. intros nc. simpl. now rewrite Hp, andb_false_r.
Qed.

Lemma purge_all_settled (env : Env) (names : list string) (st : State) :
  if existsb (purge_blocked env) names
  then fst (promise_all (map (purge_one env) names) st)
       = Rejected StorageError
  else exists l, fst (promise_all (map (purge_one env) names) st)
                 = Fulfilled l.
Proof.
  revert st. induction names as [|n names IH]; intros st; simpl.
  - unfold ret. simpl. eauto.
  - pose proof (purge_one_settled env n st) as Hn.
    destruct (purge_one env n st) as [r st1]. simpl in Hn.
    specialize (IH st1).
    destruct (purge_blocked env n); simpl.
    + subst r. reflexivity.
    + destruct Hn as [b ->].
      destruct (promise_all (map (purge_one env) names) st1) as [r' st2].
      simpl in IH.
      destruct (existsb (purge_blocked env) names).
      * subst r'. reflexivity.
      * destruct IH as [l ->]. simpl. eauto.
Qed.

Lemma purged_by_name (env : Env) (cs : CacheStorage) :
  filter (fun nc => negb (existsb (fun n => andb (String.eqb n (fst nc))
                                              (purged env n))
                            (storage_keys cs))) cs
  = filter (fun nc => negb (purged env (fst nc))) cs.
Proof.
  apply filter_ext_in. intros nc Hin. f_equal.
  destruct (purged env (fst nc)) eqn:Hp.
  - apply existsb_exists. exists (fst nc). split.
    + unfold storage_keys. now apply in_map.
    + now rewrite String.eqb_refl, Hp.
  - destruct (existsb _ (storage_keys cs)) eqn:He; [|reflexivity].
    apply existsb_exists in He. destruct He as (n & _ & Hn).
    apply andb_true_iff in Hn. destruct Hn as [Heq Hpn].
    apply String.eqb_eq in Heq. congruence.
Qed.

(** The activate listener, run from a fresh trace. *)
Lemma activate_run (env : Env) (cs : CacheStorage) :
  keys_fails env = false ->
  activate env (init cs)
  = let st' :=
      {| caches := filter (fun nc => negb (purged env (fst nc))) cs;
         trace := [Log ["Service Worker: Activating..."]; CachesKeys]
                  ++ flat_map purge_events (storage_keys cs) |} in
    if existsb (purge_blocked env) (storage_keys cs)
    then (Rejected StorageError, st')
    else (Fulfilled tt,
          {| caches := caches st';
             trace := trace st'
                      ++ [ Log ["Service Worker: Activation complete"];
                           ClientsClaim ] |}).
Proof.
  intros Hk. unfold activate, bind at 1 2 3, console_log at 1, caches_keys, init.
  rewrite Hk. step.
  set (st0 := emit CachesKeys _).
  pose proof (purge_all_state env (storage_keys cs) st0) as Hst.
  pose proof (purge_all_settled env (storage_keys cs) st0) as Hr.
  destruct (promise_all (map (purge_one env) (storage_keys cs)) st0)
    as [r st1].
  cbn [fst snd] in Hst, Hr. subst st1. subst st0.
  cbn [caches trace emit app] in *. rewrite purged_by_name.
  destruct (existsb (purge_blocked env) (storage_keys cs)).
  - subst r. reflexivity.
  - destruct Hr as [l ->].
    unfold bind, console_log, clients_claim, emit. simpl.
    rewrite <- app_assoc. reflexivity.
Qed.

Lemma purge_events_quiet (names : list string) (e : Event) :
  In e (flat_map purge_events names) ->
  is_error_log e = false /\ e <> ClientsClaim.
Proof.
  intros H. apply in_flat_map in H. destruct H as (n & _ & H).
  unfold purge_events in H. destruct (stale n); [|destruct H].
  destruct H as [<-|[<-|[]]]; split; (reflexivity || discriminate).
Qed.

Lemma purge_events_delete (names : list string) (name : string) :
  In name names -> stale name = true ->
  In (CachesDelete name) (flat_map purge_events names).
Proof.
  intros Hin Hs. apply in_flat_map. exists name. split; [exact Hin|].
  unfold purge_events. rewrite Hs. simpl. auto.
Qed.

Lemma no_other_namespace (cs : CacheStorage) (x : string) :
  ~ In x (storage_keys cs) ->
  filter (fun nc => String.eqb (fst nc) x) cs = [].
Proof.
  unfold storage_keys. induction cs as [|nc cs IH]; simpl; [reflexivity|].
  intros H. destruct (String.eqb_spec (fst nc) x) as [Heq|Hne].
  - exfalso. apply H. now left.
  - apply IH. intros Hin. apply H. now right.
Qed.

Lemma keys_of_current (cs : CacheStorage) (x : string) :
  NoDup (storage_keys cs) -> In x (storage_keys cs) ->
  storage_keys (filter (fun nc => String.eqb (fst nc) x) cs) = [x].
Proof.
  induction cs as [|nc cs IH]; simpl; [intros _ []|].
  intros Hnd Hin. inversion Hnd as [|? ? Hnotin Hnd']; subst.
  destruct (String.eqb_spec (fst nc) x) as [Heq|Hne].
  - subst x. simpl. now rewrite (no_other_namespace cs (fst nc) Hnotin).
  - destruct Hin as [Hin|Hin]; [contradiction|]. now apply IH.
Qed.

Lemma storage_get_filter (cs : CacheStorage) (x : string) :
  storage_get (filter (fun nc => String.eqb (fst nc) x) cs) x
  = storage_get cs x.
Proof.
  unfold storage_get. induction cs as [|nc cs IH]; simpl; [reflexivity|].
  destruct (String.eqb (fst nc) x) eqn:H; simpl; rewrite ?H; auto.
Qed.

(** C2. An activation over any storage that holds the current namespace,
    with the enumeration and the deletions going through, ends with the
    current namespace as the only one: every namespace of another name
    is deleted, the current one is kept with its entries, and the open
    clients are claimed. *)
Theorem activate_purges_stale_namespaces :
  forall env cs,
    NoDup (storage_keys cs) ->
    In CACHE_NAME (storage_keys cs) ->
    keys_fails env = false ->
    (forall name, In name (storage_keys cs) -> name <> CACHE_NAME ->
                  delete_fails env name = false) ->
    exists st',
      activate env (init cs) = (Fulfilled tt, st')
      /\ storage_keys (caches st') = [CACHE_NAME]
      /\ storage_get (caches st') CACHE_NAME = storage_get cs CACHE_NAME
      /\ In ClientsClaim (trace st').
Proof.
  intros env cs Hnd Hin Hk Hdel.
  rewrite (activate_run env cs Hk). cbv zeta.
  assert (Hb : existsb (purge_blocked env) (storage_keys cs) = false).
  { destruct (existsb _ _) eqn:He; [|reflexivity].
    apply existsb_exists in He. destruct He as (n & Hn & Hbl).
    unfold purge_blocked, stale in Hbl. apply andb_true_iff in Hbl.
    destruct Hbl as [Hs Hf].
    destruct (String.eqb_spec n CACHE_NAME) as [|Hne]; [discriminate|].
    rewrite (Hdel n Hn Hne) in Hf. discriminate. }
  rewrite Hb.
  assert (Hf : filter (fun nc => negb (purged env (fst nc))) cs
               = filter (fun nc => String.eqb (fst nc) CACHE_NAME) cs).
  { apply filter_ext_in. intros nc Hnc. unfold purged, stale.
    destruct (String.eqb_spec (fst nc) CACHE_NAME) as [|Hne]; [reflexivity|].
    simpl. rewrite (Hdel (fst nc)); auto.
    unfold storage_keys. now apply in_map. }
  eexists. split; [reflexivity|]. cbn [caches trace]. rewrite Hf.
  split; [now apply keys_of_current|].
  split; [apply storage_get_filter|].
  apply in_or_app. right. simpl. auto.
Qed.

Lemma activate_purges_stale_namespaces_witness :
  exists st',
    activate online (init two_versions) = (Fulfilled tt, st')
    /\ storage_keys (caches st') = [CACHE_NAME]
    /\ storage_get (caches st') CACHE_NAME = storage_get two_versions CACHE_NAME
    /\ In ClientsClaim (trace st').
Proof.
  apply (activate_purges_stale_namespaces online two_versions).
  - repeat constructor; simpl; intuition discriminate.
  - simpl; auto.
  - reflexivity.
  - reflexivity.
Defined.

(** C6, as stated, fails: when the deletion of one stale namespace
    rejects, the other stale namespace is still deleted, but nothing is
    logged about the failure, the promise handed to [event.waitUntil]
    rejects, and [clients.claim()] is never called. *)
Lemma failed_delete_blocks_activation :
  activate delete_refused (init three_versions)
  = (Rejected StorageError,
     {| caches := [ ("daily-reminder-v0", [(Request_of "./", PAGE)]);
                    ("daily-reminder-v1", [(Request_of "./", PAGE)]) ];
        trace :=
          [ Log ["Service Worker: Activating..."];
            CachesKeys;
            Log ["Service Worker: Deleting old cache"; "daily-reminder-v0"];
            CachesDelete "daily-reminder-v0";
            Log ["Service Worker: Deleting old cache"; "daily-reminder-beta"];
            CachesDelete "daily-reminder-beta" ] |}).
Proof. reflexivity. Qed.

(** C6, amended. During activation the deletion of every stale
    namespace is started, so each stale namespace whose own deletion
    goes through is removed whatever happens to the others, and the
    current namespace is kept.  A deletion that rejects is neither
    caught nor logged: it rejects the promise handed to
    [event.waitUntil], and the open clients are claimed only when no
    deletion rejected. *)
Theorem activation_purge_is_unguarded :
  forall env cs,
    keys_fails env = false ->
    exists r st',
      activate env (init cs) = (r, st')
      /\ caches st' = filter (fun nc => negb (purged env (fst nc))) cs
      /\ (forall name, In name (storage_keys cs) -> stale name = true ->
                       In (CachesDelete name) (trace st'))
      /\ (forall e, In e (trace st') -> is_error_log e = false)
      /\ if existsb (purge_blocked env) (storage_keys cs)
         then r = Rejected StorageError /\ ~ In ClientsClaim (trace st')
         else r = Fulfilled tt /\ In ClientsClaim (trace st').
Proof.
  intros env cs Hk. rewrite (activate_run env cs Hk). cbv zeta.
  destruct (existsb (purge_blocked env) (storage_keys cs));
    do 2 eexists; (split; [reflexivity|]); cbn [caches trace];
    (split; [reflexivity|]).
  - split; [|split; [|split; [reflexivity|]]].
    + intros name Hin Hs. apply in_or_app. right.
      now apply purge_events_delete.
    + intros e [<-|[<-|He]]; try reflexivity.
      now apply (purge_events_quiet (storage_keys cs)).
    + intros [H|[H|H]]; try discriminate.
      now apply (purge_events_quiet (storage_keys cs)) in H.
  - split; [|split; [|split; [reflexivity|]]].
    + intros name Hin Hs. apply in_or_app. left. apply in_or_app. right.
      now apply purge_events_delete.
    + intros e He. apply in_app_or in He.
      destruct He as [[<-|[<-|He]]|[<-|[<-|[]]]]; try reflexivity.
      now apply (purge_events_quiet (storage_keys cs)).
    + apply in_or_app. right. simpl. auto.
Qed.

Lemma activation_purge_is_unguarded_witness :
  exists r st',
    activate delete_refused (init three_versions) = (r, st')
    /\ caches st'
       = filter (fun nc => negb (purged delete_refused (fst nc)))
           three_versions
    /\ (forall name, In name (storage_keys three_versions) ->
                     stale name = true ->
                     In (CachesDelete name) (trace st'))
    /\ (forall e, In e (trace st') -> is_error_log e = false)
    /\ if existsb (purge_blocked delete_refused)
            (storage_keys three_versions)
       then r = Rejected StorageError /\ ~ In ClientsClaim (trace st')
       else r = Fulfilled tt /\ In ClientsClaim (trace st').
Proof.
  apply (activation_purge_is_unguarded delete_refused three_versions).
  reflexivity.
Defined.

(** ** The GET-only invariant *)

Lemma cache_get_only_store (c : Cache) (r : Request) (resp : Response) :
  method r = "GET" -> cache_get_only c = true ->
  cache_get_only (cache_store c r resp) = true.
Proof.
  intros Hr. unfold cache_get_only.
  induction c as [|e c IH]; simpl.
  - intros _. rewrite Hr. reflexivity.
  - intros H. apply andb_true_iff in H. destruct H as [He Hc].
    destruct (String.eqb (url (fst e)) (url r)); simpl.
    + rewrite Hr, Hc. reflexivity.
    + rewrite He, (IH Hc). reflexivity.
Qed.

Lemma get_only_put (cs : CacheStorage) (name : string) (r : Request)
  (resp : Response) :
  method r = "GET" -> get_only cs = true ->
  get_only (storage_put cs name r resp) = true.
Proof.
  intros Hr. unfold get_only, storage_put.
  induction cs as [|nc cs IH]; simpl; [reflexivity|].
  intros H. apply andb_true_iff in H. destruct H as [Hc Hcs].
  rewrite (IH Hcs), andb_true_r.
  destruct (String.eqb (fst nc) name); simpl; [|exact Hc].
  now apply cache_get_only_store.
Qed.

Lemma get_only_open (cs : CacheStorage) (name : string) :
  get_only cs = true -> get_only (storage_open cs name) = true.
Proof.
  intros H. unfold storage_open. destruct (storage_has cs name); [exact H|].
  unfold get_only in *. rewrite forallb_app, H. reflexivity.
Qed.

Lemma get_only_filter (f : string * Cache -> bool) (cs : CacheStorage) :
  get_only cs = true -> get_only (filter f cs) = true.
Proof.
  unfold get_only. induction cs as [|nc cs IH]; simpl; [reflexivity|].
  intros H. apply andb_true_iff in H. destruct H as [Hc Hcs].
  destruct (f nc); simpl; auto. rewrite Hc. auto.
Qed.

Lemma get_only_put_all (cs : CacheStorage) (name : string)
  (l : list (Request * Response)) :
  Forall (fun e => method (fst e) = "GET") l ->
  get_only cs = true -> get_only (put_all cs name l) = true.
Proof.
  unfold put_all. intros Hl. revert cs.
  induction Hl as [|e l He Hl IH]; intros cs H; simpl; [exact H|].
  apply IH. now apply get_only_put.
Qed.

Lemma policy_keeps_get_only :
  forall env policy request st,
    In policy policies ->
    method request = "GET" ->
    get_only (caches st) = true ->
    get_only (caches (snd (policy env request st))) = true.
Proof.
  intros env policy request st Hin Hm Hinv. revert policy Hin.
  assert (Hput : forall resp,
             get_only (storage_put (storage_open (caches st) CACHE_NAME)
                         CACHE_NAME request resp) = true)
    by (intros; apply get_only_put; [exact Hm | now apply get_only_open]).
  assert (Hopen := get_only_open (caches st) CACHE_NAME Hinv).
  apply in_policies; run_policy;
    repeat match goal with
      | |- context [if ?b then _ else _] => destruct b; step
      | |- context [match ?o with Some _ => _ | None => _ end] =>
          destruct o; step
      end; auto.
Qed.

Lemma fetch_event_keeps_get_only :
  forall env request st,
    get_only (caches st) = true ->
    get_only (caches (snd (fetch_event env request st))) = true.
Proof.
  intros env request st Hinv. unfold fetch_event, on_fetch.
  destruct (String.eqb_spec (method request) "GET") as [Hm|Hm]; simpl;
    [|exact Hinv].
  destruct (String.eqb (destination request) "document").
  - pose proof (policy_keeps_get_only env handleDocumentRequest request st
                  (or_introl eq_refl) Hm Hinv) as H.
    destruct (handleDocumentRequest env request st); exact H.
  - pose proof (policy_keeps_get_only env handleAssetRequest request st
                  (or_intror (or_introl eq_refl)) Hm Hinv) as H.
    destruct (handleAssetRequest env request st); exact H.
Qed.

Lemma install_keeps_get_only :
  forall env st,
    get_only (caches st) = true ->
    get_only (caches (snd (install env st))) = true.
Proof.
  intros env st Hinv. rewrite install_run. cbn [snd].
  destruct (open_fails env CACHE_NAME); [exact Hinv|].
  destruct (fetch_all env STATIC_CACHE_URLS) as [l|] eqn:Hf;
    [|now apply get_only_open].
  destruct (existsb _ l); cbn [caches]; [now apply get_only_open|].
  apply get_only_put_all; [|now apply get_only_open].
  destruct (fetch_all_entries env _ l Hf) as [Hm _].
  apply Forall_forall. intros e He.
  assert (Hin : In (fst e) (map fst l)) by now apply in_map.
  rewrite Hm in Hin. apply in_map_iff in Hin.
  destruct Hin as (u & <- & _). reflexivity.
Qed.

Lemma activate_keeps_get_only :
  forall env st,
    get_only (caches st) = true ->
    get_only (caches (snd (activate env st))) = true.
Proof.
  intros env st Hinv.
  unfold activate, bind at 1 2 3, console_log at 1, caches_keys.
  destruct (keys_fails env); step; [exact Hinv|].
  set (st0 := emit CachesKeys _).
  pose proof (purge_all_state env (storage_keys (caches st)) st0) as Hst.
  destruct (promise_all _ st0) as [[l|e] st1]; cbn [snd] in Hst; subst st1.
  - unfold bind, console_log, clients_claim. step.
    now apply get_only_filter.
  - step. now apply get_only_filter.
Qed.

Lemma on_message_keeps_caches :
  forall data st, caches (snd (on_message data st)) = caches st.
Proof.
  intros [type|] st; simpl; [|reflexivity].
  destruct (String.eqb type "SKIP_WAITING"); reflexivity.
Qed.

(** C9. A request of any method other than GET is not intercepted: the
    fetch listener returns without answering, and the state, that is
    the Cache Storage and the record of every call on it, is left as it
    was, so the request is neither looked up nor stored.  With that
    guard the GET-only invariant of the Cache Storage is kept by every
    fetch event, whatever the request, and by the install, activate and
    message listeners. *)
Theorem non_get_requests_pass_through :
  forall env request st,
    method request <> "GET" ->
    get_only (caches st) = true ->
    on_fetch env request = PassThrough
    /\ fetch_event env request st = (None, st)
    /\ (forall any,
          get_only (caches (snd (fetch_event env any st))) = true)
    /\ get_only (caches (snd (install env st))) = true
    /\ get_only (caches (snd (activate env st))) = true
    /\ (forall data, get_only (caches (snd (on_message data st))) = true).
Proof.
  intros env request st Hm Hinv.
  assert (Hpass : on_fetch env request = PassThrough).
  { unfold on_fetch. apply String.eqb_neq in Hm. now rewrite Hm. }
  split; [exact Hpass|].
  split; [unfold fetch_event; now rewrite Hpass|].
  split; [intros any; now apply fetch_event_keeps_get_only|].
  split; [now apply install_keeps_get_only|].
  split; [now apply activate_keeps_get_only|].
  intros data. now rewrite on_message_keeps_caches.
Qed.

Lemma non_get_requests_pass_through_witness :
  on_fetch online post_request = PassThrough
  /\ fetch_event online post_request (init two_versions)
     = (None, init two_versions)
  /\ (forall any,
        get_only (caches (snd (fetch_event online any (init two_versions))))
        = true)
  /\ get_only (caches (snd (install online (init two_versions)))) = true
  /\ get_only (caches (snd (activate online (init two_versions)))) = true
  /\ (forall data,
        get_only (caches (snd (on_message data (init two_versions)))) = true).
Proof.
  apply (non_get_requests_pass_through online post_request
           (init two_versions)); [discriminate | reflexivity].
Defined.

(** * Further properties of the worker *)

(** ** Lookups across namespaces *)

Lemma storage_match_open (cs : CacheStorage) (name : string) (r : Request) :
  storage_match (storage_open cs name) r = storage_match cs r.
Proof.
  unfold storage_open. destruct (storage_has cs name); [reflexivity|].
  induction cs as [|[n c] cs IH]; simpl; [reflexivity|].
  destruct (cache_lookup c r); [reflexivity | exact IH].
Qed.

Lemma miss_answers_alike (cs : CacheStorage) (name : string) (r : Request) :
  storage_match cs r = None -> answers_alike name r None cs.
Proof.
  unfold answers_alike.
  induction cs as [|[n c] cs IH]; simpl; intros H; constructor.
  - simpl. destruct (cache_lookup c r); [discriminate|].
    destruct (String.eqb n name); reflexivity.
  - apply IH. destruct (cache_lookup c r); [discriminate | exact H].
Qed.

Lemma answers_alike_match (cs : CacheStorage) (name : string) (r : Request)
  (acc : option Response) :
  answers_alike name r acc cs -> storage_has cs name = true ->
  storage_match cs r = acc.
Proof.
  unfold answers_alike, storage_has.
  induction 1 as [|[n c] cs Hnc Hcs IH]; simpl; [discriminate|].
  simpl in Hnc. rewrite Hnc.
  destruct (String.eqb n name) eqn:Hn; simpl.
  - intros _. destruct acc as [resp|]; [reflexivity|].
    clear IH. induction Hcs as [|[n' c'] cs' H' _ IH']; simpl; [reflexivity|].
    simpl in H'. rewrite H'. destruct (String.eqb n' name); exact IH'.
  - exact IH.
Qed.

Lemma answers_alike_put (cs : CacheStorage) (name : string)
  (r r0 : Request) (resp0 : Response) (acc : option Response) :
  answers_alike name r acc cs ->
  answers_alike name r
    (if String.eqb (url r0) (url r) then Some resp0 else acc)
    (storage_put cs name r0 resp0).
Proof.
  unfold answers_alike, storage_put. intros H.
  apply Forall_map. revert H. apply Forall_impl. intros [n c] Hnc.
  simpl in *. destruct (String.eqb n name) eqn:Hn; simpl; rewrite Hn.
  - rewrite cache_lookup_store, Hnc. reflexivity.
  - exact Hnc.
Qed.

Lemma answers_alike_open (cs : CacheStorage) (name : string) (r : Request) :
  answers_alike name r None cs ->
  answers_alike name r None (storage_open cs name).
Proof.
  unfold answers_alike, storage_open. intros H.
  destruct (storage_has cs name); [exact H|].
  apply Forall_app. split; [exact H|]. constructor; [|constructor].
  simpl. destruct (String.eqb name name); reflexivity.
Qed.

Lemma answers_alike_put_all (cs : CacheStorage) (name : string)
  (r : Request) (l : list (Request * Response)) (acc : option Response) :
  answers_alike name r acc cs ->
  answers_alike name r (last_response l r acc) (put_all cs name l).
Proof.
  unfold put_all, last_response. revert cs acc.
  induction l as [|e l IH]; intros cs acc H; simpl; [exact H|].
  apply IH. now apply answers_alike_put.
Qed.

(** X1. Write-through round trip: after a miss, a response the network
    resolves with and that is written into the current namespace is
    what both policies answer the next time the request comes, on any
    network, and the network has then been asked once in all. *)
Theorem write_through_round_trip :
  forall env env' policy cs request resp,
    In policy policies ->
    match_fails env request = false ->
    storage_match cs request = None ->
    net env request = Some resp ->
    open_fails env CACHE_NAME = false ->
    put_fails env CACHE_NAME request resp = false ->
    match_fails env' request = false ->
    fst (policy env request (init cs)) = Fulfilled resp
    /\ fst (policy env' request (snd (policy env request (init cs))))
       = Fulfilled resp
    /\ fetch_count
         (trace (snd (policy env' request
                        (snd (policy env request (init cs))))))
       = 1%nat.
Proof.
  intros env env' policy cs request resp Hin Hm Hmiss Hnet Ho Hp Hm'.
  assert (Hhit : storage_match
                   (storage_put (storage_open cs CACHE_NAME) CACHE_NAME
                      request resp) request = Some resp).
  { apply (answers_alike_match _ CACHE_NAME).
    - pose proof (answers_alike_put _ CACHE_NAME request request resp None
                    (answers_alike_open cs CACHE_NAME request
                       (miss_answers_alike cs CACHE_NAME request Hmiss))) as H.
      now rewrite String.eqb_refl in H.
    - rewrite storage_has_put. apply storage_has_open. }
  revert policy Hin.
  apply in_policies; run_policy; rewrite Hm; step; rewrite Hmiss, Hnet, Ho;
    step; rewrite Hp; step; rewrite Hm'; step; rewrite Hhit;
    repeat split.
Qed.

Lemma write_through_round_trip_witness :
  fst (handleAssetRequest online image_request (init old_version_only))
  = Fulfilled PAGE
  /\ fst (handleAssetRequest offline image_request
            (snd (handleAssetRequest online image_request
                    (init old_version_only))))
     = Fulfilled PAGE
  /\ fetch_count
       (trace (snd (handleAssetRequest offline image_request
                      (snd (handleAssetRequest online image_request
                              (init old_version_only))))))
     = 1%nat.
Proof.
  apply (write_through_round_trip online offline handleAssetRequest
           old_version_only image_request PAGE); try reflexivity.
  simpl; auto.
Defined.

(** ** Every path of the two policies *)

(** The try block of a policy fails when the lookup rejects, or misses
    with the network unreachable or the namespace refusing to open. *)
Lemma handleAssetRequest_cases (env : Env) (request : Request) (st : State) :
  exists r,
    fst (handleAssetRequest env request st) = Fulfilled r
    /\ (storage_match (caches st) request = Some r
        \/ net env request = Some r
        \/ r = CSS_FALLBACK \/ r = JS_FALLBACK \/ r = NOT_AVAILABLE).
Proof.
  run_policy.
  destruct (match_fails env request); step.
  2: destruct (storage_match (caches st) request) as [cached|] eqn:Hc; step;
     [eexists; split; [reflexivity | auto] |];
     destruct (net env request) as [resp|] eqn:Hn; step;
     [destruct (open_fails env CACHE_NAME); step;
      [| eexists; split; [reflexivity | auto]] |].
  all: destruct (includes (url request) ".css");
    [eexists; split; [reflexivity | auto] |];
    destruct (includes (url request) ".js");
    eexists; split; try reflexivity; auto.
Qed.

(** X2. A GET request routed to the asset policy is always answered:
    whatever the storage and the network do, the promise handed to
    [respondWith] is fulfilled, with the response found in the cache,
    the response of the network, or one of the three synthesized
    responses. *)
Theorem asset_request_always_answered :
  forall env request st,
    method request = "GET" ->
    destination request <> "document" ->
    exists r,
      fst (fetch_event env request st) = Some (Fulfilled r)
      /\ (storage_match (caches st) request = Some r
          \/ net env request = Some r
          \/ r = CSS_FALLBACK \/ r = JS_FALLBACK \/ r = NOT_AVAILABLE).
Proof.
  intros env request st Hm Hd.
  rewrite (fetch_event_asset env request st Hm Hd). cbn [fst].
  destruct (handleAssetRequest_cases env request st) as (r & Hr & Hc).
  exists r. rewrite Hr. auto.
Qed.

Lemma asset_request_always_answered_witness :
  exists r,
    fst (fetch_event storage_down image_request (init two_versions))
    = Some (Fulfilled r)
    /\ (storage_match (caches (init two_versions)) image_request = Some r
        \/ net storage_down image_request = Some r
        \/ r = CSS_FALLBACK \/ r = JS_FALLBACK \/ r = NOT_AVAILABLE).
Proof.
  apply (asset_request_always_answered storage_down image_request
           (init two_versions)); [reflexivity | discriminate].
Defined.

(** X3. The document policy rejects exactly when its try block fails
    (the lookup rejects, or misses with the fetch rejecting or the
    namespace not opening) and the lookup of "./index.html" in the catch
    block rejects as well. *)
Theorem document_request_rejects_iff :
  forall env request st,
    (exists e, fst (handleDocumentRequest env request st) = Rejected e)
    <-> match_fails env (Request_of "./index.html") = true
        /\ (match_fails env request = true
            \/ (storage_match (caches st) request = None
                /\ (net env request = None
                    \/ open_fails env CACHE_NAME = true))).
Proof.
  intros env request st. run_policy.
  destruct (match_fails env request); step.
  2: destruct (storage_match (caches st) request) as [cached|]; step.
  3: destruct (net env request) as [resp|]; step.
  3: destruct (open_fails env CACHE_NAME); step.
  all: try (destruct (match_fails env (Request_of "./index.html")); step;
            [| destruct (storage_match (caches st)
                           (Request_of "./index.html")); step]).
  all: split;
    [ intros [e He]; try discriminate; intuition congruence
    | intros [Hi Ht]; try discriminate;
      try (eexists; reflexivity);
      intuition (try discriminate; try congruence) ].
Qed.



(** X5. A rejected [cache.put] is not seen by anyone: both policies
    still answer with the response of the network, nothing is logged as
    an error, the namespace has been created but the request is still a
    miss. *)
Theorem rejected_write_still_answers :
  forall env policy cs request resp,
    In policy policies ->
    match_fails env request = false ->
    storage_match cs request = None ->
    net env request = Some resp ->
    open_fails env CACHE_NAME = false ->
    put_fails env CACHE_NAME request resp = true ->
    fst (policy env request (init cs)) = Fulfilled resp
    /\ caches (snd (policy env request (init cs)))
       = storage_open cs CACHE_NAME
    /\ storage_match (caches (snd (policy env request (init cs)))) request
       = None
    /\ (forall e, In e (trace (snd (policy env request (init cs)))) ->
                  is_error_log e = false).
Proof.
  intros env policy cs request resp Hin Hm Hmiss Hnet Ho Hp.
  revert policy Hin.
  apply in_policies; run_policy; rewrite Hm; step; rewrite Hmiss, Hnet, Ho;
    step; rewrite Hp; step;
    (split; [reflexivity|]); (split; [reflexivity|]);
    (split; [now rewrite storage_match_open|]);
    intros e He; simpl in He;
    repeat (destruct He as [<-|He]; [reflexivity|]); destruct He.
Qed.

Lemma rejected_write_still_answers_witness :
  fst (handleDocumentRequest write_refused document_request (init []))
  = Fulfilled PAGE
  /\ caches (snd (handleDocumentRequest write_refused document_request
                    (init [])))
     = storage_open [] CACHE_NAME
  /\ storage_match
       (caches (snd (handleDocumentRequest write_refused document_request
                       (init [])))) document_request
     = None
  /\ (forall e,
        In e (trace (snd (handleDocumentRequest write_refused
                            document_request (init [])))) ->
        is_error_log e = false).
Proof.
  apply (rejected_write_still_answers write_refused handleDocumentRequest
           [] document_request PAGE); try reflexivity.
  simpl; auto.
Defined.

Lemma storage_get_open_other (cs : CacheStorage) (name other : string) :
  other <> name ->
  storage_get (storage_open cs name) other = storage_get cs other.
Proof.
  intros Hne. unfold storage_open. destruct (storage_has cs name);
    [reflexivity|].
  unfold storage_get. induction cs as [|nc cs IH]; simpl.
  - apply String.eqb_neq in Hne. rewrite String.eqb_sym in Hne.
    now rewrite Hne.
  - destruct (String.eqb (fst nc) other); [reflexivity | exact IH].
Qed.

Lemma storage_get_put_other (cs : CacheStorage) (name other : string)
  (r : Request) (resp : Response) :
  other <> name ->
  storage_get (storage_put cs name r resp) other = storage_get cs other.
Proof.
  intros Hne. unfold storage_get, storage_put.
  induction cs as [|nc cs IH]; simpl; [reflexivity|].
  destruct (String.eqb (fst nc) name) eqn:Hn; simpl.
  - apply String.eqb_eq in Hn. rewrite Hn.
    apply String.eqb_neq in Hne. rewrite String.eqb_sym in Hne.
    rewrite Hne. exact IH.
  - destruct (String.eqb (fst nc) other); [reflexivity | exact IH].
Qed.

(** What a policy can leave in the storage. *)
Lemma policy_caches :
  forall env policy request st,
    In policy policies ->
    let cs' := caches (snd (policy env request st)) in
    cs' = caches st
    \/ cs' = storage_open (caches st) CACHE_NAME
    \/ exists resp,
         net env request = Some resp
         /\ cs' = storage_put (storage_open (caches st) CACHE_NAME)
                    CACHE_NAME request resp.
Proof.
  intros env policy request st Hin. revert policy Hin.
  apply in_policies; cbv zeta; run_policy;
    (destruct (match_fails env request); step;
     [| destruct (storage_match (caches st) request); step;
        [| destruct (net env request) as [resp|] eqn:Hn; step;
           [ destruct (open_fails env CACHE_NAME); step;
             [| destruct (put_fails env CACHE_NAME request resp); step;
                [ right; left; reflexivity
                | right; right; exists resp; split; reflexivity ] ] |] ] ]);
    repeat match goal with
      | |- context [if ?b then _ else _] => destruct b; step
      | |- context [match ?o with Some _ => _ | None => _ end] =>
          destruct o; step
      end; auto.
Qed.

Lemma keys_open_incl (cs : CacheStorage) (name other : string) :
  In other (storage_keys cs) ->
  In other (storage_keys (storage_open cs name)).
Proof.
  unfold storage_open. destruct (storage_has cs name); [auto|].
  unfold storage_keys. rewrite map_app. intros H. apply in_or_app. now left.
Qed.

Lemma namespace_match_open (cs : CacheStorage) (name other : string)
  (r : Request) :
  namespace_match (storage_open cs name) other r = namespace_match cs other r.
Proof.
  unfold namespace_match, storage_open.
  destruct (storage_has cs name) eqn:Hhas; [reflexivity|].
  unfold storage_get, storage_has in *.
  induction cs as [|nc cs IH]; simpl in *.
  - destruct (String.eqb name other); reflexivity.
  - apply orb_false_iff in Hhas. destruct Hhas as [_ Hhas].
    destruct (String.eqb (fst nc) other); [reflexivity | now apply IH].
Qed.

(** X6. A policy writes at most one entry: the other namespaces, and
    the entries of the current namespace under other URLs, are as
    before, and no namespace disappears. *)
Theorem policies_write_only_their_entry :
  forall env policy request st,
    In policy policies ->
    (forall name,
        name <> CACHE_NAME ->
        storage_get (caches (snd (policy env request st))) name
        = storage_get (caches st) name)
    /\ (forall r,
          url r <> url request ->
          namespace_match (caches (snd (policy env request st))) CACHE_NAME r
          = namespace_match (caches st) CACHE_NAME r)
    /\ (forall name,
          In name (storage_keys (caches st)) ->
          In name (storage_keys (caches (snd (policy env request st))))).
Proof.
  intros env policy request st Hin.
  destruct (policy_caches env policy request st Hin)
    as [H|[H|(resp & _ & H)]]; cbv zeta in H; rewrite H.
  - repeat split; auto.
  - split; [intros; now apply storage_get_open_other|].
    split; [intros; apply namespace_match_open|].
    intros name Hn. now apply keys_open_incl.
  - split; [intros name Hne; rewrite storage_get_put_other by exact Hne;
            now apply storage_get_open_other|].
    split.
    + intros r Hr. rewrite namespace_match_put by apply storage_has_open.
      destruct (String.eqb_spec (url request) (url r)) as [Heq|_];
        [now symmetry in Heq | apply namespace_match_open].
    + intros name Hn. rewrite storage_keys_put. now apply keys_open_incl.
Qed.

Lemma policies_write_only_their_entry_witness :
  (forall name,
      name <> CACHE_NAME ->
      storage_get
        (caches (snd (handleAssetRequest online image_request
                        (init two_versions)))) name
      = storage_get (caches (init two_versions)) name)
  /\ (forall r,
        url r <> url image_request ->
        namespace_match
          (caches (snd (handleAssetRequest online image_request
                          (init two_versions)))) CACHE_NAME r
        = namespace_match (caches (init two_versions)) CACHE_NAME r)
  /\ (forall name,
        In name (storage_keys (caches (init two_versions))) ->
        In name
          (storage_keys
             (caches (snd (handleAssetRequest online image_request
                             (init two_versions)))))).
Proof.
  apply (policies_write_only_their_entry online handleAssetRequest
           image_request (init two_versions)).
  simpl; auto.
Defined.

(** ** Install, in full *)

Lemma fetch_all_some_iff (env : Env) (urls : list string) :
  (exists l, fetch_all env urls = Some l)
  <-> forall u, In u urls -> fetchable env u = true.
Proof.
  unfold fetchable. induction urls as [|u urls IH]; simpl.
  - split; [intros _ u [] | eauto].
  - split.
    + intros [l Hl] u' [<-|Hin].
      * destruct (net env (Request_of u)) as [resp|]; [|discriminate].
        destruct (andb _ _); [reflexivity | discriminate].
      * apply IH; [|exact Hin].
        destruct (net env (Request_of u)) as [resp|]; [|discriminate].
        destruct (andb _ _); [|discriminate].
        destruct (fetch_all env urls); [eauto | discriminate].
    + intros H.
      assert (Hu := H u (or_introl eq_refl)).
      destruct (net env (Request_of u)) as [resp|]; [|discriminate].
      rewrite Hu.
      destruct (proj2 IH (fun u' Hin => H u' (or_intror Hin))) as [l ->].
      eauto.
Qed.

Lemma fetch_all_is_net (env : Env) (urls : list string)
  (l : list (Request * Response)) :
  fetch_all env urls = Some l ->
  forall e, In e l <->
            exists u, In u urls /\ fst e = Request_of u
                      /\ net env (Request_of u) = Some (snd e).
Proof.
  revert l. induction urls as [|u urls IH]; simpl; intros l H e.
  - inversion H. split; [intros [] | intros (u & [] & _)].
  - destruct (net env (Request_of u)) as [resp|] eqn:Hn; [|discriminate].
    destruct (andb _ _); [|discriminate].
    destruct (fetch_all env urls) as [l'|]; [|discriminate].
    inversion H; subst. simpl. rewrite (IH l' eq_refl e). split.
    + intros [<-|(u' & Hin & Hf & Hnet)]; [exists u; simpl; auto|].
      exists u'. auto.
    + intros (u' & [<-|Hin] & Hf & Hnet).
      * left. destruct e as [r resp']. simpl in *. congruence.
      * right. exists u'. auto.
Qed.

(** X8. The promise the install listener hands to [event.waitUntil]
    is always fulfilled.  The listener asks to skip the waiting phase
    exactly when it reaches its last step, which is exactly when the
    namespace opens, every manifest URL is fetched with an ok status
    other than 206, and no write rejects. *)
Theorem install_completes_iff :
  forall env cs,
    fst (install env (init cs)) = Fulfilled tt
    /\ skip_requested (trace (snd (install env (init cs))))
       = install_completed (trace (snd (install env (init cs))))
    /\ (install_completed (trace (snd (install env (init cs)))) = true
        <-> open_fails env CACHE_NAME = false
            /\ (forall u, In u STATIC_CACHE_URLS -> fetchable env u = true)
            /\ (forall u resp,
                  In u STATIC_CACHE_URLS ->
                  net env (Request_of u) = Some resp ->
                  put_fails env CACHE_NAME (Request_of u) resp = false)).
Proof.
  intros env cs. rewrite install_run. cbn [fst snd].
  split; [reflexivity|].
  destruct (open_fails env CACHE_NAME); cbn [trace init app].
  { split; [reflexivity|]. split; [discriminate | intros [H _]; discriminate]. }
  pose proof (fetch_all_some_iff env STATIC_CACHE_URLS) as Hiff.
  destruct (fetch_all env STATIC_CACHE_URLS) as [l|] eqn:Hf.
  - pose proof (fetch_all_is_net env _ l Hf) as Hl.
    destruct (existsb _ l) eqn:Hp; cbn [trace].
    + split; [reflexivity|]. split; [discriminate|].
      intros (_ & _ & Hw). exfalso.
      apply existsb_exists in Hp. destruct Hp as (e & He & Hpe).
      apply Hl in He. destruct He as (u & Hu & Hfst & Hnet).
      rewrite Hfst, (Hw u (snd e) Hu Hnet) in Hpe. discriminate.
    + split; [reflexivity|]. split; [intros _ | reflexivity].
      split; [reflexivity|]. split; [apply Hiff; eauto|].
      intros u resp Hu Hnet.
      destruct (put_fails env CACHE_NAME (Request_of u) resp) eqn:Hpf;
        [|reflexivity].
      assert (He : In (Request_of u, resp) l)
        by (apply Hl; exists u; auto).
      assert (Hex : existsb
                      (fun e => put_fails env CACHE_NAME (fst e) (snd e)) l
                    = true)
        by (apply existsb_exists; exists (Request_of u, resp); auto).
      congruence.
  - cbn [trace]. split; [reflexivity|]. split; [discriminate|].
    intros (_ & Hall & _). apply Hiff in Hall. destruct Hall; discriminate.
Qed.

(** X9. An install that does not reach its last step changes no
    lookup: every request finds in every namespace, and in the storage
    as a whole, what it found before, and no namespace disappears. *)
Theorem failed_install_changes_no_lookup :
  forall env cs,
    install_completed (trace (snd (install env (init cs)))) = false ->
    (forall name r,
        namespace_match (caches (snd (install env (init cs)))) name r
        = namespace_match cs name r)
    /\ (forall r,
          storage_match (caches (snd (install env (init cs)))) r
          = storage_match cs r)
    /\ (forall name,
          In name (storage_keys cs) ->
          In name (storage_keys (caches (snd (install env (init cs)))))).
Proof.
  intros env cs. rewrite install_run. cbn [snd].
  destruct (open_fails env CACHE_NAME); cbn [caches trace init app].
  { intros _. repeat split; auto. }
  assert (Hopen :
            (forall name r,
                namespace_match (storage_open cs CACHE_NAME) name r
                = namespace_match cs name r)
            /\ (forall r, storage_match (storage_open cs CACHE_NAME) r
                          = storage_match cs r)
            /\ (forall name,
                   In name (storage_keys cs) ->
                   In name (storage_keys (storage_open cs CACHE_NAME)))).
  { split; [intros; apply namespace_match_open|].
    split; [intros; apply storage_match_open|].
    intros; now apply keys_open_incl. }
  destruct (fetch_all env STATIC_CACHE_URLS) as [l|]; [|intros _; exact Hopen].
  destruct (existsb _ l); cbn [caches trace]; [intros _; exact Hopen|].
  intros H. vm_compute in H. discriminate.
Qed.

Lemma failed_install_changes_no_lookup_witness :
  (forall name r,
      namespace_match
        (caches (snd (install styles_unreachable (init two_versions))))
        name r
      = namespace_match two_versions name r)
  /\ (forall r,
        storage_match
          (caches (snd (install styles_unreachable (init two_versions)))) r
        = storage_match two_versions r)
  /\ (forall name,
        In name (storage_keys two_versions) ->
        In name
          (storage_keys
             (caches (snd (install styles_unreachable
                             (init two_versions)))))).
Proof.
  apply (failed_install_changes_no_lookup styles_unreachable two_versions).
  reflexivity.
Defined.

(** ** Offline after one install *)

Lemma cache_lookup_url (c : Cache) (r r' : Request) :
  url r = url r' -> cache_lookup c r = cache_lookup c r'.
Proof. intros H. unfold cache_lookup. now rewrite H. Qed.

Lemma storage_match_url (cs : CacheStorage) (r r' : Request) :
  url r = url r' -> storage_match cs r = storage_match cs r'.
Proof.
  intros H. induction cs as [|[n c] cs IH]; simpl; [reflexivity|].
  now rewrite (cache_lookup_url c r r' H), IH.
Qed.

Lemma fetch_count_app (t t' : list Event) :
  fetch_count (t ++ t') = (fetch_count t + fetch_count t')%nat.
Proof. unfold fetch_count. now rewrite filter_app, length_app. Qed.

(** A hit is answered from the cache, from whatever state. *)
Lemma fetch_event_hit (env : Env) (request : Request) (st : State)
  (cached : Response) :
  method request = "GET" ->
  match_fails env request = false ->
  storage_match (caches st) request = Some cached ->
  fst (fetch_event env request st) = Some (Fulfilled cached)
  /\ caches (snd (fetch_event env request st)) = caches st
  /\ fetch_count (trace (snd (fetch_event env request st)))
     = fetch_count (trace st).
Proof.
  intros Hm Hok Hhit. unfold fetch_event, on_fetch. rewrite Hm. simpl negb.
  cbv iota.
  destruct (String.eqb (destination request) "document"); run_policy;
    rewrite Hok; step; rewrite Hhit; step;
    (split; [reflexivity|]); (split; [reflexivity|]);
    rewrite <- app_assoc, fetch_count_app; simpl; apply Nat.add_0_r.
Qed.

Lemma install_completed_caches (env : Env) (cs : CacheStorage) :
  install_completed (trace (snd (install env (init cs)))) = true ->
  exists l,
    fetch_all env STATIC_CACHE_URLS = Some l
    /\ caches (snd (install env (init cs)))
       = put_all (storage_open cs CACHE_NAME) CACHE_NAME l.
Proof.
  rewrite install_run. cbn [snd].
  destruct (open_fails env CACHE_NAME); [discriminate|].
  destruct (fetch_all env STATIC_CACHE_URLS) as [l|]; [|discriminate].
  destruct (existsb _ l); [discriminate|]. eauto.
Qed.

(** The response the batch leaves under a manifest URL is the one the
    network gave for it. *)
Lemma last_response_of_manifest (env : Env) (urls : list string)
  (l : list (Request * Response)) (r : Request) (acc : option Response) :
  fetch_all env urls = Some l ->
  In (url r) urls ->
  exists resp,
    last_response l r acc = Some resp
    /\ net env (Request_of (url r)) = Some resp
    /\ ok resp = true.
Proof.
  intros Hf Hin.
  destruct (fetch_all_entries env urls l Hf) as [Hm Hall].
  rewrite Forall_forall in Hall.
  pose proof (fetch_all_is_net env urls l Hf) as Hl.
  assert (Hfetch : fetchable env (url r) = true)
    by (apply (proj1 (fetch_all_some_iff env urls)); eauto).
  unfold fetchable in Hfetch.
  destruct (net env (Request_of (url r))) as [resp|] eqn:Hnet;
    [|discriminate].
  apply andb_true_iff in Hfetch. destruct Hfetch as [Hok _].
  exists resp. split; [|split; [reflexivity | exact Hok]].
  unfold last_response. apply last_written.
  - apply Forall_forall. intros e He Hurl.
    apply Hl in He. destruct He as (u & _ & Hfst & Hnet').
    rewrite Hfst in Hurl. simpl in Hurl. subst u. congruence.
  - right. apply in_map_iff. exists (Request_of (url r), resp).
    split; [reflexivity|]. apply Hl. exists (url r). auto.
Qed.

(** X7. After one install that reached its last step, a GET request
    for a manifest URL is answered from the cache without any network
    fetch and without a change of the storage, whatever the network
    does by then; when no older namespace held the URL, the answer is
    the ok response the install fetched. *)
Theorem manifest_served_offline_after_install :
  forall env env' cs request,
    install_completed (trace (snd (install env (init cs)))) = true ->
    In (url request) STATIC_CACHE_URLS ->
    method request = "GET" ->
    match_fails env' request = false ->
    exists r,
      fst (fetch_event env' request (snd (install env (init cs))))
      = Some (Fulfilled r)
      /\ caches (snd (fetch_event env' request (snd (install env (init cs)))))
         = caches (snd (install env (init cs)))
      /\ fetch_count
           (trace (snd (fetch_event env' request
                          (snd (install env (init cs))))))
         = fetch_count (trace (snd (install env (init cs))))
      /\ (storage_match cs request = None ->
          net env (Request_of (url request)) = Some r /\ ok r = true).
Proof.
  intros env env' cs request Hdone Hin Hm Hok.
  destruct (install_completed_caches env cs Hdone) as (l & Hf & Hcs).
  destruct (put_all_populates env (storage_open cs CACHE_NAME) CACHE_NAME
              STATIC_CACHE_URLS l (storage_has_open cs CACHE_NAME) Hf
              (url request) Hin) as (resp & Hns & _).
  rewrite <- Hcs in Hns.
  destruct (namespace_hit_storage_hit _ _ _ _ Hns) as [r Hr].
  rewrite (storage_match_url _ (Request_of (url request)) request eq_refl)
    in Hr.
  exists r.
  destruct (fetch_event_hit env' request _ r Hm Hok Hr) as (H1 & H2 & H3).
  repeat split; try assumption.
  all: pose proof (answers_alike_put_all _ CACHE_NAME request l None
                 (answers_alike_open cs CACHE_NAME request
                    (miss_answers_alike cs CACHE_NAME request H))) as Ha;
    apply answers_alike_match in Ha;
    [| rewrite storage_has_put_all; apply storage_has_open];
    rewrite <- Hcs, Hr in Ha;
    destruct (last_response_of_manifest env _ l request None Hf Hin)
      as (resp' & Hlast & Hnet & Hokr);
    congruence.
Qed.

Lemma manifest_served_offline_after_install_witness :
  exists r,
    fst (fetch_event offline document_request
           (snd (install online (init old_version_only))))
    = Some (Fulfilled r)
    /\ caches (snd (fetch_event offline document_request
                      (snd (install online (init old_version_only)))))
       = caches (snd (install online (init old_version_only)))
    /\ fetch_count
         (trace (snd (fetch_event offline document_request
                        (snd (install online (init old_version_only))))))
       = fetch_count (trace (snd (install online (init old_version_only))))
    /\ (storage_match old_version_only document_request = None ->
        net online (Request_of (url document_request)) = Some r
        /\ ok r = true).
Proof.
  apply (manifest_served_offline_after_install online offline
           old_version_only document_request);
    [reflexivity | simpl; auto | reflexivity | reflexivity].
Defined.

(** ** Activate, from any state *)

Lemma activate_from (env : Env) (st : State) :
  keys_fails env = false ->
  exists t,
    activate env st
    = (if existsb (purge_blocked env) (storage_keys (caches st))
       then Rejected StorageError else Fulfilled tt,
       {| caches := filter (fun nc => negb (purged env (fst nc))) (caches st);
          trace := t |}).
Proof.
  intros Hk.
  unfold activate, bind at 1 2 3, console_log at 1, caches_keys.
  rewrite Hk. step.
  set (st0 := emit CachesKeys _).
  pose proof (purge_all_state env (storage_keys (caches st)) st0) as Hst.
  pose proof (purge_all_settled env (storage_keys (caches st)) st0) as Hr.
  destruct (promise_all _ st0) as [r st1]. cbn [fst snd] in Hst, Hr.
  subst st1. subst st0. cbn [caches trace emit] in *.
  rewrite purged_by_name.
  destruct (existsb (purge_blocked env) (storage_keys (caches st))).
  - subst r. eexists. reflexivity.
  - destruct Hr as [l ->].
    unfold bind, console_log, clients_claim, emit. step.
    eexists. reflexivity.
Qed.

Lemma activate_outcome (env : Env) (st : State) :
  keys_fails env = false ->
  fst (activate env st)
  = (if existsb (purge_blocked env) (storage_keys (caches st))
     then Rejected StorageError else Fulfilled tt)
  /\ caches (snd (activate env st))
     = filter (fun nc => negb (purged env (fst nc))) (caches st).
Proof.
  intros Hk. destruct (activate_from env st Hk) as [t ->].
  split; reflexivity.
Qed.

Lemma activate_keys_failure (env : Env) (st : State) :
  keys_fails env = true ->
  activate env st
  = (Rejected StorageError,
     {| caches := caches st;
        trace := (trace st ++ [ Log ["Service Worker: Activating..."];
                                CachesKeys ])%list |}).
Proof.
  intros Hk. unfold activate, bind at 1 2, console_log at 1, caches_keys.
  rewrite Hk. unfold emit. step. now rewrite <- app_assoc.
Qed.

(** X10. Activation only removes stale namespaces: what is left was
    there before with the same entries, a namespace of the current name
    is kept, and a namespace that is gone was stale and its deletion
    went through. *)
Theorem activate_only_removes_stale_namespaces :
  forall env st,
    (forall nc, In nc (caches (snd (activate env st))) -> In nc (caches st))
    /\ (forall nc,
          In nc (caches st) -> fst nc = CACHE_NAME ->
          In nc (caches (snd (activate env st))))
    /\ (forall nc,
          In nc (caches st) ->
          ~ In nc (caches (snd (activate env st))) ->
          fst nc <> CACHE_NAME
          /\ delete_fails env (fst nc) = false
          /\ keys_fails env = false).
Proof.
  intros env st. destruct (keys_fails env) eqn:Hk.
  - rewrite (activate_keys_failure env st Hk). cbn [snd caches].
    repeat split; auto; contradiction.
  - destruct (activate_outcome env st Hk) as [_ ->].
    split; [intros nc H; apply filter_In in H; tauto|].
    split.
    + intros nc Hin Hcur. apply filter_In. split; [exact Hin|].
      unfold purged, stale. rewrite Hcur, String.eqb_refl. reflexivity.
    + intros nc Hin Hgone.
      destruct (purged env (fst nc)) eqn:Hp.
      * unfold purged, stale in Hp. apply andb_true_iff in Hp.
        destruct Hp as [Hs Hd]. apply negb_true_iff in Hs, Hd.
        apply String.eqb_neq in Hs. auto.
      * exfalso. apply Hgone. apply filter_In. rewrite Hp. auto.
Qed.

Lemma storage_keys_put_all (cs : CacheStorage) (name : string)
  (l : list (Request * Response)) :
  storage_keys (put_all cs name l) = storage_keys cs.
Proof.
  unfold put_all. revert cs. induction l as [|e l IH]; intros cs; simpl;
    [reflexivity|].
  rewrite IH. apply storage_keys_put.
Qed.

Lemma single_namespace_match (cs : CacheStorage) (name : string)
  (r : Request) :
  storage_keys cs = [name] ->
  storage_match cs r = namespace_match cs name r.
Proof.
  destruct cs as [|[n c] [|nc cs]]; try discriminate.
  simpl. intros H. inversion H; subst.
  unfold namespace_match, storage_get. simpl. rewrite String.eqb_refl.
  simpl. destruct (cache_lookup c r); reflexivity.
Qed.

(** X11. A version bump, start to end: an install that reached its
    last step followed by an activation whose deletions go through
    leaves the current namespace as the only one, and every manifest
    URL is answered from it with the ok response of the network. *)
Theorem upgrade_leaves_only_the_new_version :
  forall env cs,
    NoDup (storage_keys cs) ->
    install_completed (trace (snd (install env (init cs)))) = true ->
    keys_fails env = false ->
    (forall name, In name (storage_keys cs) -> name <> CACHE_NAME ->
                  delete_fails env name = false) ->
    fst (activate env (snd (install env (init cs)))) = Fulfilled tt
    /\ storage_keys (caches (snd (activate env (snd (install env (init cs))))))
       = [CACHE_NAME]
    /\ (forall A,
          In A STATIC_CACHE_URLS ->
          exists resp,
            storage_match
              (caches (snd (activate env (snd (install env (init cs))))))
              (Request_of A) = Some resp
            /\ net env (Request_of A) = Some resp
            /\ ok resp = true).
Proof.
  intros env cs Hnd Hdone Hk Hdel.
  destruct (install_completed_caches env cs Hdone) as (l & Hf & Hcs).
  destruct (activate_outcome env (snd (install env (init cs))) Hk)
    as [Hr Hc].
  set (cs1 := caches (snd (install env (init cs)))) in *.
  assert (Hkeys : forall name, In name (storage_keys cs1) ->
                               name = CACHE_NAME \/ In name (storage_keys cs)).
  { intros name. rewrite Hcs, storage_keys_put_all. unfold storage_open.
    destruct (storage_has cs CACHE_NAME); [auto|].
    unfold storage_keys. rewrite map_app. intros H. apply in_app_or in H.
    destruct H as [H|[H|[]]]; auto. }
  assert (Hclean : forall name, In name (storage_keys cs1) ->
                                purge_blocked env name = false).
  { intros name Hin. unfold purge_blocked, stale.
    destruct (String.eqb_spec name CACHE_NAME) as [|Hne]; [reflexivity|].
    destruct (Hkeys name Hin) as [|Hin']; [contradiction|].
    now rewrite (Hdel name Hin' Hne). }
  assert (Hb : existsb (purge_blocked env) (storage_keys cs1) = false).
  { destruct (existsb _ _) eqn:He; [|reflexivity].
    apply existsb_exists in He. destruct He as (n & Hn & Hbl).
    rewrite (Hclean n Hn) in Hbl. discriminate. }
  rewrite Hb in Hr.
  assert (Hfil : filter (fun nc => negb (purged env (fst nc))) cs1
                 = filter (fun nc => String.eqb (fst nc) CACHE_NAME) cs1).
  { apply filter_ext_in. intros nc Hnc.
    assert (Hin : In (fst nc) (storage_keys cs1))
      by (unfold storage_keys; now apply in_map).
    pose proof (Hclean _ Hin) as Hcl. unfold purge_blocked in Hcl.
    unfold purged, stale in *.
    destruct (String.eqb (fst nc) CACHE_NAME); [reflexivity|].
    simpl in *. now rewrite Hcl. }
  rewrite Hfil in Hc.
  assert (Hnd1 : NoDup (storage_keys cs1))
    by (rewrite Hcs, storage_keys_put_all; now apply NoDup_keys_open).
  assert (Hin1 : In CACHE_NAME (storage_keys cs1)).
  { rewrite Hcs, storage_keys_put_all. apply storage_has_in.
    apply storage_has_open. }
  assert (Hk1 : storage_keys
                  (caches (snd (activate env (snd (install env (init cs))))))
                = [CACHE_NAME])
    by (rewrite Hc; now apply keys_of_current).
  split; [exact Hr|]. split; [exact Hk1|].
  intros A HA.
  destruct (put_all_populates env (storage_open cs CACHE_NAME) CACHE_NAME
              STATIC_CACHE_URLS l (storage_has_open cs CACHE_NAME) Hf A HA)
    as (resp & Hns & Hnet & Hok).
  exists resp. split; [|split; assumption].
  rewrite (single_namespace_match _ CACHE_NAME _ Hk1), Hc.
  unfold namespace_match. rewrite storage_get_filter.
  fold (namespace_match cs1 CACHE_NAME (Request_of A)).
  subst cs1. rewrite Hcs. exact Hns.
Qed.

Lemma upgrade_leaves_only_the_new_version_witness :
  fst (activate online (snd (install online (init old_version_only))))
  = Fulfilled tt
  /\ storage_keys
       (caches (snd (activate online
                       (snd (install online (init old_version_only))))))
     = [CACHE_NAME]
  /\ (forall A,
        In A STATIC_CACHE_URLS ->
        exists resp,
          storage_match
            (caches (snd (activate online
                            (snd (install online (init old_version_only))))))
            (Request_of A) = Some resp
          /\ net online (Request_of A) = Some resp
          /\ ok resp = true).
Proof.
  apply (upgrade_leaves_only_the_new_version online old_version_only).
  - repeat constructor; simpl; tauto.
  - reflexivity.
  - reflexivity.
  - reflexivity.
Defined.

(** ** The Control Channel *)

Lemma skip_requested_app (t t' : list Event) :
  skip_requested (t ++ t') = orb (skip_requested t) (skip_requested t').
Proof. unfold skip_requested. apply existsb_app. Qed.

(** X12. The message listener never touches the Cache Storage and
    never fails; a message of type SKIP_WAITING makes it ask once to
    skip the waiting phase, which promotes a waiting instance whatever
    clients are left on the old one; any other message leaves the state
    as it was. *)
Theorem only_skip_waiting_is_obeyed :
  forall data st,
    caches (snd (on_message data st)) = caches st
    /\ fst (on_message data st) = Fulfilled tt
    /\ (data = Some "SKIP_WAITING" ->
        trace (snd (on_message data st)) = (trace st ++ [SkipWaiting])%list
        /\ forall old_clients,
             promote (skip_requested (trace (snd (on_message data st))))
               old_clients Waiting = Active)
    /\ (data <> Some "SKIP_WAITING" -> snd (on_message data st) = st).
Proof.
  intros data st.
  split; [apply on_message_keeps_caches|].
  destruct data as [type|]; simpl.
  - destruct (String.eqb_spec type "SKIP_WAITING") as [->|Hne].
    + split; [reflexivity|]. split; [|intros H; congruence].
      intros _. split; [reflexivity|]. intros old. simpl.
      now rewrite skip_requested_app, orb_true_r.
    + split; [reflexivity|]. split; [intros H; congruence | reflexivity].
  - split; [reflexivity|]. split; [discriminate | reflexivity].
Qed.

(** ** Push messages *)

Lemma or_default_cases {number} (falsy : number -> bool)
  (v : option (JSON number)) (d : string) :
  if truthy number falsy v
  then v = Some (or_default number falsy v d)
  else or_default number falsy v d = JString d.
Proof.
  unfold or_default. destruct v as [j|]; [|reflexivity].
  destruct (truthy number falsy (Some j)); reflexivity.
Qed.

Lemma truthy_string_not_empty {number} (falsy : number -> bool) (s : string) :
  truthy number falsy (Some (JString s)) = true -> s <> "".
Proof.
  simpl. intros H ->. discriminate H.
Qed.

Lemma or_default_truthy {number} (falsy : number -> bool)
  (v : option (JSON number)) (d : string) :
  d <> "" -> truthy number falsy (Some (or_default number falsy v d)) = true.
Proof.
  intros Hd. pose proof (or_default_cases falsy v d) as H.
  destruct (truthy number falsy v) eqn:Hv.
  - now rewrite <- H.
  - rewrite H. simpl. apply String.eqb_neq in Hd. now rewrite Hd.
Qed.

(** X13. A push message whose data parses throws only for the payload
    [null]; any other payload has one notification shown.  Its title
    and its body are [data.title] and [data.body] when these are truthy,
    passed on unchanged whatever their type, and the default texts when
    the member is missing, null, false, a falsy number or the empty
    string.  A title or body that is a string is therefore not the empty
    string; nothing more is checked, so a truthy member that reads as
    blank (an empty array, a string of spaces) is shown as it is.  The
    tag is "reminder-notification", and of the actions offered "open"
    closes the notification and opens the app, the other only closes
    it. *)
Theorem push_notification_uses_member_or_default :
  forall (number : Type) (falsy : number -> bool) (payload : JSON number),
    match on_push number falsy (Some (Some payload)) with
    | PushShown _ title options =>
        payload <> JNull
        /\ (exists t b,
              member number payload "title" = Some t
              /\ member number payload "body" = Some b
              /\ (if truthy number falsy t then t = Some title
                  else title = JString "Daily Reminder")
              /\ (if truthy number falsy b
                  then b = Some (opt_body number options)
                  else opt_body number options
                       = JString
                           "Don't forget to update your daily reminder!"))
        /\ (forall s, title = JString s -> s <> "")
        /\ (forall s, opt_body number options = JString s -> s <> "")
        /\ opt_tag number options = "reminder-notification"
        /\ (forall action label,
              In (action, label) (opt_actions number options) ->
              on_notificationclick action
              = if String.eqb action "open"
                then [CloseNotification; OpenWindow "./"]
                else [CloseNotification])
    | PushTypeError _ => payload = JNull
    | PushIgnored _ | PushSyntaxError _ => False
    end.
Proof.
  intros number falsy payload. unfold on_push.
  destruct (member number payload "body") as [b|] eqn:Hb;
    [|destruct payload; first [reflexivity | discriminate Hb]].
  destruct (member number payload "title") as [t|] eqn:Ht;
    [|destruct payload; first [reflexivity | discriminate Ht]].
  cbn [opt_body opt_tag opt_actions].
  split; [intros ->; discriminate Hb|].
  split.
  { exists t, b. split; [reflexivity|]. split; [reflexivity|].
    split; apply or_default_cases. }
  split.
  { intros s Hs. apply (truthy_string_not_empty falsy). rewrite <- Hs.
    apply or_default_truthy. discriminate. }
  split.
  { intros s Hs. apply (truthy_string_not_empty falsy). rewrite <- Hs.
    apply or_default_truthy. discriminate. }
  split; [reflexivity|].
  intros action label [Ha|[Ha|[]]]; inversion Ha; reflexivity.
Qed.

Lemma push_notification_uses_member_or_default_witness :
  reminder_payload <> JNull
  /\ (exists t b,
        member nat reminder_payload "title" = Some t
        /\ member nat reminder_payload "body" = Some b
        /\ (if truthy nat (Nat.eqb 0) t
            then t = Some (JString "Daily Reminder")
            else @JString nat "Daily Reminder" = JString "Daily Reminder")
        /\ (if truthy nat (Nat.eqb 0) b
            then b = Some (opt_body nat reminder_options)
            else opt_body nat reminder_options
                 = JString "Don't forget to update your daily reminder!"))
  /\ (forall s, @JString nat "Daily Reminder" = JString s -> s <> "")
  /\ (forall s, opt_body nat reminder_options = JString s -> s <> "")
  /\ opt_tag nat reminder_options = "reminder-notification"
  /\ (forall action label,
        In (action, label) (opt_actions nat reminder_options) ->
        on_notificationclick action
        = if String.eqb action "open"
          then [CloseNotification; OpenWindow "./"]
          else [CloseNotification]).
Proof.
  exact (push_notification_uses_member_or_default nat (Nat.eqb 0)
           reminder_payload).
Defined.

(** * Properties of the note pad (script.js) *)

Module AppFacts.

Import App.

Local Open Scope list_scope.

(** ** Texts *)

Lemma text_eqb_eq (a b : Text) : text_eqb a b = true <-> a = b.
Proof.
  unfold text_eqb. destruct (list_eq_dec N.eq_dec a b); split; auto;
    discriminate.
Qed.

Lemma text_eqb_refl (a : Text) : text_eqb a a = true.
Proof. now apply text_eqb_eq. Qed.

Lemma normalize_no_cr (s : Text) : no_cr (normalize_newlines s).
Proof.
  unfold no_cr.
  assert (H : forall n s, (List.length s <= n)%nat ->
                          ~ In 13%N (normalize_newlines s)).
  { clear s. induction n as [|n IH]; intros s Hlen.
    - destruct s; [intros [] | simpl in Hlen; lia].
    - destruct s as [|c s]; [intros []|]. simpl in Hlen. simpl.
      destruct (N.eqb_spec c 13) as [->|Hc].
      + destruct s as [|d s]; [intros [H|[]]; discriminate|].
        simpl in Hlen.
        destruct (N.eqb d 10); intros [H|H]; try discriminate;
          revert H; apply IH; simpl; lia.
      + intros [H|H]; [congruence|]. revert H. apply IH. lia. }
  apply (H (List.length s)). lia.
Qed.

Lemma normalize_fixed (s : Text) : no_cr s -> normalize_newlines s = s.
Proof.
  unfold no_cr. induction s as [|c s IH]; [reflexivity|].
  intros H. simpl. destruct (N.eqb_spec c 13) as [->|Hc].
  - exfalso. apply H. now left.
  - f_equal. apply IH. intros Hin. apply H. now right.
Qed.

Lemma no_cr_app (a b : Text) : no_cr a -> no_cr b -> no_cr (a ++ b).
Proof.
  unfold no_cr. intros Ha Hb H. apply in_app_or in H. tauto.
Qed.

Lemma no_cr_firstn (n : nat) (s : Text) : no_cr s -> no_cr (firstn n s).
Proof.
  unfold no_cr. intros H Hin.
  apply H. rewrite <- (firstn_skipn n s). apply in_or_app. now left.
Qed.

Lemma no_cr_skipn (n : nat) (s : Text) : no_cr s -> no_cr (skipn n s).
Proof.
  unfold no_cr. intros H Hin.
  apply H. rewrite <- (firstn_skipn n s). apply in_or_app. now right.
Qed.

(** ** The storage *)

Lemma lookup_store_same (key : string) (v : Text) (l : list (string * Text)) :
  lookup key (store key v l) = Some v.
Proof.
  unfold lookup. induction l as [|kv l IH]; simpl.
  - now rewrite String.eqb_refl.
  - destruct (String.eqb (fst kv) key) eqn:H; simpl.
    + now rewrite String.eqb_refl.
    + rewrite H. exact IH.
Qed.

Lemma lookup_store_other (key key' : string) (v : Text)
  (l : list (string * Text)) :
  key' <> key -> lookup key' (store key v l) = lookup key' l.
Proof.
  intros Hne. unfold lookup. induction l as [|kv l IH]; simpl.
  - apply String.eqb_neq in Hne. rewrite String.eqb_sym in Hne.
    now rewrite Hne.
  - destruct (String.eqb (fst kv) key) eqn:H; simpl.
    + apply String.eqb_eq in H. rewrite H.
      apply String.eqb_neq in Hne. rewrite String.eqb_sym in Hne.
      now rewrite Hne.
    + destruct (String.eqb (fst kv) key'); [reflexivity | exact IH].
Qed.

(** ** Counting words *)

Lemma split_spaces_count (in_run : bool) (piece s : Text) :
  (in_run = true -> piece = []) ->
  List.length (filter (fun word => Nat.ltb 0 (List.length word))
                 (split_spaces_from in_run piece s))
  = match piece with
    | [] => word_starts true s
    | _ :: _ => S (word_starts false s)
    end.
Proof.
  revert in_run piece. induction s as [|c s IH]; intros in_run piece Hrun.
  - simpl. destruct piece; reflexivity.
  - cbn [split_spaces_from word_starts]. destruct (is_space c).
    + destruct in_run.
      * rewrite (Hrun eq_refl). now apply IH.
      * cbn [filter]. destruct piece as [|d piece]; cbn [List.length Nat.ltb Nat.leb];
          rewrite IH by reflexivity; reflexivity.
    + rewrite IH by discriminate. destruct piece; reflexivity.
Qed.

Lemma word_starts_trimStart (s : Text) :
  word_starts true (trimStart s) = word_starts true s.
Proof.
  induction s as [|c s IH]; [reflexivity|].
  simpl. destruct (is_space c) eqn:Hc; [exact IH|].
  simpl. now rewrite Hc.
Qed.

(** What [trimStart] strips is white space. *)
Lemma trimStart_split (s : Text) :
  exists ws, s = ws ++ trimStart s /\ forallb is_space ws = true.
Proof.
  induction s as [|c s (ws & Hs & Hws)]; [exists []; auto|].
  simpl. destruct (is_space c) eqn:Hc.
  - exists (c :: ws). simpl. rewrite Hc, Hws. split; [congruence | reflexivity].
  - exists []. auto.
Qed.

Lemma word_starts_spaces_after (b : bool) (s ws : Text) :
  forallb is_space ws = true ->
  word_starts b (s ++ ws) = word_starts b s.
Proof.
  intros Hws. revert b. induction s as [|c s IH]; intros b; simpl.
  - clear -Hws. revert b. induction ws as [|w ws IH]; intros b;
      [reflexivity|].
    simpl in *. apply andb_true_iff in Hws. destruct Hws as [Hw Hws].
    rewrite Hw. now apply IH.
  - destruct (is_space c); [apply IH|]. destruct b; now rewrite IH.
Qed.

Lemma word_starts_trimEnd (b : bool) (s : Text) :
  word_starts b (trimEnd s) = word_starts b s.
Proof.
  unfold trimEnd.
  destruct (trimStart_split (rev s)) as (ws & Hs & Hws).
  assert (Hrev : s = rev (trimStart (rev s)) ++ rev ws).
  { rewrite <- rev_app_distr, <- Hs. now rewrite rev_involutive. }
  rewrite Hrev at 2. symmetry. apply word_starts_spaces_after.
  rewrite forallb_forall in *. intros x Hx. apply Hws. now apply in_rev.
Qed.

Lemma word_starts_le (b : bool) (s : Text) :
  (word_starts b s
   <= List.length (filter (fun c => negb (is_space c)) s))%nat.
Proof.
  revert b. induction s as [|c s IH]; intros b; simpl; [lia|].
  destruct (is_space c); simpl.
  - apply IH.
  - destruct b; specialize (IH false); lia.
Qed.

Lemma split_lines_count (piece s : Text) :
  List.length (split_lines_from piece s)
  = S (List.length (filter (N.eqb 10) s)).
Proof.
  revert piece. induction s as [|c s IH]; intros piece; [reflexivity|].
  cbn [split_lines_from filter]. rewrite (N.eqb_sym 10 c).
  destruct (N.eqb c 10); cbn [List.length]; now rewrite IH.
Qed.

Lemma blank_no_words (s : Text) : blank s = true -> word_starts true s = 0%nat.
Proof.
  unfold blank, trim. intros H.
  rewrite <- word_starts_trimStart, <- word_starts_trimEnd.
  destruct (trimEnd (trimStart s)); [reflexivity | discriminate].
Qed.

(** X14. The word count of [getStats], which is also the one
    [updateCharCount] shows, is the number of places where a word
    begins; it is at most the number of characters that are not white
    space, which is at most the number of characters; the line count is
    one more than the number of line feeds; a blank text has no
    words. *)
Theorem word_count_counts_word_starts :
  forall st,
    words (getStats st) = word_starts true (value (page st))
    /\ (words (getStats st) <= charactersNoSpaces (getStats st))%nat
    /\ (charactersNoSpaces (getStats st) <= characters (getStats st))%nat
    /\ lines (getStats st)
       = S (List.length (filter (N.eqb 10) (value (page st))))
    /\ (blank (value (page st)) = true -> words (getStats st) = 0%nat).
Proof.
  intros st. unfold getStats. cbn [words charactersNoSpaces characters lines].
  assert (Hw : count_words (value (page st))
               = word_starts true (value (page st))).
  { unfold count_words, split_spaces.
    rewrite split_spaces_count by discriminate.
    unfold trim. now rewrite word_starts_trimEnd, word_starts_trimStart. }
  rewrite Hw. split; [reflexivity|].
  split; [apply word_starts_le|].
  split; [apply filter_length_le|].
  split; [apply split_lines_count|].
  apply blank_no_words.
Qed.

(** ** What the methods leave alone *)

Ltac unfold_methods :=
  unfold clearContent, handleWindowFocus, handleModalClick, loadContent,
    saveContent, hideClearConfirmation, showClearConfirmation, toggleTheme,
    loadTheme, on_scheme_change, registerServiceWorker, applyTheme,
    updatePlaceholderVisibility, updateCharCount, setSaveStatus, getItem,
    setItem, log, on_page in *.

#[local] Arguments lookup : simpl never.
#[local] Arguments store : simpl never.
#[local] Arguments blank : simpl never.
#[local] Arguments text_eqb : simpl never.
#[local] Arguments count_words : simpl never.
#[local] Arguments normalize_newlines : simpl never.
#[local] Arguments text : simpl never.
#[local] Arguments substring : simpl never.
#[local] Arguments substring_from : simpl never.

#[local] Arguments assign_value : simpl never.
#[local] Arguments setSelectionRange : simpl never.

Lemma value_assign v p : value (assign_value v p) = normalize_newlines v.
Proof.
  unfold assign_value. destruct (text_eqb _ _) eqn:H; [|reflexivity].
  apply text_eqb_eq in H. now symmetry.
Qed.

Lemma placeholder_assign v p : placeholder (assign_value v p) = placeholder p.
Proof. unfold assign_value. destruct (text_eqb _ _); reflexivity. Qed.

Lemma value_select s e p : value (setSelectionRange s e p) = value p.
Proof. unfold setSelectionRange. destruct (Nat.leb _ _); reflexivity. Qed.

Lemma placeholder_select s e p :
  placeholder (setSelectionRange s e p) = placeholder p.
Proof. unfold setSelectionRange. destruct (Nat.leb _ _); reflexivity. Qed.

Lemma content_key_apart v l :
  lookup STORAGE_KEY (store THEME_KEY v l) = lookup STORAGE_KEY l.
Proof. apply lookup_store_other. discriminate. Qed.

Lemma theme_key_apart v l :
  lookup THEME_KEY (store STORAGE_KEY v l) = lookup THEME_KEY l.
Proof. apply lookup_store_other. discriminate. Qed.

Create Rewrite HintDb app_rw.
#[local] Hint Rewrite value_assign placeholder_assign value_select
  placeholder_select content_key_apart theme_key_apart lookup_store_same
  : app_rw.

Ltac split_step :=
  match goal with
  | |- context [getItem_throws ?h] => destruct (getItem_throws h) eqn:?
  | |- context [setItem_throws ?h ?k ?v] =>
      destruct (setItem_throws h k v) eqn:?
  | |- context [sw_registration ?h] =>
      destruct (sw_registration h) as [[|]|] eqn:?
  | |- context [prefers_dark ?h] => destruct (prefers_dark h) eqn:?
  | |- context [theme_listener ?st] =>
      is_var st; destruct (theme_listener st) eqn:?
  | |- context [placeholder (page ?st)] =>
      is_var st; destruct (placeholder (page st)) eqn:?
  | |- context [meta_theme_color (page ?st)] =>
      is_var st; destruct (meta_theme_color (page st)) eqn:?
  | |- context [data_theme (page ?st)] =>
      is_var st; destruct (data_theme (page st)) eqn:?
  | |- context [lookup ?k (localStorage ?st)] =>
      is_var st;
      destruct (lookup k (localStorage st)) as [[|? ?]|] eqn:?
  | |- context [blank ?v] => destruct (blank v) eqn:?
  | |- context [text_eqb ?a ?b] => destruct (text_eqb a b) eqn:?
  end.

Ltac split_cases :=
  cbn; repeat (first [ progress autorewrite with app_rw | split_step ]; cbn).

Lemma same_timers_refl st : same_timers st st.
Proof. repeat split. Qed.

Lemma same_timers_trans st1 st2 st3 :
  same_timers st1 st2 -> same_timers st2 st3 -> same_timers st1 st3.
Proof. unfold same_timers. intuition congruence. Qed.

Lemma same_timers_page f st : same_timers st (on_page f st).
Proof. repeat split. Qed.

Lemma same_timers_saveContent host st : same_timers st (saveContent host st).
Proof. unfold same_timers. unfold_methods. split_cases; cbn; auto. Qed.

Lemma same_timers_loadContent host st : same_timers st (loadContent host st).
Proof. unfold same_timers. unfold_methods. split_cases; cbn; auto. Qed.

Lemma same_timers_count host st : same_timers st (updateCharCount host st).
Proof. apply same_timers_page. Qed.

Lemma same_timers_placeholder st :
  same_timers st (updatePlaceholderVisibility st).
Proof. unfold same_timers. unfold_methods. split_cases; cbn; auto. Qed.

Lemma same_timers_clearContent host st :
  same_timers st (clearContent host st).
Proof.
  unfold clearContent, hideClearConfirmation.
  repeat first
    [ apply same_timers_page
    | eapply same_timers_trans; [|apply same_timers_page]
    | eapply same_timers_trans; [|apply same_timers_placeholder]
    | eapply same_timers_trans; [|apply same_timers_count]
    | eapply same_timers_trans; [|apply same_timers_saveContent] ].
Qed.

Lemma same_timers_toggleTheme host st : same_timers st (toggleTheme host st).
Proof. unfold same_timers. unfold_methods. split_cases; cbn; auto. Qed.

Lemma same_timers_scheme host dark st :
  same_timers st (on_scheme_change host dark st).
Proof. unfold same_timers. unfold_methods. split_cases; cbn; auto. Qed.

Lemma same_timers_show st : same_timers st (showClearConfirmation st).
Proof. unfold same_timers. unfold_methods. split_cases; cbn; auto. Qed.

Lemma same_timers_global host ctrlKey metaKey key st :
  same_timers st (fst (handleGlobalKeydown host ctrlKey metaKey key st)).
Proof.
  unfold handleGlobalKeydown. cbn [fst].
  repeat match goal with
    | |- context [if ?b then _ else _] => destruct b
    end;
    repeat first
      [ apply same_timers_refl
      | eapply same_timers_trans; [|apply same_timers_page]
      | eapply same_timers_trans; [|apply same_timers_toggleTheme]
      | eapply same_timers_trans; [|apply same_timers_show] ].
Qed.

(** ** Debounced saving *)

Lemma pending_saves_same st st' :
  same_timers st st' -> pending_saves st' = pending_saves st.
Proof. intros (H & _ & _). unfold pending_saves. now rewrite H. Qed.

Lemma timers_ok_same st st' :
  same_timers st st' -> timers_ok st -> timers_ok st'.
Proof.
  intros Hs [Hlt Hp]. pose proof (pending_saves_same _ _ Hs) as Hps.
  destruct Hs as (Ht & Hn & Hst). split.
  - rewrite Ht, Hn. exact Hlt.
  - rewrite Hps, Hst. exact Hp.
Qed.

Lemma pending_saves_clear id st :
  pending_saves (clearTimeout id st)
  = filter (fun i => negb (Pos.eqb i id)) (pending_saves st).
Proof.
  unfold pending_saves, clearTimeout. cbn.
  induction (timers st) as [|[i cb] l IH]; [reflexivity|].
  cbn. destruct (Pos.eqb i id) eqn:Hi; cbn.
  - destruct cb; cbn; rewrite ?Hi; cbn; exact IH.
  - destruct cb; cbn; rewrite ?Hi; cbn; now rewrite IH.
Qed.

Lemma timers_ok_clear id st : timers_ok st -> timers_ok (clearTimeout id st).
Proof.
  intros [Hlt Hp]. split.
  - intros t Ht. unfold clearTimeout in Ht. cbn in Ht.
    apply filter_In in Ht. apply Hlt. tauto.
  - rewrite pending_saves_clear.
    destruct Hp as [->|(i & -> & Hi)]; [now left|].
    cbn. destruct (Pos.eqb i id); cbn; [now left|].
    right. exists i. split; [reflexivity | exact Hi].
Qed.

Lemma pending_after_own_clear st :
  timers_ok st ->
  match saveTimeout st with
  | Some id => pending_saves (clearTimeout id st) = []
  | None => pending_saves st = []
  end.
Proof.
  intros [_ Hp]. destruct (saveTimeout st) as [id|] eqn:Hs.
  - rewrite pending_saves_clear.
    destruct Hp as [->|(i & -> & Hi)]; [reflexivity|].
    inversion Hi; subst. cbn. now rewrite Pos.eqb_refl.
  - destruct Hp as [->|(i & _ & Hi)]; [reflexivity | discriminate].
Qed.

Lemma handleInput_schedules host st :
  timers_ok st ->
  pending_saves (handleInput host st) = [next_timer st]
  /\ saveTimeout (handleInput host st) = Some (next_timer st)
  /\ timers_ok (handleInput host st)
  /\ localStorage (handleInput host st) = localStorage st
  /\ value (page (handleInput host st)) = value (page st)
  /\ status_text (page (handleInput host st)) = "Saving...".
Proof.
  intros Hok.
  set (st1 := setSaveStatus "saving"
                (updatePlaceholderVisibility (updateCharCount host st))).
  assert (Hsame : same_timers st st1)
    by (unfold st1, same_timers; unfold_methods; split_cases; cbn; auto).
  assert (Hok1 := timers_ok_same _ _ Hsame Hok).
  assert (Hfacts : localStorage st1 = localStorage st
                   /\ value (page st1) = value (page st)
                   /\ status_text (page st1) = "Saving...")
    by (unfold st1; unfold_methods; split_cases; cbn; auto).
  destruct Hsame as (_ & Hn & Hst).
  set (st2 := match saveTimeout st1 with
              | Some id => clearTimeout id st1
              | None => st1
              end).
  assert (Hp2 : pending_saves st2 = []).
  { pose proof (pending_after_own_clear st1 Hok1) as H. unfold st2.
    destruct (saveTimeout st1); exact H. }
  assert (Hok2 : timers_ok st2)
    by (unfold st2; destruct (saveTimeout st1);
        [now apply timers_ok_clear | exact Hok1]).
  assert (Hn2 : next_timer st2 = next_timer st)
    by (unfold st2; destruct (saveTimeout st1); cbn; exact Hn).
  assert (Hfacts2 : localStorage st2 = localStorage st
                    /\ value (page st2) = value (page st)
                    /\ status_text (page st2) = "Saving...")
    by (unfold st2; destruct (saveTimeout st1); cbn; exact Hfacts).
  change (handleInput host st)
    with (set_saveTimeout (Some (next_timer st2))
            (snd (setTimeout SaveLater st2))).
  unfold setTimeout. cbn. rewrite Hn2.
  assert (Hpend : pending_saves
                    (set_saveTimeout (Some (next_timer st))
                       (set_next_timer (Pos.succ (next_timer st))
                          (set_timers
                             (timers st2 ++ [(next_timer st, SaveLater)])
                             st2)))
                  = [next_timer st]).
  { unfold pending_saves in *. cbn. rewrite filter_app, map_app, Hp2.
    reflexivity. }
  split; [exact Hpend|]. split; [reflexivity|].
  split; [|exact Hfacts2].
  split.
  - cbn. intros t Ht. apply in_app_or in Ht. destruct Ht as [Ht|[<-|[]]].
    + destruct Hok2 as [Hlt _]. specialize (Hlt t Ht). rewrite Hn2 in Hlt.
      lia.
    + cbn. lia.
  - right. exists (next_timer st). split; [exact Hpend | reflexivity].
Qed.

(** ** The effect of each method on the text and on what is stored *)

Ltac crunch := unfold stored_content; unfold_methods; split_cases.

Lemma saveContent_effect host st :
  reliable host ->
  value (page (saveContent host st)) = value (page st)
  /\ stored_content (saveContent host st) = Some (value (page st))
  /\ status_text (page (saveContent host st)) = "Saved".
Proof.
  intros [_ Hset]. unfold saveContent, setItem. rewrite Hset.
  crunch. auto.
Qed.

Lemma loadContent_effect host st :
  reliable host ->
  stored_content (loadContent host st) = stored_content st
  /\ value (page (loadContent host st))
     = match stored_content st with
       | Some s => normalize_newlines s
       | None => value (page st)
       end.
Proof.
  intros [Hget _]. unfold loadContent, getItem. rewrite Hget.
  unfold stored_content.
  destruct (lookup STORAGE_KEY (localStorage st)) as [s|] eqn:Hs;
    crunch; rewrite ?Hs; auto.
Qed.

Lemma clearContent_effect host st :
  reliable host ->
  value (page (clearContent host st)) = []
  /\ stored_content (clearContent host st) = Some []
  /\ modal_hidden (page (clearContent host st)) = true
  /\ focus (page (clearContent host st)) = OnTextarea
  /\ status_text (page (clearContent host st)) = "Saved".
Proof.
  intros [_ Hset]. unfold clearContent, saveContent, setItem.
  rewrite Hset. crunch; auto.
Qed.

Lemma toggleTheme_content host st :
  value (page (toggleTheme host st)) = value (page st)
  /\ stored_content (toggleTheme host st) = stored_content st.
Proof. crunch; auto. Qed.

Lemma scheme_content host dark st :
  value (page (on_scheme_change host dark st)) = value (page st)
  /\ stored_content (on_scheme_change host dark st) = stored_content st.
Proof. crunch; auto. Qed.

(** ** Every reachable state *)

Lemma same_content_refl st : same_content st st.
Proof. split; reflexivity. Qed.

Lemma same_content_trans st1 st2 st3 :
  same_content st1 st2 -> same_content st2 st3 -> same_content st1 st3.
Proof. unfold same_content. intuition congruence. Qed.

Lemma same_content_show st : same_content st (showClearConfirmation st).
Proof. unfold same_content. crunch; auto. Qed.

Lemma same_content_hide st : same_content st (hideClearConfirmation st).
Proof. unfold same_content. crunch; auto. Qed.

Lemma same_content_toggle host st : same_content st (toggleTheme host st).
Proof. split; apply toggleTheme_content. Qed.

Lemma same_content_scheme host dark st :
  same_content st (on_scheme_change host dark st).
Proof. split; apply scheme_content. Qed.

Ltac content_chain :=
  lazymatch goal with
  | |- same_content ?a ?a => apply same_content_refl
  | |- same_content _ (hideClearConfirmation _) =>
      eapply same_content_trans; [|apply same_content_hide]; content_chain
  | |- same_content _ (toggleTheme _ _) =>
      eapply same_content_trans; [|apply same_content_toggle]; content_chain
  | |- same_content _ (showClearConfirmation _) =>
      eapply same_content_trans; [|apply same_content_show]; content_chain
  end.

Lemma same_content_global host ctrlKey metaKey key st :
  same_content st (fst (handleGlobalKeydown host ctrlKey metaKey key st)).
Proof.
  unfold handleGlobalKeydown. cbn [fst].
  destruct (orb ctrlKey metaKey); destruct (String.eqb key "k");
    destruct (String.eqb key "t"); destruct (String.eqb key "Escape");
    cbn [andb];
    try match goal with
      | |- context [if negb ?b then _ else _] => destruct b
      end;
    cbn [negb]; content_chain.
Qed.

Lemma same_timers_hide st : same_timers st (hideClearConfirmation st).
Proof. apply same_timers_page. Qed.

Lemma tidy_frame st st' :
  same_timers st st' -> same_content st st' -> tidy st -> tidy st'.
Proof.
  intros Ht [Hv Hs] (Hok & Hcr & Hst & Hj).
  split; [now apply (timers_ok_same st)|].
  rewrite Hv, Hs. destruct Ht as (_ & _ & ->). auto.
Qed.

Lemma tidy_saved st' :
  timers_ok st' -> no_cr (value (page st')) ->
  stored_content st' = Some (value (page st')) -> tidy st'.
Proof.
  intros Hok Hcr Hs. split; [exact Hok|]. split; [exact Hcr|].
  split; [|auto]. intros s. rewrite Hs. intros H. now inversion H; subst.
Qed.

Lemma tidy_saveContent host st :
  reliable host -> timers_ok st -> no_cr (value (page st)) ->
  tidy (saveContent host st).
Proof.
  intros Hr Hok Hcr.
  destruct (saveContent_effect host st Hr) as (Hv & Hs & _).
  apply tidy_saved.
  - now apply (timers_ok_same st); [apply same_timers_saveContent|].
  - now rewrite Hv.
  - now rewrite Hv.
Qed.

Lemma tidy_handleInput host st :
  timers_ok st -> no_cr (value (page st)) ->
  (forall s, stored_content st = Some s -> no_cr s) ->
  tidy (handleInput host st).
Proof.
  intros Hok Hcr Hst.
  destruct (handleInput_schedules host st Hok)
    as (_ & Hs & Hok' & Hl & Hv & _).
  split; [exact Hok'|]. rewrite Hv. split; [exact Hcr|].
  unfold stored_content. rewrite Hl. split; [exact Hst|].
  left. rewrite Hs. discriminate.
Qed.

Lemma tidy_clear id st : tidy st -> timers_ok (clearTimeout id st)
                                   /\ no_cr (value (page (clearTimeout id st))).
Proof.
  intros (Hok & Hcr & _). split; [now apply timers_ok_clear | exact Hcr].
Qed.

Lemma step_tidy host st ev :
  reliable host -> tidy st -> tidy (step host st ev).
Proof.
  intros Hr Ht. pose proof Ht as (Hok & Hcr & Hst & Hj).
  destruct ev as [v s e|in_textarea ctrlKey metaKey key|id| | | | | |b| |dark];
    cbn [step].
  - (* the user edits *)
    apply tidy_handleInput.
    + now apply (timers_ok_same st); [apply same_timers_page|].
    + cbn. rewrite value_select. cbn. apply normalize_no_cr.
    + exact Hst.
  - (* a key *)
    eapply tidy_frame;
      [apply same_timers_global | apply same_content_global |].
    destruct in_textarea; [|exact Ht].
    unfold handleKeydown. destruct (String.eqb key "Tab"); [|exact Ht].
    cbn [fst]. apply tidy_handleInput.
    + now apply (timers_ok_same st); [apply same_timers_page|].
    + cbn. rewrite value_select, value_assign. apply normalize_no_cr.
    + exact Hst.
  - (* a timer *)
    unfold fire. destruct (find _ (timers st)) as [[i [|]]|]; [| |exact Ht].
    + destruct (tidy_clear id st Ht). now apply tidy_saveContent.
    + eapply tidy_frame; [apply same_timers_page | |].
      * split; cbn; [now rewrite value_select | reflexivity].
      * split; [now apply timers_ok_clear|]. cbn. auto.
  - (* the window gets the focus *)
    unfold handleWindowFocus.
    destruct (loadContent_effect host st Hr) as [Hs Hv].
    assert (Hok' : timers_ok (loadContent host st))
      by (now apply (timers_ok_same st); [apply same_timers_loadContent|]).
    destruct (stored_content st) as [s0|] eqn:Hs0.
    + rewrite (normalize_fixed s0 (Hst s0 eq_refl)) in Hv.
      apply tidy_saved; [exact Hok' | | now rewrite Hv, Hs].
      rewrite Hv. now apply Hst.
    + eapply tidy_frame; [apply same_timers_loadContent | | exact Ht].
      split; [exact Hv | now rewrite Hs, Hs0].
  - (* the page is about to unload *)
    unfold handleBeforeUnload. destruct (saveTimeout st); [|exact Ht].
    destruct (tidy_clear p st Ht). now apply tidy_saveContent.
  - eapply tidy_frame;
      [apply same_timers_show | apply same_content_show | exact Ht].
  - (* the clearing is confirmed *)
    destruct (clearContent_effect host st Hr) as (Hv & Hs & _).
    apply tidy_saved.
    + now apply (timers_ok_same st); [apply same_timers_clearContent|].
    + rewrite Hv. intros [].
    + now rewrite Hv.
  - eapply tidy_frame;
      [apply same_timers_hide | apply same_content_hide | exact Ht].
  - unfold handleModalClick. destruct b; [|exact Ht].
    eapply tidy_frame;
      [apply same_timers_hide | apply same_content_hide | exact Ht].
  - eapply tidy_frame;
      [apply same_timers_toggleTheme | apply same_content_toggle | exact Ht].
  - eapply tidy_frame;
      [apply same_timers_scheme | apply same_content_scheme | exact Ht].
Qed.

Lemma run_tidy host st evs :
  reliable host -> tidy st -> tidy (run host st evs).
Proof.
  intros Hr. unfold run. revert st.
  induction evs as [|ev evs IH]; intros st Ht; [exact Ht|].
  cbn. apply IH. now apply step_tidy.
Qed.

(** ** From the constructor on *)

Lemma same_timers_loadTheme host st : same_timers st (loadTheme host st).
Proof. unfold same_timers. unfold_methods. split_cases; cbn; auto. Qed.

Lemma same_content_loadTheme host st : same_content st (loadTheme host st).
Proof. unfold same_content. crunch; auto. Qed.

Lemma same_content_placeholder st :
  same_content st (updatePlaceholderVisibility st).
Proof. unfold same_content. crunch; auto. Qed.

Lemma same_timers_register host st :
  same_timers st (registerServiceWorker host st).
Proof. unfold same_timers. unfold_methods. split_cases; cbn; auto. Qed.

Lemma same_content_register host st :
  same_content st (registerServiceWorker host st).
Proof. unfold same_content. crunch; auto. Qed.

Lemma timers_ok_focus_timer st :
  timers_ok st -> timers_ok (snd (setTimeout FocusLater st)).
Proof.
  intros [Hlt Hp]. unfold setTimeout. cbn [snd]. split.
  - cbn. intros t Ht. apply in_app_or in Ht. destruct Ht as [Ht|[<-|[]]].
    + specialize (Hlt t Ht). lia.
    + cbn. lia.
  - unfold pending_saves in *. cbn. rewrite filter_app, map_app. cbn.
    rewrite app_nil_r. exact Hp.
Qed.

(** [init_app] adds the timer of the focus and, for the rest, leaves the
    text and the storage as [loadContent] left them. *)
Lemma same_content_count host st : same_content st (updateCharCount host st).
Proof. split; reflexivity. Qed.

Lemma init_content host st :
  same_content (loadContent host st) (init_app host st)
  /\ saveTimeout (init_app host st) = saveTimeout st
  /\ status_text (page (init_app host st))
     = status_text (page (loadContent host st)).
Proof.
  unfold init_app, setTimeout. cbn [snd].
  set (st1 := loadContent host st).
  assert (Hs : saveTimeout st1 = saveTimeout st)
    by apply same_timers_loadContent.
  rewrite <- Hs. clearbody st1. clear Hs.
  set (st2 := loadTheme host st1).
  set (st3 := updateCharCount host st2).
  set (st4 := updatePlaceholderVisibility st3).
  set (st5 := registerServiceWorker host st4).
  assert (H2 : same_content st1 st2 /\ same_timers st1 st2
               /\ status_text (page st2) = status_text (page st1)).
  { split; [apply same_content_loadTheme|].
    split; [apply same_timers_loadTheme|].
    unfold st2. unfold_methods. split_cases; reflexivity. }
  assert (H3 : same_content st2 st3 /\ same_timers st2 st3
               /\ status_text (page st3) = status_text (page st2)).
  { split; [apply same_content_count|].
    split; [apply same_timers_count | reflexivity]. }
  assert (H4 : same_content st3 st4 /\ same_timers st3 st4
               /\ status_text (page st4) = status_text (page st3)).
  { split; [apply same_content_placeholder|].
    split; [apply same_timers_placeholder|].
    unfold st4. unfold_methods. split_cases; reflexivity. }
  assert (H5 : same_content st4 st5 /\ same_timers st4 st5
               /\ status_text (page st5) = status_text (page st4)).
  { split; [apply same_content_register|].
    split; [apply same_timers_register|].
    unfold st5. unfold_methods. split_cases; reflexivity. }
  clearbody st5 st4 st3 st2.
  unfold same_content, same_timers, stored_content in *. cbn.
  intuition congruence.
Qed.

Lemma init_timers_ok host st : timers_ok st -> timers_ok (init_app host st).
Proof.
  intros Hok. unfold init_app. apply timers_ok_focus_timer.
  repeat first
    [ exact Hok
    | eapply timers_ok_same; [apply same_timers_register|]
    | eapply timers_ok_same; [apply same_timers_placeholder|]
    | eapply timers_ok_same; [apply same_timers_count|]
    | eapply timers_ok_same; [apply same_timers_loadTheme|]
    | eapply timers_ok_same; [apply same_timers_loadContent|] ].
Qed.

Lemma start_timers_ok host p storage : timers_ok (start host p storage).
Proof.
  apply init_timers_ok. split; [intros t []|]. left. reflexivity.
Qed.

Lemma step_timers_ok host st ev : timers_ok st -> timers_ok (step host st ev).
Proof.
  intros Hok.
  destruct ev as [v s e|in_textarea ctrlKey metaKey key|id| | | | | |b| |dark];
    cbn [step].
  - apply handleInput_schedules.
    now apply (timers_ok_same st); [apply same_timers_page|].
  - eapply timers_ok_same; [apply same_timers_global|].
    destruct in_textarea; [|exact Hok].
    unfold handleKeydown. destruct (String.eqb key "Tab"); [|exact Hok].
    cbn [fst]. apply handleInput_schedules.
    now apply (timers_ok_same st); [apply same_timers_page|].
  - unfold fire. destruct (find _ (timers st)) as [[i [|]]|]; [| |exact Hok].
    + eapply timers_ok_same; [apply same_timers_saveContent|].
      now apply timers_ok_clear.
    + eapply timers_ok_same; [apply same_timers_page|].
      now apply timers_ok_clear.
  - eapply timers_ok_same; [apply same_timers_loadContent | exact Hok].
  - unfold handleBeforeUnload. destruct (saveTimeout st); [|exact Hok].
    eapply timers_ok_same; [apply same_timers_saveContent|].
    now apply timers_ok_clear.
  - eapply timers_ok_same; [apply same_timers_show | exact Hok].
  - eapply timers_ok_same; [apply same_timers_clearContent | exact Hok].
  - eapply timers_ok_same; [apply same_timers_hide | exact Hok].
  - unfold handleModalClick. destruct b; [|exact Hok].
    eapply timers_ok_same; [apply same_timers_hide | exact Hok].
  - eapply timers_ok_same; [apply same_timers_toggleTheme | exact Hok].
  - eapply timers_ok_same; [apply same_timers_scheme | exact Hok].
Qed.

Lemma run_timers_ok host st evs :
  timers_ok st -> timers_ok (run host st evs).
Proof.
  unfold run. revert st.
  induction evs as [|ev evs IH]; intros st Hok; [exact Hok|].
  cbn. apply IH. now apply step_timers_ok.
Qed.

Lemma run_snoc host st evs ev :
  run host st (evs ++ [ev]) = step host (run host st evs) ev.
Proof. unfold run. now rewrite fold_left_app. Qed.

(** X15. Debouncing: whatever events the page has seen since the
    constructor ran, at most one save is pending, and it is the one
    whose handle [saveTimeout] holds. *)
Theorem at_most_one_save_pending :
  forall host p storage evs,
    (List.length (pending_saves (run host (start host p storage) evs)) <= 1)%nat
    /\ (forall id,
          In id (pending_saves (run host (start host p storage) evs)) ->
          saveTimeout (run host (start host p storage) evs) = Some id).
Proof.
  intros host p storage evs.
  destruct (run_timers_ok host _ evs (start_timers_ok host p storage))
    as [_ [->|(id & -> & Hid)]].
  - split; [cbn; lia | intros id []].
  - split; [cbn; lia | intros id' [<-|[]]; exact Hid].
Qed.

(** ** Saving *)

Lemma find_after {A} (f : A -> bool) (l l' : list A) :
  (forall t, In t l -> f t = false) -> find f (l ++ l') = find f l'.
Proof.
  induction l as [|t l IH]; intros H; [reflexivity|].
  cbn. rewrite (H t) by now left. apply IH. intros t' Ht'. apply H. now right.
Qed.

Lemma handleInput_timer host st :
  timers_ok st ->
  find (fun t => Pos.eqb (fst t) (next_timer st))
    (timers (handleInput host st))
  = Some (next_timer st, SaveLater).
Proof.
  intros [Hlt _].
  set (st1 := setSaveStatus "saving"
                (updatePlaceholderVisibility (updateCharCount host st))).
  assert (Hsame : same_timers st st1)
    by (unfold st1, same_timers; unfold_methods; split_cases; cbn; auto).
  destruct Hsame as (Ht & Hn & _).
  set (st2 := match saveTimeout st1 with
              | Some id => clearTimeout id st1
              | None => st1
              end).
  assert (Hn2 : next_timer st2 = next_timer st)
    by (unfold st2; destruct (saveTimeout st1); cbn; exact Hn).
  assert (Hlt2 : forall t, In t (timers st2) ->
                           (fst t < next_timer st)%positive).
  { intros t Hin. apply Hlt. unfold st2 in Hin.
    destruct (saveTimeout st1); cbn in Hin.
    - apply filter_In in Hin. rewrite <- Ht. tauto.
    - now rewrite <- Ht. }
  change (handleInput host st)
    with (set_saveTimeout (Some (next_timer st2))
            (snd (setTimeout SaveLater st2))).
  unfold setTimeout. cbn. rewrite Hn2, find_after.
  - cbn. now rewrite Pos.eqb_refl.
  - intros t Hin. apply Pos.eqb_neq. specialize (Hlt2 t Hin). lia.
Qed.

Lemma saveContent_stores host st :
  setItem_throws host STORAGE_KEY (value (page st)) = false ->
  value (page (saveContent host st)) = value (page st)
  /\ stored_content (saveContent host st) = Some (value (page st))
  /\ status_text (page (saveContent host st)) = "Saved".
Proof.
  intros Hset. unfold saveContent, setItem. rewrite Hset. crunch. auto.
Qed.

(** X16. After an edit, whatever came before it, the storage is as it
    was and exactly one save is pending; when that timer fires the
    stored content is the text of the edit, nothing is pending and the
    status reads "Saved". *)
Theorem latest_edit_is_saved_when_the_timer_fires :
  forall host p storage evs v s e,
    setItem_throws host STORAGE_KEY (normalize_newlines v) = false ->
    localStorage (run host (start host p storage) (evs ++ [UserInput v s e]))
    = localStorage (run host (start host p storage) evs)
    /\ exists id,
         pending_saves
           (run host (start host p storage) (evs ++ [UserInput v s e]))
         = [id]
         /\ stored_content
              (run host (start host p storage)
                 (evs ++ [UserInput v s e; TimerFires id]))
            = Some (normalize_newlines v)
         /\ pending_saves
              (run host (start host p storage)
                 (evs ++ [UserInput v s e; TimerFires id]))
            = []
         /\ status_text
              (page (run host (start host p storage)
                       (evs ++ [UserInput v s e; TimerFires id])))
            = "Saved".
Proof.
  intros host p storage evs v s e Hset.
  assert (Hrun2 : forall id,
             run host (start host p storage)
               (evs ++ [UserInput v s e; TimerFires id])
             = step host
                 (run host (start host p storage) (evs ++ [UserInput v s e]))
                 (TimerFires id)).
  { intros id.
    change [UserInput v s e; TimerFires id]
      with ([UserInput v s e] ++ [TimerFires id]).
    now rewrite app_assoc, run_snoc. }
  rewrite run_snoc.
  set (st := run host (start host p storage) evs) in *.
  assert (Hok : timers_ok st)
    by apply run_timers_ok, start_timers_ok.
  cbn [step].
  set (st0 := on_page _ st).
  assert (Hok0 : timers_ok st0)
    by (now apply (timers_ok_same st); [apply same_timers_page|]).
  assert (Hv0 : value (page st0) = normalize_newlines v)
    by (unfold st0; cbn; now rewrite value_select).
  destruct (handleInput_schedules host st0 Hok0)
    as (Hp & Hs & Hok1 & Hl & Hv & _).
  pose proof (handleInput_timer host st0 Hok0) as Hfind.
  split; [exact Hl|].
  exists (next_timer st0). split; [exact Hp|].
  rewrite (Hrun2 (next_timer st0)). rewrite run_snoc.
  fold st. cbn [step]. fold st0. unfold fire. rewrite Hfind.
  set (st1 := clearTimeout (next_timer st0) (handleInput host st0)).
  assert (Hv1 : value (page st1) = normalize_newlines v)
    by (unfold st1, clearTimeout; cbn [page set_timers]; now rewrite Hv).
  destruct (saveContent_stores host st1) as (_ & Hst & Hstatus);
    [now rewrite Hv1|].
  rewrite Hv1 in Hst. split; [exact Hst|]. split; [|exact Hstatus].
  rewrite (pending_saves_same st1) by apply same_timers_saveContent.
  unfold st1. rewrite pending_saves_clear, Hp. cbn.
  now rewrite Pos.eqb_refl.
Qed.

(** ** Leaving and coming back *)

Lemma start_tidy host p storage :
  reliable host ->
  value p = [] ->
  (forall s, lookup STORAGE_KEY storage = Some s -> no_cr s) ->
  tidy (start host p storage).
Proof.
  intros Hr Hp Hst. unfold start.
  set (st0 := {| page := p; localStorage := storage; saveTimeout := None;
                 timers := []; next_timer := 1; theme_listener := false;
                 console := [] |}).
  destruct (init_content host st0) as ([Hv Hs] & _ & _).
  destruct (loadContent_effect host st0 Hr) as [Hls Hlv].
  assert (Hok : timers_ok (init_app host st0)) by apply start_timers_ok.
  change (stored_content st0) with (lookup STORAGE_KEY storage) in *.
  destruct (lookup STORAGE_KEY storage) as [s|] eqn:Hlook.
  - rewrite (normalize_fixed s (Hst s eq_refl)) in Hlv.
    apply tidy_saved; [exact Hok | | congruence].
    rewrite Hv, Hlv. now apply Hst.
  - split; [exact Hok|]. rewrite Hv, Hlv, Hs, Hls. cbn [page value st0].
    rewrite Hp. split; [intros []|]. split; [discriminate|].
    right. left. reflexivity.
Qed.

Lemma tidy_unload host st :
  reliable host -> tidy st ->
  unload_warning host (handleBeforeUnload host st) = false
  /\ (saveTimeout st <> None ->
      stored_content (handleBeforeUnload host st) = Some (value (page st))).
Proof.
  intros Hr Ht. pose proof Hr as [Hget _].
  assert (Hsaved : forall st', stored_content st' = Some (value (page st')) ->
                               isContentSaved host st' = true).
  { intros st' H. unfold isContentSaved, getItem. rewrite Hget.
    unfold stored_content in H. rewrite H. apply text_eqb_refl. }
  unfold handleBeforeUnload, unload_warning.
  destruct (saveTimeout st) as [id|] eqn:Hs.
  - destruct (saveContent_effect host (clearTimeout id st) Hr)
      as (Hv & Hst & _).
    split; [|intros _; exact Hst].
    rewrite Hsaved by (now rewrite Hv). apply andb_false_r.
  - split; [|intros H; now elim H].
    destruct Ht as (_ & _ & _ & [H|[H|H]]).
    + now elim H.
    + now rewrite H.
    + rewrite (Hsaved st H). apply andb_false_r.
Qed.

(** X17. With a storage that works, a textarea that starts empty and a
    stored content without carriage returns, leaving is never held
    back: after the beforeunload listener has run, the text is blank or
    it is what the storage holds; and once an edit has been made, what
    the storage holds then is the text. *)
Theorem leaving_never_loses_text :
  forall host p storage evs,
    reliable host ->
    value p = [] ->
    (forall s, lookup STORAGE_KEY storage = Some s -> no_cr s) ->
    unload_warning host
      (run host (start host p storage) (evs ++ [BeforeUnload])) = false
    /\ (saveTimeout (run host (start host p storage) evs) <> None ->
        stored_content
          (run host (start host p storage) (evs ++ [BeforeUnload]))
        = Some (value (page (run host (start host p storage) evs)))).
Proof.
  intros host p storage evs Hr Hp Hst. rewrite run_snoc. cbn [step].
  apply tidy_unload; [exact Hr|].
  apply run_tidy; [exact Hr|]. now apply start_tidy.
Qed.

(** X18. What [saveContent] stored is what the next session starts
    with: the constructor over that storage, on any page, shows the
    saved text, with the status "Saved". *)
Theorem saved_text_survives_reload :
  forall host st p,
    reliable host ->
    no_cr (value (page st)) ->
    value (page (start host p (localStorage (saveContent host st))))
    = value (page st)
    /\ status_text (page (start host p (localStorage (saveContent host st))))
       = "Saved"
    /\ isContentSaved host
         (start host p (localStorage (saveContent host st))) = true.
Proof.
  intros host st p Hr Hcr. pose proof Hr as [Hget _].
  destruct (saveContent_effect host st Hr) as (_ & Hst & _).
  unfold start.
  set (st0 := {| page := p; localStorage := _; saveTimeout := None;
                 timers := []; next_timer := 1; theme_listener := false;
                 console := [] |}).
  assert (Hst0 : stored_content st0 = Some (value (page st))) by exact Hst.
  destruct (init_content host st0) as ([Hv Hs] & _ & Hstatus).
  destruct (loadContent_effect host st0 Hr) as [Hls Hlv].
  rewrite Hst0, (normalize_fixed _ Hcr) in Hlv.
  split; [congruence|]. split.
  - rewrite Hstatus. unfold loadContent, getItem. rewrite Hget.
    unfold stored_content in Hst0. rewrite Hst0. reflexivity.
  - unfold isContentSaved, getItem. rewrite Hget.
    rewrite Hls in Hs. unfold stored_content in Hs, Hst0.
    rewrite Hs, Hst0, Hv, Hlv. apply text_eqb_refl.
Qed.

(** X19. The window getting the focus reloads the stored content over
    an edit whose save is still pending: the textarea shows the stored
    content again, and that, not the edit, is what the pending save
    writes when its timer fires. *)
Theorem window_focus_discards_a_pending_edit :
  forall host st v s e saved,
    reliable host ->
    timers_ok st ->
    stored_content st = Some saved ->
    value (page (run host st [UserInput v s e; WindowFocus]))
    = normalize_newlines saved
    /\ stored_content (run host st [UserInput v s e; WindowFocus])
       = Some saved
    /\ exists id,
         pending_saves (run host st [UserInput v s e; WindowFocus]) = [id]
         /\ stored_content
              (run host st [UserInput v s e; WindowFocus; TimerFires id])
            = Some (normalize_newlines saved).
Proof.
  intros host st v s e saved Hr Hok Hst.
  change (run host st [UserInput v s e; WindowFocus])
    with (loadContent host (step host st (UserInput v s e))).
  assert (Hfire : forall id,
             run host st [UserInput v s e; WindowFocus; TimerFires id]
             = fire host id
                 (loadContent host (step host st (UserInput v s e))))
    by reflexivity.
  cbn [step]. cbn [step] in Hfire.
  set (st0 := on_page _ st) in *.
  assert (Hok0 : timers_ok st0)
    by (now apply (timers_ok_same st); [apply same_timers_page|]).
  destruct (handleInput_schedules host st0 Hok0)
    as (Hp & Hs & Hok1 & Hl & Hv & _).
  pose proof (handleInput_timer host st0 Hok0) as Hfind.
  set (st1 := handleInput host st0) in *.
  assert (Hst1 : stored_content st1 = Some saved)
    by (unfold stored_content; rewrite Hl; exact Hst).
  destruct (loadContent_effect host st1 Hr) as [Hls Hlv].
  rewrite Hst1 in Hlv.
  split; [exact Hlv|]. split; [congruence|].
  exists (next_timer st0).
  assert (Hsame := same_timers_loadContent host st1).
  split; [now rewrite (pending_saves_same _ _ Hsame)|].
  rewrite Hfire. unfold fire.
  destruct Hsame as (Ht & _ & _). rewrite Ht, Hfind.
  destruct (saveContent_effect host
              (clearTimeout (next_timer st0) (loadContent host st1)) Hr)
    as (_ & Hsaved & _).
  rewrite Hsaved. cbn [clearTimeout page set_timers]. now rewrite Hlv.
Qed.

(** ** When saving fails *)

(** X20. When the storage refuses the write, the beforeunload listener
    does not throw: the status reads "Error saving", the failure is on
    the console, text and storage are as they were, and for a text that
    is neither blank nor stored the second listener holds the leaving
    back. *)
Theorem failed_save_holds_back_leaving :
  forall host st,
    getItem_throws host = false ->
    setItem_throws host STORAGE_KEY (value (page st)) = true ->
    saveTimeout st <> None ->
    blank (value (page st)) = false ->
    stored_content st <> Some (value (page st)) ->
    unload_warning host (handleBeforeUnload host st) = true
    /\ status_text (page (handleBeforeUnload host st)) = "Error saving"
    /\ localStorage (handleBeforeUnload host st) = localStorage st
    /\ value (page (handleBeforeUnload host st)) = value (page st)
    /\ In "Failed to save content to localStorage:"
          (console (handleBeforeUnload host st)).
Proof.
  intros host st Hget Hset Hs Hb Hst.
  unfold handleBeforeUnload, unload_warning, isContentSaved, getItem.
  destruct (saveTimeout st) as [id|]; [|now elim Hs].
  unfold saveContent, setItem.
  change (value (page (clearTimeout id st))) with (value (page st)).
  rewrite Hset, Hget. unfold_methods. cbn. rewrite Hb.
  unfold stored_content in Hst.
  split; [|repeat split; apply in_or_app; right; now left].
  destruct (lookup STORAGE_KEY (localStorage st)) as [s|] eqn:Hl.
  - destruct (text_eqb (value (page st)) s) eqn:He; [|reflexivity].
    apply text_eqb_eq in He. congruence.
  - destruct (text_eqb (value (page st)) []) eqn:He; [|reflexivity].
    apply text_eqb_eq in He. rewrite He in Hb. discriminate.
Qed.

(** ** Clearing *)

(** X21. Clearing asks first, and only when there is something to
    clear: on a blank text the clear button does nothing; otherwise it
    opens the dialog without touching text or storage, cancelling (the
    cancel button, a click on the backdrop, the Escape key) closes it
    with text and storage as they were, and confirming empties both and
    closes it. *)
Theorem clearing_needs_confirmation :
  forall host st,
    reliable host ->
    (blank (value (page st)) = true -> step host st ClickClear = st)
    /\ (blank (value (page st)) = false ->
        modal_hidden (page (step host st ClickClear)) = false
        /\ same_content st (step host st ClickClear)
        /\ (forall ev,
              In ev [ClickCancel; ClickModal true;
                     Keydown false false false "Escape"] ->
              same_content st (run host st [ClickClear; ev])
              /\ modal_hidden (page (run host st [ClickClear; ev])) = true)
        /\ value (page (run host st [ClickClear; ClickConfirm])) = []
        /\ stored_content (run host st [ClickClear; ClickConfirm]) = Some []
        /\ modal_hidden (page (run host st [ClickClear; ClickConfirm]))
           = true).
Proof.
  intros host st Hr. cbn [run fold_left step].
  unfold showClearConfirmation. split; intros Hb; rewrite Hb; [reflexivity|].
  split; [reflexivity|]. split; [split; reflexivity|].
  split.
  - intros ev [<-|[<-|[<-|[]]]]; cbn; split; split; reflexivity.
  - destruct (clearContent_effect host
                (on_page (fun p => set_focus OnConfirmClear
                                     (set_modal_hidden false p)) st) Hr)
      as (Hv & Hs & Hm & _).
    auto.
Qed.

(** ** The Tab key *)

Lemma substring_prefix (v : Text) (n : nat) :
  (n <= List.length v)%nat -> substring v 0 n = firstn n v.
Proof.
  intros H. unfold substring.
  rewrite Nat.min_0_l, (Nat.min_l n) by exact H.
  now rewrite Nat.min_0_l, Nat.max_0_l, Nat.sub_0_r.
Qed.

Lemma substring_suffix (v : Text) (n : nat) :
  (n <= List.length v)%nat -> substring_from v n = skipn n v.
Proof. intros H. unfold substring_from. now rewrite Nat.min_l. Qed.

Lemma handleInput_page host st :
  value (page (handleInput host st)) = value (page st)
  /\ selectionStart (page (handleInput host st)) = selectionStart (page st)
  /\ selectionEnd (page (handleInput host st)) = selectionEnd (page st)
  /\ localStorage (handleInput host st) = localStorage st
  /\ saveTimeout (handleInput host st) <> None.
Proof.
  set (st1 := setSaveStatus "saving"
                (updatePlaceholderVisibility (updateCharCount host st))).
  assert (H1 : value (page st1) = value (page st)
               /\ selectionStart (page st1) = selectionStart (page st)
               /\ selectionEnd (page st1) = selectionEnd (page st)
               /\ localStorage st1 = localStorage st)
    by (unfold st1; unfold_methods; split_cases; auto).
  set (st2 := match saveTimeout st1 with
              | Some id => clearTimeout id st1
              | None => st1
              end).
  assert (H2 : page st2 = page st1 /\ localStorage st2 = localStorage st1)
    by (unfold st2; destruct (saveTimeout st1); split; reflexivity).
  change (handleInput host st)
    with (set_saveTimeout (Some (next_timer st2))
            (snd (setTimeout SaveLater st2))).
  unfold setTimeout. cbn. destruct H2 as [-> ->].
  repeat split; try apply H1. discriminate.
Qed.

(** X22. The Tab key in the textarea does not leave it: the selection
    is replaced by four spaces, the text before and after it is kept,
    the caret is put after the spaces, a save is scheduled and the
    storage is not written yet. *)
Theorem tab_replaces_the_selection_with_four_spaces :
  forall host st,
    no_cr (value (page st)) ->
    (selectionStart (page st) <= selectionEnd (page st))%nat ->
    (selectionEnd (page st) <= List.length (value (page st)))%nat ->
    snd (handleKeydown host "Tab" st) = true
    /\ value (page (fst (handleKeydown host "Tab" st)))
       = firstn (selectionStart (page st)) (value (page st))
         ++ text "    "
         ++ skipn (selectionEnd (page st)) (value (page st))
    /\ selectionStart (page (fst (handleKeydown host "Tab" st)))
       = (selectionStart (page st) + 4)%nat
    /\ selectionEnd (page (fst (handleKeydown host "Tab" st)))
       = (selectionStart (page st) + 4)%nat
    /\ (List.length (value (page (fst (handleKeydown host "Tab" st))))
        + (selectionEnd (page st) - selectionStart (page st))
        = List.length (value (page st)) + 4)%nat
    /\ saveTimeout (fst (handleKeydown host "Tab" st)) <> None
    /\ localStorage (fst (handleKeydown host "Tab" st)) = localStorage st.
Proof.
  intros host st Hcr Hse Hel.
  set (start := selectionStart (page st)) in *.
  set (end_ := selectionEnd (page st)) in *.
  set (v := value (page st)) in *.
  unfold handleKeydown. cbn [String.eqb Ascii.eqb Bool.eqb fst snd].
  fold start end_ v.
  rewrite substring_prefix, substring_suffix by lia.
  set (v' := firstn start v ++ text "    " ++ skipn end_ v).
  assert (Hcr' : no_cr v').
  { unfold v'. apply no_cr_app; [now apply no_cr_firstn|].
    apply no_cr_app; [|now apply no_cr_skipn].
    unfold no_cr. cbv. intuition discriminate. }
  assert (Hlen : List.length v' = (start + 4 + (List.length v - end_))%nat).
  { unfold v'. rewrite !length_app, length_firstn, length_skipn.
    change (List.length (text "    ")) with 4%nat. lia. }
  set (st1 := on_page _ st).
  assert (Hv1 : value (page st1) = v').
  { unfold st1. cbn. rewrite value_select, value_assign.
    now apply normalize_fixed. }
  assert (Hsel : selectionStart (page st1) = (start + 4)%nat
                 /\ selectionEnd (page st1) = (start + 4)%nat).
  { unfold st1. cbn. unfold setSelectionRange.
    rewrite value_assign, (normalize_fixed _ Hcr'), Hlen.
    rewrite Nat.min_l by lia. rewrite Nat.leb_refl. cbn. auto. }
  destruct (handleInput_page host st1) as (Hv & Hs & He & Hl & Ht).
  split; [reflexivity|]. rewrite Hv, Hs, He, Hv1, Hl.
  destruct Hsel as [-> ->].
  repeat split; auto. rewrite Hlen. lia.
Qed.

Lemma tab_replaces_the_selection_with_four_spaces_witness :
  snd (handleKeydown english "Tab" draft) = true
  /\ value (page (fst (handleKeydown english "Tab" draft)))
     = firstn (selectionStart (page draft)) (value (page draft))
       ++ text "    "
       ++ skipn (selectionEnd (page draft)) (value (page draft))
  /\ selectionStart (page (fst (handleKeydown english "Tab" draft)))
     = (selectionStart (page draft) + 4)%nat
  /\ selectionEnd (page (fst (handleKeydown english "Tab" draft)))
     = (selectionStart (page draft) + 4)%nat
  /\ (List.length (value (page (fst (handleKeydown english "Tab" draft))))
      + (selectionEnd (page draft) - selectionStart (page draft))
      = List.length (value (page draft)) + 4)%nat
  /\ saveTimeout (fst (handleKeydown english "Tab" draft)) <> None
  /\ localStorage (fst (handleKeydown english "Tab" draft))
     = localStorage draft.
Proof.
  apply (tab_replaces_the_selection_with_four_spaces english draft).
  - unfold no_cr. vm_compute. intuition discriminate.
  - vm_compute. lia.
  - vm_compute. lia.
Defined.

(** ** Themes *)

Lemma applyTheme_theme theme st :
  data_theme (page (applyTheme theme st)) = Some theme
  /\ localStorage (applyTheme theme st) = localStorage st
  /\ toggle_title (page (applyTheme theme st))
     = (if text_eqb theme (text "dark") then "Switch to light theme"
        else "Switch to dark theme")
  /\ (meta_theme_color (page st) <> None ->
      meta_theme_color (page (applyTheme theme st))
      = Some (if text_eqb theme (text "dark") then "#1a1a1a" else "#ffffff")).
Proof.
  unfold applyTheme, on_page.
  destruct (meta_theme_color (page st)) eqn:Hm;
    destruct (text_eqb theme (text "dark")); cbn; rewrite ?Hm;
    repeat split; intros H; now elim H.
Qed.

Lemma toggleTheme_theme host st :
  data_theme (page (toggleTheme host st))
  = Some (match data_theme (page st) with
          | Some currentTheme =>
              if text_eqb currentTheme (text "dark")
              then text "light" else text "dark"
          | None => text "dark"
          end).
Proof.
  unfold toggleTheme, setItem.
  destruct (setItem_throws host THEME_KEY _); cbn; apply applyTheme_theme.
Qed.

Lemma toggleTheme_stored host st :
  (forall v, setItem_throws host THEME_KEY v = false) ->
  lookup THEME_KEY (localStorage (toggleTheme host st))
  = data_theme (page (toggleTheme host st)).
Proof.
  intros Hset. rewrite toggleTheme_theme. unfold toggleTheme, setItem.
  rewrite Hset. cbn. now rewrite lookup_store_same.
Qed.

Lemma toggleTheme_never_empty host st :
  exists c t, data_theme (page (toggleTheme host st)) = Some (c :: t).
Proof.
  rewrite toggleTheme_theme. destruct (data_theme (page st)) as [th|].
  - destruct (text_eqb th (text "dark")); cbv; eauto.
  - cbv. eauto.
Qed.

(** X23. The theme toggle: from dark it goes to light, from anything
    else to dark, so two toggles give back a dark or light theme; the
    new theme is stored when the storage takes it, and applied all the
    same, with the failure on the console, when it does not. *)
Theorem theme_toggle_alternates :
  forall host st,
    (data_theme (page st) = Some (text "dark") ->
     data_theme (page (toggleTheme host st)) = Some (text "light"))
    /\ (data_theme (page st) <> Some (text "dark") ->
        data_theme (page (toggleTheme host st)) = Some (text "dark"))
    /\ (data_theme (page st) = Some (text "dark")
        \/ data_theme (page st) = Some (text "light") ->
        data_theme (page (toggleTheme host (toggleTheme host st)))
        = data_theme (page st))
    /\ ((forall v, setItem_throws host THEME_KEY v = false) ->
        lookup THEME_KEY (localStorage (toggleTheme host st))
        = data_theme (page (toggleTheme host st)))
    /\ ((forall v, setItem_throws host THEME_KEY v = true) ->
        localStorage (toggleTheme host st) = localStorage st
        /\ In "Failed to save theme preference:"
              (console (toggleTheme host st))).
Proof.
  intros host st.
  assert (Hdark : data_theme (page st) = Some (text "dark") ->
                  data_theme (page (toggleTheme host st))
                  = Some (text "light"))
    by (intros H; rewrite toggleTheme_theme, H; reflexivity).
  assert (Hother : data_theme (page st) <> Some (text "dark") ->
                   data_theme (page (toggleTheme host st))
                   = Some (text "dark")).
  { intros H. rewrite toggleTheme_theme.
    destruct (data_theme (page st)) as [t|]; [|reflexivity].
    destruct (text_eqb t (text "dark")) eqn:He; [|reflexivity].
    apply text_eqb_eq in He. congruence. }
  split; [exact Hdark|]. split; [exact Hother|]. split; [|split].
  - intros [H|H].
    + rewrite (toggleTheme_theme host (toggleTheme host st)), (Hdark H), H.
      reflexivity.
    + rewrite (toggleTheme_theme host (toggleTheme host st)), Hother, H;
        [reflexivity|].
      rewrite H. discriminate.
  - apply toggleTheme_stored.
  - intros Hset. unfold toggleTheme, setItem. rewrite Hset.
    unfold log. cbn. split; [reflexivity|].
    apply in_or_app. right. now left.
Qed.

Lemma data_theme_assign v p : data_theme (assign_value v p) = data_theme p.
Proof. unfold assign_value. destruct (text_eqb _ _); reflexivity. Qed.

Lemma loadContent_theme host st :
  data_theme (page (loadContent host st)) = data_theme (page st)
  /\ lookup THEME_KEY (localStorage (loadContent host st))
     = lookup THEME_KEY (localStorage st)
  /\ theme_listener (loadContent host st) = theme_listener st.
Proof.
  unfold loadContent, getItem.
  destruct (getItem_throws host); [repeat split|].
  destruct (lookup STORAGE_KEY (localStorage st)) as [s|]; [|repeat split].
  unfold setSaveStatus, updatePlaceholderVisibility, updateCharCount,
    on_page.
  cbn. rewrite placeholder_assign.
  destruct (placeholder (page st)); cbn;
    [destruct (blank (value (assign_value s (page st)))); cbn|];
    rewrite data_theme_assign; repeat split.
Qed.

Lemma init_theme host st :
  data_theme (page (init_app host st))
  = data_theme (page (loadTheme host (loadContent host st)))
  /\ theme_listener (init_app host st)
     = theme_listener (loadTheme host (loadContent host st)).
Proof.
  unfold init_app, setTimeout. cbn [snd].
  set (st2 := loadTheme host (loadContent host st)). clearbody st2.
  unfold_methods. split_cases; auto.
Qed.

(** X24. The theme at start: a stored theme that is not empty is
    applied as it is, otherwise the colour scheme of the system decides;
    when the storage throws the theme is light and no listener for the
    colour scheme is registered.  The theme a toggle stored is the theme
    the next session starts with. *)
Theorem theme_at_start :
  forall host p storage,
    (getItem_throws host = true ->
     data_theme (page (start host p storage)) = Some (text "light")
     /\ theme_listener (start host p storage) = false)
    /\ (getItem_throws host = false ->
        data_theme (page (start host p storage))
        = Some (match lookup THEME_KEY storage with
                | Some (c :: t) => c :: t
                | _ => system_theme (prefers_dark host)
                end)
        /\ theme_listener (start host p storage) = true)
    /\ (forall st,
          reliable host ->
          data_theme
            (page (start host p (localStorage (toggleTheme host st))))
          = data_theme (page (toggleTheme host st))).
Proof.
  intros host p storage.
  assert (Hstart : forall storage0,
             getItem_throws host = false ->
             data_theme (page (start host p storage0))
             = Some (match lookup THEME_KEY storage0 with
                     | Some (c :: t) => c :: t
                     | _ => system_theme (prefers_dark host)
                     end)
             /\ theme_listener (start host p storage0) = true).
  { intros storage0 Hget. unfold start.
    set (st0 := {| page := p; localStorage := storage0; saveTimeout := None;
                   timers := []; next_timer := 1; theme_listener := false;
                   console := [] |}).
    destruct (init_theme host st0) as [-> ->].
    destruct (loadContent_theme host st0) as (_ & Hl & _).
    unfold loadTheme, getItem. rewrite Hget, Hl. cbn.
    split; [apply applyTheme_theme | reflexivity]. }
  split; [|split; [apply Hstart|]].
  - intros Hget. unfold start.
    set (st0 := {| page := p; localStorage := storage; saveTimeout := None;
                   timers := []; next_timer := 1; theme_listener := false;
                   console := [] |}).
    destruct (init_theme host st0) as [-> ->].
    destruct (loadContent_theme host st0) as (_ & _ & Hl).
    unfold loadTheme, getItem. rewrite Hget.
    split; [apply applyTheme_theme|].
    change (theme_listener
              (log "Failed to load theme:" (loadContent host st0)) = false).
    unfold log. cbn. exact Hl.
  - intros st [Hget Hset].
    destruct (Hstart (localStorage (toggleTheme host st)) Hget) as [-> _].
    rewrite (toggleTheme_stored host st (Hset THEME_KEY)).
    destruct (toggleTheme_never_empty host st) as (c & t & ->).
    reflexivity.
Qed.

(** X25. A theme the user chose is not overridden by the system: after
    a toggle that was stored, a change of the system colour scheme
    leaves the session as it is; while with no theme stored, and the
    listener registered, the change is followed. *)
Theorem chosen_theme_outlives_scheme_changes :
  forall host st dark,
    ((forall v, setItem_throws host THEME_KEY v = false) ->
     on_scheme_change host dark (toggleTheme host st) = toggleTheme host st)
    /\ (getItem_throws host = false ->
        theme_listener st = true ->
        lookup THEME_KEY (localStorage st) = None ->
        data_theme (page (on_scheme_change host dark st))
        = Some (system_theme dark)
        /\ localStorage (on_scheme_change host dark st) = localStorage st).
Proof.
  intros host st dark. split.
  - intros Hset. unfold on_scheme_change, getItem.
    destruct (theme_listener (toggleTheme host st)); [|reflexivity].
    destruct (getItem_throws host); [reflexivity|].
    rewrite (toggleTheme_stored host st Hset).
    destruct (toggleTheme_never_empty host st) as (c & t & ->).
    reflexivity.
  - intros Hget Hl Hnone. unfold on_scheme_change, getItem.
    rewrite Hl, Hget, Hnone. split; [apply applyTheme_theme | reflexivity].
Qed.

(** ** The properties above, on concrete sessions *)

Lemma english_reliable : reliable english.
Proof. split; [reflexivity | intros; reflexivity]. Qed.

Lemma latest_edit_is_saved_when_the_timer_fires_witness :
  localStorage (run english (start english empty_page [])
                  ([] ++ [UserInput (text "hi") 2 2]))
  = localStorage (run english (start english empty_page []) [])
  /\ exists id,
       pending_saves
         (run english (start english empty_page [])
            ([] ++ [UserInput (text "hi") 2 2]))
       = [id]
       /\ stored_content
            (run english (start english empty_page [])
               ([] ++ [UserInput (text "hi") 2 2; TimerFires id]))
          = Some (normalize_newlines (text "hi"))
       /\ pending_saves
            (run english (start english empty_page [])
               ([] ++ [UserInput (text "hi") 2 2; TimerFires id]))
          = []
       /\ status_text
            (page (run english (start english empty_page [])
                     ([] ++ [UserInput (text "hi") 2 2; TimerFires id])))
          = "Saved".
Proof.
  apply (latest_edit_is_saved_when_the_timer_fires english empty_page []
           [] (text "hi") 2 2).
  reflexivity.
Defined.

Lemma leaving_never_loses_text_witness :
  unload_warning english
    (run english (start english empty_page [])
       ([UserInput (text "hi") 2 2] ++ [BeforeUnload])) = false
  /\ (saveTimeout (run english (start english empty_page [])
                     [UserInput (text "hi") 2 2]) <> None ->
      stored_content
        (run english (start english empty_page [])
           ([UserInput (text "hi") 2 2] ++ [BeforeUnload]))
      = Some (value (page (run english (start english empty_page [])
                             [UserInput (text "hi") 2 2])))).
Proof.
  apply (leaving_never_loses_text english empty_page []
           [UserInput (text "hi") 2 2]).
  - split; [reflexivity | intros; reflexivity].
  - reflexivity.
  - intros s H. discriminate.
Defined.

Lemma saved_text_survives_reload_witness :
  value (page (start english empty_page
                 (localStorage (saveContent english draft))))
  = value (page draft)
  /\ status_text (page (start english empty_page
                          (localStorage (saveContent english draft))))
     = "Saved"
  /\ isContentSaved english
       (start english empty_page (localStorage (saveContent english draft)))
     = true.
Proof.
  apply (saved_text_survives_reload english draft empty_page).
  - split; [reflexivity | intros; reflexivity].
  - unfold no_cr. vm_compute. intuition discriminate.
Defined.

Lemma window_focus_discards_a_pending_edit_witness :
  value (page (run english returning
                 [UserInput (text "new") 3 3; WindowFocus]))
  = normalize_newlines (text "old")
  /\ stored_content (run english returning
                       [UserInput (text "new") 3 3; WindowFocus])
     = Some (text "old")
  /\ exists id,
       pending_saves (run english returning
                        [UserInput (text "new") 3 3; WindowFocus]) = [id]
       /\ stored_content
            (run english returning
               [UserInput (text "new") 3 3; WindowFocus; TimerFires id])
          = Some (normalize_newlines (text "old")).
Proof.
  apply (window_focus_discards_a_pending_edit english returning
           (text "new") 3 3 (text "old")).
  - split; [reflexivity | intros; reflexivity].
  - apply start_timers_ok.
  - vm_compute. reflexivity.
Defined.

Lemma failed_save_holds_back_leaving_witness :
  unload_warning quota_full (handleBeforeUnload quota_full unsaved) = true
  /\ status_text (page (handleBeforeUnload quota_full unsaved))
     = "Error saving"
  /\ localStorage (handleBeforeUnload quota_full unsaved)
     = localStorage unsaved
  /\ value (page (handleBeforeUnload quota_full unsaved))
     = value (page unsaved)
  /\ In "Failed to save content to localStorage:"
        (console (handleBeforeUnload quota_full unsaved)).
Proof.
  apply (failed_save_holds_back_leaving quota_full unsaved).
  - reflexivity.
  - reflexivity.
  - vm_compute. discriminate.
  - vm_compute. reflexivity.
  - vm_compute. discriminate.
Defined.

Lemma clearing_needs_confirmation_witness :
  (blank (value (page draft)) = true -> step english draft ClickClear = draft)
  /\ (blank (value (page draft)) = false ->
      modal_hidden (page (step english draft ClickClear)) = false
      /\ same_content draft (step english draft ClickClear)
      /\ (forall ev,
            In ev [ClickCancel; ClickModal true;
                   Keydown false false false "Escape"] ->
            same_content draft (run english draft [ClickClear; ev])
            /\ modal_hidden (page (run english draft [ClickClear; ev]))
               = true)
      /\ value (page (run english draft [ClickClear; ClickConfirm])) = []
      /\ stored_content (run english draft [ClickClear; ClickConfirm])
         = Some []
      /\ modal_hidden (page (run english draft [ClickClear; ClickConfirm]))
         = true).
Proof.
  apply (clearing_needs_confirmation english draft).
  split; [reflexivity | intros; reflexivity].
Defined.

End AppFacts.
